(** * Evidence scoring and selection: a shallow embedding of [main.py] and
    of the report-link scoring of [scraper.py].

    Python values are embedded as they are at run time: integers as [Z],
    floats as IEEE-754 binary64 ([PrimFloat]), strings as [string], a JSON
    object as an association list.  A document of the selection part is a
    record with one field per dictionary key the selection reads. *)

From Stdlib Require Import ZArith List String Ascii Bool Lia Floats.
From Stdlib Require Import Permutation Sorted ListSet DecimalString DecimalPos.
Import ListNotations.

Set Warnings "-inexact-float,-register-all".
Open Scope string_scope.
Open Scope Z_scope.

(* ================================================================== *)
(** ** Python values *)
(* ================================================================== *)

Module Py.

(** The values [json.loads] can produce, plus [None]. *)
Inductive pyval : Type :=
| PNone
| PBool (b : bool)
| PInt (z : Z)
| PFloat (f : float)
| PStr (s : string)
| PList (l : list pyval)
| PDict (kvs : list (string * pyval)).

(** Python truthiness ([if v:], [not v]). *)
Definition truthy (v : pyval) : bool :=
  match v with
  | PNone => false
  | PBool b => b
  | PInt z => negb (z =? 0)
  | PFloat f => negb (f =? 0)%float
  | PStr s => negb (s =? "")%string
  | PList l => match l with [] => false | _ => true end
  | PDict kvs => match kvs with [] => false | _ => true end
  end.

(** [isinstance(v, int)]: [bool] is a subclass of [int]. *)
Definition isinstance_int (v : pyval) : bool :=
  match v with
  | PInt _ | PBool _ => true
  | _ => false
  end.

(** The integer an [int] instance stands for. *)
Definition int_value (v : pyval) : Z :=
  match v with
  | PInt z => z
  | PBool true => 1
  | _ => 0
  end.

(** An optional integer as the Python value it is ([None] or an [int]). *)
Definition of_opt_int (o : option Z) : pyval :=
  match o with
  | Some z => PInt z
  | None => PNone
  end.

(** [str(z)] for an integer. *)
Definition str_int (z : Z) : string := NilEmpty.string_of_int (Z.to_int z).

(** Truthiness of an optional string ([d.get(k)] where the value is a
    string or the key is missing). *)
Definition truthy_opt_str (o : option string) : bool :=
  match o with
  | Some s => negb (s =? "")%string
  | None => false
  end.

(** Exceptions the embedded code can raise. *)
Inductive exn : Type := TypeError | ValueError | OverflowError | IndexError.

(** A computation that returns or raises. *)
Definition result (A : Type) : Type := (exn + A)%type.

Definition ret {A : Type} (a : A) : result A := inr a.
Definition raise {A : Type} (e : exn) : result A := inl e.
Definition bind {A B : Type} (m : result A) (k : A -> result B) : result B :=
  match m with
  | inl e => inl e
  | inr a => k a
  end.

Notation "x <- m ;; k" := (bind m (fun x => k))
  (at level 61, m at next level, right associativity).

(** *** [int(...)]

    Strings are ASCII here: the whitespace and digit classes are the
    ASCII part of Python's. *)

Definition is_digit (c : ascii) : bool :=
  let n := nat_of_ascii c in ((48 <=? n) && (n <=? 57))%nat.

Definition digit_value (c : ascii) : Z := Z.of_nat (nat_of_ascii c) - 48.

Definition is_space (c : ascii) : bool :=
  let n := nat_of_ascii c in
  (((9 <=? n) && (n <=? 13)) || ((28 <=? n) && (n <=? 32)))%nat.

Fixpoint lstrip (s : string) : string :=
  match s with
  | String c rest => if is_space c then lstrip rest else s
  | EmptyString => EmptyString
  end.

(** Length of [s] without its trailing whitespace. *)
Fixpoint rstrip_length (s : string) : nat :=
  match s with
  | String c rest =>
      match rstrip_length rest with
      | O => if is_space c then O else 1%nat
      | S n => S (S n)
      end
  | EmptyString => O
  end.

(** [s.strip()] *)
Definition strip (s : string) : string :=
  let s := lstrip s in substring 0 (rstrip_length s) s.

(** Decimal digits, single underscores allowed between digits.  [acc] is
    the value read so far, [after_digit] tells whether the previous
    character was a digit. *)
Fixpoint digits_value (s : string) (acc : Z) (after_digit : bool) : option Z :=
  match s with
  | EmptyString => if after_digit then Some acc else None
  | String c rest =>
      if is_digit c then digits_value rest (10 * acc + digit_value c) true
      else if Ascii.eqb c "_" && after_digit then digits_value rest acc false
      else None
  end.

(** [int(s)] for a string. *)
Definition int_of_str (s : string) : result Z :=
  let body :=
    match strip s with
    | String "-" rest => option_map Z.opp (digits_value rest 0 false)
    | String "+" rest => digits_value rest 0 false
    | t => digits_value t 0 false
    end in
  match body with
  | Some z => ret z
  | None => raise ValueError
  end.

(** [int(f)] for a float: truncation toward zero. *)
Definition int_of_float (f : float) : result Z :=
  match Prim2SF f with
  | S754_zero _ => ret 0
  | S754_infinity _ => raise OverflowError
  | S754_nan => raise ValueError
  | S754_finite sign m e =>
      let magnitude :=
        if 0 <=? e then Z.pos m * 2 ^ e else Z.pos m / 2 ^ (- e) in
      ret (if sign then - magnitude else magnitude)
  end.

(** [int(v)] *)
Definition py_int (v : pyval) : result Z :=
  match v with
  | PInt z => ret z
  | PBool b => ret (if b then 1 else 0)
  | PFloat f => int_of_float f
  | PStr s => int_of_str s
  | PNone | PList _ | PDict _ => raise TypeError
  end.

(** *** Dictionaries with string keys *)

Definition dict : Type := list (string * pyval).

(** [d.get(k)] *)
Fixpoint dict_get (d : dict) (k : string) : option pyval :=
  match d with
  | [] => None
  | (k', v) :: rest => if (k' =? k)%string then Some v else dict_get rest k
  end.

(** [d[k] = v] *)
Fixpoint dict_set (d : dict) (k : string) (v : pyval) : dict :=
  match d with
  | [] => [(k, v)]
  | (k', v') :: rest =>
      if (k' =? k)%string then (k, v) :: rest else (k', v') :: dict_set rest k v
  end.

Definition hashable (v : pyval) : bool :=
  match v with
  | PList _ | PDict _ => false
  | _ => true
  end.

(** One element of the sequence handed to [dict.update]: it must itself
    be a sequence of length two, key first.  A key that is no string is
    stored under a key no later lookup asks for, so it is left out. *)
Definition update_from_item (d : dict) (item : pyval) : result dict :=
  match item with
  | PList [k; v] =>
      if hashable k
      then ret (match k with PStr key => dict_set d key v | _ => d end)
      else raise TypeError
  | PList _ => raise ValueError
  | PStr (String k (String v EmptyString)) =>
      ret (dict_set d (String k EmptyString) (PStr (String v EmptyString)))
  | PStr _ => raise ValueError
  | PDict [(k1, _); (k2, _)] =>
      if (k1 =? k2)%string then raise ValueError
      else ret (dict_set d k1 (PStr k2))
  | PDict _ => raise ValueError
  | PNone | PBool _ | PInt _ | PFloat _ => raise TypeError
  end.

Fixpoint update_from_items (d : dict) (items : list pyval) : result dict :=
  match items with
  | [] => ret d
  | item :: rest => d' <- update_from_item d item ;; update_from_items d' rest
  end.

(** [d.update(other)] *)
Definition dict_update (d : dict) (other : pyval) : result dict :=
  match other with
  | PDict kvs => ret (fold_left (fun acc kv => dict_set acc (fst kv) (snd kv)) kvs d)
  | PList items => update_from_items d items
  | PStr EmptyString => ret d
  | PStr _ => raise ValueError
  | PNone | PBool _ | PInt _ | PFloat _ => raise TypeError
  end.

(** Text of ASCII characters only. *)
Definition is_ascii (s : string) : bool :=
  forallb (fun c => (nat_of_ascii c <? 128)%nat) (list_ascii_of_string s).

(** [v != literal] for a string literal. *)
Definition differs_from_str (v : pyval) (literal : string) : bool :=
  match v with
  | PStr s => negb (s =? literal)%string
  | _ => true
  end.

End Py.

(* ================================================================== *)
(** ** main.py *)
(* ================================================================== *)

Module Main.
Import Py.

(** [get_year_multiplier(year)] *)
Definition get_year_multiplier (year : pyval) : float :=
  if negb (truthy year) || negb (isinstance_int year) then 0.0%float
  else
    let y := int_value year in
    if y >=? 2023 then 1.0%float
    else if y =? 2022 then 0.8%float
    else if y =? 2021 then 0.6%float
    else if y =? 2020 then 0.4%float
    else if y =? 2019 then 0.2%float
    else 0.0%float.

(** *** Classified documents

    One record field per key of the document dictionary that the selection
    and the output stage read.  [error], [content_type],
    [is_direct_file_link] and [llm_ref_year_str] are [None] when the key
    is missing; [ref_year_int] is [None] when the key is missing or holds
    [None] (the code tests it with [is not None] on [.get]). *)

Inductive category : Type :=
| ERROR
| UNKNOWN
| POTENTIAL_FIN_REP
| POTENTIAL_OTHER_FINANCIAL_DATA_PAGE
| POTENTIAL_OTHER_REPORT_LANDING_PAGE
| POTENTIAL_OTHER_GENERIC
| DEMOTED_FIN_REP_AS_OTHER.

Inductive csv_type : Type := FIN_REP | OTHER.

Record Doc : Type := mkDoc {
  url : string;
  error : option string;
  content_type : option string;
  ref_year_int : option Z;
  llm_ref_year_str : option string;
  is_direct_file_link : option string;
  data_points_present : list (string * string);
  calculated_score : float;
  selection_category : category;
  final_type_for_csv : option csv_type
}.

Definition category_eqb (a b : category) : bool :=
  match a, b with
  | ERROR, ERROR | UNKNOWN, UNKNOWN | POTENTIAL_FIN_REP, POTENTIAL_FIN_REP
  | POTENTIAL_OTHER_FINANCIAL_DATA_PAGE, POTENTIAL_OTHER_FINANCIAL_DATA_PAGE
  | POTENTIAL_OTHER_REPORT_LANDING_PAGE, POTENTIAL_OTHER_REPORT_LANDING_PAGE
  | POTENTIAL_OTHER_GENERIC, POTENTIAL_OTHER_GENERIC
  | DEMOTED_FIN_REP_AS_OTHER, DEMOTED_FIN_REP_AS_OTHER => true
  | _, _ => false
  end.

(** [doc["calculated_score"] = s; doc["selection_category"] = c] *)
Definition set_score (doc : Doc) (s : float) (c : category) : Doc :=
  mkDoc (url doc) (error doc) (content_type doc) (ref_year_int doc)
        (llm_ref_year_str doc) (is_direct_file_link doc)
        (data_points_present doc) s c (final_type_for_csv doc).

(** [doc["final_type_for_csv"] = t] *)
Definition set_final_type (doc : Doc) (t : csv_type) : Doc :=
  mkDoc (url doc) (error doc) (content_type doc) (ref_year_int doc)
        (llm_ref_year_str doc) (is_direct_file_link doc)
        (data_points_present doc) (calculated_score doc)
        (selection_category doc) (Some t).

(** [doc.get("error")] as a condition. *)
Definition has_error (doc : Doc) : bool := truthy_opt_str (error doc).

(** [doc.get(key) == literal] for a string-valued key. *)
Definition opt_str_is (o : option string) (literal : string) : bool :=
  match o with
  | Some s => (s =? literal)%string
  | None => false
  end.

Definition is_some {A : Type} (o : option A) : bool :=
  match o with Some _ => true | None => false end.

(** An [int] as a [float] (exact below [2^53]). *)
Definition float_of_nat (n : nat) : float :=
  PrimFloat.of_uint63 (Uint63.of_Z (Z.of_nat n)).

(** [sum(1 for val in data_points.values() if val == "YES")] *)
Definition num_present (doc : Doc) : nat :=
  List.length (filter (fun kv => (snd kv =? "YES")%string) (data_points_present doc)).

(** [par_sc]: [0.0], or [num_present / 4.0] when [num_present >= 2]. *)
Definition data_point_score (doc : Doc) : float :=
  if (2 <=? num_present doc)%nat
  then (float_of_nat (num_present doc) / 4.0)%float
  else 0.0%float.

(** The body of the scoring loop (lines 198-249): the document with its
    score and category. *)
Definition score_document (doc : Doc) : Doc :=
  if has_error doc then set_score doc 0%float ERROR
  else
    let content_type := content_type doc in
    let ref_year_int := ref_year_int doc in
    let is_direct_link := opt_str_is (is_direct_file_link doc) "YES" in
    if opt_str_is content_type "ANNUAL_FINANCIAL_REPORT_DOCUMENT"
       && is_direct_link && is_some ref_year_int then
      let score := (1.0 * get_year_multiplier (of_opt_int ref_year_int))%float in
      set_score doc score POTENTIAL_FIN_REP
    else if opt_str_is content_type "FINANCIAL_DATA_PAGE" && is_some ref_year_int then
      let par_sc := data_point_score doc in
      let year_mult := get_year_multiplier (of_opt_int ref_year_int) in
      set_score doc (par_sc * year_mult)%float POTENTIAL_OTHER_FINANCIAL_DATA_PAGE
    else if opt_str_is content_type "ANNUAL_FINANCIAL_REPORT_DOCUMENT"
            && negb is_direct_link && is_some ref_year_int then
      let par_sc := 0.5%float in
      let year_mult := get_year_multiplier (of_opt_int ref_year_int) in
      set_score doc (par_sc * year_mult)%float POTENTIAL_OTHER_REPORT_LANDING_PAGE
    else
      let year_mult :=
        if truthy (of_opt_int ref_year_int)
        then get_year_multiplier (of_opt_int ref_year_int) else 0%float in
      let par_sc := data_point_score doc in
      set_score doc (par_sc * year_mult)%float POTENTIAL_OTHER_GENERIC.

(** The scoring loop: the documents as the loop leaves them in
    [analyzed_docs_raw], then [potential_fin_reps] and
    [potential_other_sources], each in input order. *)
Fixpoint score_documents (docs : list Doc) : list Doc * list Doc * list Doc :=
  match docs with
  | [] => ([], [], [])
  | doc :: rest =>
      let '(analyzed, fin_reps, other_sources) := score_documents rest in
      let doc' := score_document doc in
      if category_eqb (selection_category doc') POTENTIAL_FIN_REP
      then (doc' :: analyzed, doc' :: fin_reps, other_sources)
      else (doc' :: analyzed, fin_reps, doc' :: other_sources)
  end.

(** *** Sorting

    [list.sort(key=k, reverse=True)] is stable: the result is in
    descending key order and documents with equal keys keep their input
    order.  [lt a b] says that the key of [a] is less than the key of
    [b]. *)
Section Sort.
Context {A : Type} (lt : A -> A -> bool).

Fixpoint insert_desc (x : A) (l : list A) : list A :=
  match l with
  | [] => [x]
  | y :: l' => if lt x y then y :: insert_desc x l' else x :: l
  end.

Definition sort_desc (l : list A) : list A :=
  fold_right insert_desc [] l.
End Sort.

(** Tuple comparison: the first components that differ decide. *)
Definition pair_lt (a1 : float) (b1 : Z) (a2 : float) (b2 : Z) : bool :=
  if (a1 =? a2)%float then b1 <? b2 else (a1 <? a2)%float.

Definition year_or (default : Z) (doc : Doc) : Z :=
  match ref_year_int doc with
  | Some y => y
  | None => default
  end.

(** Key of line 251: [(calculated_score, ref_year_int)].  Every document
    of [potential_fin_reps] has an integer [ref_year_int]. *)
Definition fin_rep_lt (a b : Doc) : bool :=
  pair_lt (calculated_score a) (year_or 0 a) (calculated_score b) (year_or 0 b).

(** Key of lines 278-279: [(calculated_score, ref_year_int or -1)]. *)
Definition other_lt (a b : Doc) : bool :=
  pair_lt (calculated_score a) (year_or (-1) a) (calculated_score b) (year_or (-1) b).

(** [content_type_pref] of [sort_key_for_fillers]. *)
Definition content_type_pref (d : Doc) : Z :=
  if opt_str_is (content_type d) "ANNUAL_FINANCIAL_REPORT_DOCUMENT" then 3
  else if opt_str_is (content_type d) "FINANCIAL_DATA_PAGE" then 2
  else if opt_str_is (content_type d) "INVESTOR_HUB_OR_INDEX" then 1
  else 0.

(** Key of [sort_key_for_fillers]: [(year or -1, content_type_pref, score)]. *)
Definition filler_lt (a b : Doc) : bool :=
  if year_or (-1) a =? year_or (-1) b then
    if content_type_pref a =? content_type_pref b
    then (calculated_score a <? calculated_score b)%float
    else content_type_pref a <? content_type_pref b
  else year_or (-1) a <? year_or (-1) b.

(** *** Primary, pool and alternates (lines 251-323) *)

(** Lines 253-257: the head of the sorted [potential_fin_reps] when its
    score is positive.  (The assignment of [final_type_for_csv] also
    shows through [potential_fin_reps[0]] and [analyzed_docs_raw]; every
    later loop skips the documents carrying the chosen URL, so no later
    read sees it.) *)
Definition choose_fin_rep (potential_fin_reps : list Doc) : option Doc :=
  match potential_fin_reps with
  | [] => None
  | top :: _ =>
      if (0 <? calculated_score top)%float
      then Some (set_final_type top FIN_REP)
      else None
  end.

(** [chosen_fin_rep is None or doc["url"] != chosen_fin_rep["url"]] *)
Definition not_chosen_url (chosen : option Doc) (doc : Doc) : bool :=
  match chosen with
  | None => true
  | Some c => negb (url doc =? url c)%string
  end.

(** Lines 263-268: the demoted copy of a report that was not chosen. *)
Definition demote (fin_rep_doc : Doc) : Doc :=
  let par_sc_for_demoted_fin_rep := 0.75%float in
  let year_mult := get_year_multiplier (of_opt_int (ref_year_int fin_rep_doc)) in
  set_final_type
    (set_score fin_rep_doc (par_sc_for_demoted_fin_rep * year_mult)%float
               DEMOTED_FIN_REP_AS_OTHER)
    OTHER.

(** Lines 259-276: demoted reports first, then the other sources, both
    without the chosen URL. *)
Definition build_other_pool (chosen : option Doc)
    (potential_fin_reps potential_other_sources : list Doc) : list Doc :=
  map demote (filter (not_chosen_url chosen) potential_fin_reps)
  ++ map (fun d => set_final_type d OTHER)
         (filter (not_chosen_url chosen) potential_other_sources).

Definition seen_mem (u : string) (seen : set string) : bool :=
  set_mem string_dec u seen.

Definition seen_add (u : string) (seen : set string) : set string :=
  set_add string_dec u seen.

(** Lines 286-292: walk the sorted pool until five alternates are held. *)
Fixpoint take_scored (pool final_other_reports : list Doc) (seen : set string)
  : list Doc * set string :=
  match pool with
  | [] => (final_other_reports, seen)
  | other_doc :: rest =>
      if (5 <=? List.length final_other_reports)%nat
      then (final_other_reports, seen)
      else if negb (seen_mem (url other_doc) seen)
                && ((0 <? calculated_score other_doc)%float
                    || is_some (ref_year_int other_doc))
      then take_scored rest (final_other_reports ++ [other_doc])
                       (seen_add (url other_doc) seen)
      else take_scored rest final_other_reports seen
  end.

(** Lines 316-321: the same walk over the fillers, without the evidence
    test. *)
Fixpoint take_fillers (fillers final_other_reports : list Doc) (seen : set string)
  : list Doc * set string :=
  match fillers with
  | [] => (final_other_reports, seen)
  | doc_to_fill :: rest =>
      if (5 <=? List.length final_other_reports)%nat
      then (final_other_reports, seen)
      else if negb (seen_mem (url doc_to_fill) seen)
      then take_fillers rest (final_other_reports ++ [doc_to_fill])
                        (seen_add (url doc_to_fill) seen)
      else take_fillers rest final_other_reports seen
  end.

(** Lines 295-301: [remaining_raw_docs_to_consider]. *)
Definition remaining_raw_docs (analyzed_docs_raw : list Doc) (seen : set string)
  : list Doc :=
  map (fun d => set_final_type d OTHER)
      (filter (fun d => negb (has_error d) && negb (seen_mem (url d) seen))
              analyzed_docs_raw).

(** Lines 294-321. *)
Definition backfill (analyzed_docs_raw final_other_reports : list Doc)
    (seen : set string) : list Doc * set string :=
  if (List.length final_other_reports <? 5)%nat then
    take_fillers (sort_desc filler_lt (remaining_raw_docs analyzed_docs_raw seen))
                 final_other_reports seen
  else (final_other_reports, seen).

(** Lines 195-323 of [process_company_urls]: from the classified documents
    to [(chosen_fin_rep, final_other_reports)]. *)
Definition select_documents (analyzed_docs_raw : list Doc)
  : option Doc * list Doc :=
  let '(analyzed, potential_fin_reps, potential_other_sources) :=
    score_documents analyzed_docs_raw in
  let potential_fin_reps := sort_desc fin_rep_lt potential_fin_reps in
  let chosen_fin_rep := choose_fin_rep potential_fin_reps in
  let all_potential_other_sources :=
    sort_desc other_lt
      (build_other_pool chosen_fin_rep potential_fin_reps potential_other_sources) in
  let seen_urls_for_output :=
    match chosen_fin_rep with
    | Some c => seen_add (url c) (empty_set string)
    | None => empty_set string
    end in
  let '(final_other_reports, seen_urls_for_output) :=
    take_scored all_potential_other_sources [] seen_urls_for_output in
  let '(final_other_reports, _) :=
    backfill analyzed final_other_reports seen_urls_for_output in
  (chosen_fin_rep, final_other_reports).

(** The values the variables of [process_company_urls] hold on the way. *)
Definition analyzed_docs (docs : list Doc) : list Doc :=
  fst (fst (score_documents docs)).

Definition unsorted_fin_reps (docs : list Doc) : list Doc :=
  snd (fst (score_documents docs)).

Definition sorted_fin_reps (docs : list Doc) : list Doc :=
  sort_desc fin_rep_lt (unsorted_fin_reps docs).

Definition other_sources (docs : list Doc) : list Doc :=
  snd (score_documents docs).

Definition chosen_fin_rep (docs : list Doc) : option Doc :=
  choose_fin_rep (sorted_fin_reps docs).

Definition unsorted_pool (docs : list Doc) : list Doc :=
  build_other_pool (chosen_fin_rep docs) (sorted_fin_reps docs) (other_sources docs).

Definition all_potential_other_sources (docs : list Doc) : list Doc :=
  sort_desc other_lt (unsorted_pool docs).

(** [seen_urls_for_output] before the first walk. *)
Definition initial_seen (docs : list Doc) : set string :=
  match chosen_fin_rep docs with
  | Some c => seen_add (url c) (empty_set string)
  | None => empty_set string
  end.

(** [final_other_reports] and [seen_urls_for_output] after the first walk. *)
Definition scored_alternates (docs : list Doc) : list Doc * set string :=
  take_scored (all_potential_other_sources docs) [] (initial_seen docs).

(** The test of line 212 as the scoring loop records it. *)
Definition is_fin_rep (d : Doc) : bool :=
  category_eqb (selection_category d) POTENTIAL_FIN_REP.

(** The guard of line 212 together with the error test of line 199: the
    documents that enter [potential_fin_reps]. *)
Definition potential_fin_rep (d : Doc) : bool :=
  negb (has_error d)
  && opt_str_is (content_type d) "ANNUAL_FINANCIAL_REPORT_DOCUMENT"
  && opt_str_is (is_direct_file_link d) "YES"
  && is_some (ref_year_int d).

(** What both walks keep true: the alternates held carry pairwise
    different URLs, all of them recorded in [seen]; the URLs [seen0]
    recorded at the start stay recorded and are carried by no alternate. *)
Definition walk_inv (seen0 : set string) (final : list Doc) (seen : set string) : Prop :=
  NoDup (map url final)
  /\ (forall d, In d final -> In (url d) seen)
  /\ (forall u, In u seen0 -> In u seen)
  /\ (forall d, In d final -> ~ In (url d) seen0).

(** The chosen report as a list of at most one document. *)
Definition chosen_list (chosen : option Doc) : list Doc :=
  match chosen with
  | Some c => [c]
  | None => []
  end.

(** No two entries of [l] tie under [lt]: of any two, one is less. *)
Fixpoint strict_pairs {A : Type} (lt : A -> A -> bool) (l : list A) : bool :=
  match l with
  | [] => true
  | a :: l' => forallb (fun b => lt a b || lt b a) l' && strict_pairs lt l'
  end.

(** Of any two entries of [l] one is less under [lt], unless [tie] lets
    the pair stand. *)
Fixpoint loose_pairs {A : Type} (lt tie : A -> A -> bool) (l : list A) : bool :=
  match l with
  | [] => true
  | a :: l' =>
      forallb (fun b => lt a b || lt b a || tie a b) l' && loose_pairs lt tie l'
  end.

(** The second half of the test of line 290 fails: the walk over the pool
    passes the document over whatever the URLs seen. *)
Definition passed_over (d : Doc) : bool :=
  negb ((0 <? calculated_score d)%float || is_some (ref_year_int d)).

(** Two entries of the pool that the walk passes over, with equal scores. *)
Definition idle_tie (a b : Doc) : bool :=
  passed_over a && passed_over b
  && (calculated_score a =? calculated_score b)%float.

(** The ties that can show in the output are absent: no two documents of
    [potential_fin_reps] tie on the key of line 251; no two entries of the
    pool tie on the key of line 278, unless the walk passes both over; and
    when the walk leaves fewer than five alternates, no two of the
    documents left for the backfill tie on its key. *)
Definition tie_free (docs : list Doc) : bool :=
  strict_pairs fin_rep_lt (unsorted_fin_reps docs)
  && loose_pairs other_lt idle_tie (unsorted_pool docs)
  && ((5 <=? List.length (fst (scored_alternates docs)))%nat
      || strict_pairs filler_lt
           (remaining_raw_docs (analyzed_docs docs)
                               (snd (scored_alternates docs)))).

(** *** Output rows ([main], lines 430-485) *)

Record Row : Type := mkRow {
  ID : string;
  NAME : string;
  TYPE : string;
  SRC : string;
  REFYEAR : string
}.

(** Lines 433-440: the six rows of a company without URLs. *)
Definition empty_rows (company_id company_name : string) : list Row :=
  map (fun i => mkRow company_id company_name
                      (if Nat.eqb i 0 then "FIN_REP" else "OTHER") "" "")
      (seq 0 6).

(** Lines 454-464.  The chosen document always carries an integer year;
    [str(None)] is what the call would print otherwise. *)
Definition fin_rep_row (company_id company_name : string)
    (best_fin_rep : option Doc) : Row :=
  match best_fin_rep with
  | Some d =>
      mkRow company_id company_name "FIN_REP" (url d)
            match ref_year_int d with
            | Some y => str_int y
            | None => "None"
            end
  | None => mkRow company_id company_name "FIN_REP" "" ""
  end.

(** Lines 468-482: the row of slot [i] of the alternates. *)
Definition other_row (company_id company_name : string)
    (top_other_sources : list Doc) (i : nat) : Row :=
  match nth_error top_other_sources i with
  | Some other_src =>
      let year_str :=
        match ref_year_int other_src with
        | Some y => str_int y
        | None =>
            match llm_ref_year_str other_src with
            | Some s => s
            | None => ""
            end
        end in
      let year_str := if (year_str =? "UNKNOWN")%string then "" else year_str in
      mkRow company_id company_name "OTHER" (url other_src) year_str
  | None => mkRow company_id company_name "OTHER" "" ""
  end.

(** Lines 450-485: [output_csv_rows]. *)
Definition output_csv_rows (company_id company_name : string)
    (result : option Doc * list Doc) : list Row :=
  let '(best_fin_rep, top_other_sources) := result in
  fin_rep_row company_id company_name best_fin_rep
  :: map (other_row company_id company_name top_other_sources) (seq 0 5).

(** A [SRC] that holds a URL. *)
Definition nonempty (s : string) : bool := negb (s =? "")%string.

(** The rows [main] writes for one company.  [analyzed] stands for lines
    166-193 of [process_company_urls]: the classified documents of the
    URLs handed over. *)
Section Company.
Variable analyzed : list string -> list Doc.

Definition process_company_urls (all_urls_for_company : list string)
  : option Doc * list Doc :=
  select_documents (analyzed all_urls_for_company).

Definition company_rows (company_id company_name : string)
    (all_discovered_urls_for_company : list string) : list Row :=
  match all_discovered_urls_for_company with
  | [] => empty_rows company_id company_name
  | _ => output_csv_rows company_id company_name
           (process_company_urls all_discovered_urls_for_company)
  end.
End Company.

(** *** Classification (lines 99-193)

    The collaborators are given from outside: what
    [fetch_content_snippet] returns for a URL, and what the [k]-th call of
    the model does for a URL: it raises, or it answers and
    [extract_json_from_response] turns the answer into a value ([None]
    when it finds no JSON). *)

Inductive llm_reply : Type :=
| Raises
| Replies (parsed : pyval).

Inductive event : Type :=
| LlmCall (attempt : nat)
| Sleep (seconds : Z).

Record World : Type := mkWorld {
  fetch : string -> string * string;
  llm : string -> nat -> llm_reply
}.

(** The retry loop of [call_llm_for_analysis] with [remaining] attempts
    to go: the returned value and what happened on the way. *)
Fixpoint llm_attempts (reply : nat -> llm_reply)
    (number_of_retries : nat) (retry_delay : Z) (remaining : nat)
  : pyval * list event :=
  match remaining with
  | O => (PDict [], [])
  | S remaining' =>
      let attempt := (number_of_retries - remaining)%nat in
      match reply attempt with
      | Replies parsed => (parsed, [LlmCall attempt])
      | Raises =>
          let '(v, events) :=
            llm_attempts reply number_of_retries retry_delay remaining' in
          (v, LlmCall attempt
              :: (if (attempt <? number_of_retries - 1)%nat
                  then [Sleep retry_delay] else [])
              ++ events)
      end
  end.

(** [call_llm_for_analysis(url, title, snippet)] with its defaults
    [number_of_retries=3], [retry_delay=2]. *)
Definition call_llm_for_analysis (w : World) (url : string) : pyval * list event :=
  llm_attempts (llm w url) 3 2 3.

(** Lines 183-191: the [try] block that fills [ref_year_int].  Only
    [ValueError] is caught. *)
Definition set_ref_year (doc_info : dict) : result dict :=
  let ref_year :=
    match dict_get doc_info "ref_year" with
    | Some v => v
    | None => PStr "UNKNOWN"
    end in
  let doc_info := dict_set doc_info "llm_ref_year_str" ref_year in
  if differs_from_str ref_year "UNKNOWN" then
    match py_int ref_year with
    | inr y => ret (dict_set doc_info "ref_year_int" (PInt y))
    | inl ValueError =>
        ret (dict_set (dict_set doc_info "ref_year_int" PNone)
                      "llm_ref_year_str" (PStr "UNKNOWN"))
    | inl e => raise e
    end
  else ret (dict_set doc_info "ref_year_int" PNone).

(** Lines 168-193: the record appended for one URL, or the exception that
    leaves the loop. *)
Definition analyze_url (w : World) (url : string) : result dict * list event :=
  let '(title, snippet) := fetch w url in
  if (title =? "Fetch Error")%string || (title =? "Processing Error")%string then
    (ret [("url", PStr url); ("error", PStr snippet); ("type", PStr "ERROR")], [])
  else
    let '(llm_result, events) := call_llm_for_analysis w url in
    if negb (truthy llm_result) then
      (ret [("url", PStr url); ("error", PStr "LLM analysis failed");
            ("type", PStr "ERROR")], events)
    else
      let doc_info := [("url", PStr url); ("llm_ref_year_str", PStr "UNKNOWN")] in
      (doc_info <- dict_update doc_info llm_result ;; set_ref_year doc_info, events).

(** Lines 166-193: [analyzed_docs_raw]. *)
Fixpoint analyze_urls (w : World) (all_urls_for_company : list string)
  : result (list dict) * list event :=
  match all_urls_for_company with
  | [] => (ret [], [])
  | url :: rest =>
      match analyze_url w url with
      | (inl e, events) => (raise e, events)
      | (inr doc_info, events) =>
          let '(r, events') := analyze_urls w rest in
          (docs <- r ;; ret (doc_info :: docs), (events ++ events')%list)
      end
  end.

(** Calls of the model and waits among the events. *)
Definition llm_calls (events : list event) : nat :=
  List.length (filter (fun e => match e with LlmCall _ => true | Sleep _ => false end)
                      events).

Definition sleeps (events : list event) : list Z :=
  flat_map (fun e => match e with Sleep s => [s] | LlmCall _ => [] end) events.

(** The record of lines 171 and 177. *)
Definition error_record (url message : string) : dict :=
  [("url", PStr url); ("error", PStr message); ("type", PStr "ERROR")].

(** The record of a dictionary whose values have the types the prompt
    asks for; [None] when a value the selection reads has another type. *)
Definition opt_str_field (d : dict) (k : string) : option (option string) :=
  match dict_get d k with
  | None => Some None
  | Some (PStr s) => Some (Some s)
  | Some _ => None
  end.

Fixpoint str_pairs (kvs : list (string * pyval)) : option (list (string * string)) :=
  match kvs with
  | [] => Some []
  | (k, PStr v) :: rest => option_map (cons (k, v)) (str_pairs rest)
  | _ => None
  end.

Definition doc_of_dict (d : dict) : option Doc :=
  match dict_get d "url", opt_str_field d "error", opt_str_field d "content_type",
        opt_str_field d "llm_ref_year_str", opt_str_field d "is_direct_file_link" with
  | Some (PStr u), Some err, Some ct, Some yr_str, Some direct =>
      let year :=
        match dict_get d "ref_year_int" with
        | Some (PInt y) => Some (Some y)
        | Some PNone | None => Some None
        | Some _ => None
        end in
      let points :=
        match dict_get d "data_points_present" with
        | None => Some []
        | Some (PDict kvs) => str_pairs kvs
        | Some _ => None
        end in
      match year, points with
      | Some y, Some dp => Some (mkDoc u err ct y yr_str direct dp 0%float UNKNOWN None)
      | _, _ => None
      end
  | _, _, _, _, _ => None
  end.

End Main.

(* ================================================================== *)
(** ** The order of the floats *)
(* ================================================================== *)

(** The place of a float that is no NaN in the order of the floats:
    class, then exponent, then mantissa. *)
Definition sf_rank (f : spec_float) : option (Z * Z * Z) :=
  match f with
  | S754_nan => None
  | S754_infinity true => Some (-2, 0, 0)
  | S754_infinity false => Some (2, 0, 0)
  | S754_zero _ => Some (0, 0, 0)
  | S754_finite true m e => Some (-1, - e, - Z.pos m)
  | S754_finite false m e => Some (1, e, Z.pos m)
  end.

Definition rank_lt (r1 r2 : Z * Z * Z) : Prop :=
  let '(c1, e1, m1) := r1 in
  let '(c2, e2, m2) := r2 in
  c1 < c2 \/ (c1 = c2 /\ (e1 < e2 \/ (e1 = e2 /\ m1 < m2))).

Definition float_rank (x : float) : option (Z * Z * Z) := sf_rank (Prim2SF x).

(* ================================================================== *)
(** ** Sample documents *)
(* ================================================================== *)

Module Samples.
Import Py Main.

(** A direct link to an annual report of the year given. *)
Definition report (u : string) (year : Z) : Doc :=
  mkDoc u None (Some "ANNUAL_FINANCIAL_REPORT_DOCUMENT") (Some year)
        (Some (str_int year)) (Some "YES") [] 0%float UNKNOWN None.

(** A page that leads to an annual report. *)
Definition landing_page (u : string) (year : Z) : Doc :=
  mkDoc u None (Some "ANNUAL_FINANCIAL_REPORT_DOCUMENT") (Some year)
        (Some (str_int year)) (Some "NO") [] 0%float UNKNOWN None.

(** A financial data page with the data points given. *)
Definition data_page (u : string) (year : Z) (points : list (string * string)) : Doc :=
  mkDoc u None (Some "FINANCIAL_DATA_PAGE") (Some year)
        (Some (str_int year)) (Some "NO") points 0%float UNKNOWN None.

(** A URL whose fetch or classification failed (lines 171 and 177). *)
Definition failed (u err : string) : Doc :=
  mkDoc u (Some err) None None None None [] 0%float UNKNOWN None.

(** A record with both an error and a year: the answer of the model
    carried an [error] key next to [ref_year]. *)
Definition failed_with_year (u err : string) (year : Z) : Doc :=
  mkDoc u (Some err) (Some "OTHER") (Some year) (Some (str_int year)) None []
        0%float UNKNOWN None.

(** A page for which the model found no year. *)
Definition page_without_year (u content : string) : Doc :=
  mkDoc u None (Some content) None None (Some "NO") [] 0%float UNKNOWN None.

(** The claim's "annual report document, direct file link, year [y]". *)
Definition report_of_year (y : Z) (d : Doc) : bool :=
  opt_str_is (content_type d) "ANNUAL_FINANCIAL_REPORT_DOCUMENT"
  && opt_str_is (is_direct_file_link d) "YES"
  && match ref_year_int d with
     | Some y' => y' =? y
     | None => false
     end.

End Samples.

(* ================================================================== *)
(** ** scraper.py *)
(* ================================================================== *)

Module Scraper.
Import Py.

(** [config.TARGET_YEARS] *)
Definition TARGET_YEARS : list string := ["2024"; "2023"; "2022"; "2021"; "2020"].

(** A word character of [\b] and [\w] (ASCII text). *)
Definition is_word (c : ascii) : bool :=
  let n := nat_of_ascii c in
  (((48 <=? n) && (n <=? 57)) || ((65 <=? n) && (n <=? 90))
   || ((97 <=? n) && (n <=? 122)) || (n =? 95))%nat.

Definition is_word_opt (c : option ascii) : bool :=
  match c with
  | Some c => is_word c
  | None => false
  end.

(** [\b] between two neighbouring positions; [None] is an end of the
    text. *)
Definition boundary (before after : option ascii) : bool :=
  xorb (is_word_opt before) (is_word_opt after).

Definition head_char (s : string) : option ascii :=
  match s with
  | String c _ => Some c
  | EmptyString => None
  end.

(** [(19[89]\d|20\d{2})\b] at the start of [s]: the four digits. *)
Definition year_here (s : string) : option string :=
  match s with
  | String c1 (String c2 (String c3 (String c4 rest))) =>
      if (((Ascii.eqb c1 "1" && Ascii.eqb c2 "9"
            && (Ascii.eqb c3 "8" || Ascii.eqb c3 "9"))
           || (Ascii.eqb c1 "2" && Ascii.eqb c2 "0" && is_digit c3))
          && is_digit c4 && boundary (Some c4) (head_char rest))%bool
      then Some (String c1 (String c2 (String c3 (String c4 EmptyString))))
      else None
  | _ => None
  end.

(** [any_year_regex.search(s)]: the leftmost match of
    [\b(19[89]\d|20\d{2})\b]; [prev] is the character before [s]. *)
Fixpoint search_any_year (prev : option ascii) (s : string) : option string :=
  match s with
  | EmptyString => None
  | String c rest =>
      match (if boundary prev (Some c) then year_here s else None) with
      | Some y => Some y
      | None => search_any_year (Some c) rest
      end
  end.

(** The literal [lit] followed by [\b] at the start of [s]; the last
    character matched is [last]. *)
Fixpoint literal_here (lit s : string) (last : option ascii) : bool :=
  match lit with
  | EmptyString => boundary last (head_char s)
  | String c lit' =>
      match s with
      | String c' s' => Ascii.eqb c c' && literal_here lit' s' (Some c)
      | EmptyString => false
      end
  end.

(** [re.compile(rf'\b{year}\b').search(s)] as a condition, for a target
    year made of letters and digits. *)
Fixpoint search_target_year (year : string) (prev : option ascii) (s : string) : bool :=
  (boundary prev (head_char s) && literal_here year s prev)
  || match s with
     | EmptyString => false
     | String c rest => search_target_year year (Some c) rest
     end.

(** Lines 302-306: the first target year found in the text or the href. *)
Fixpoint find_target_year (link_text normalized_href : string)
    (target_years : list string) : option string :=
  match target_years with
  | [] => None
  | target_year_str :: rest =>
      if search_target_year target_year_str None link_text
         || search_target_year target_year_str None normalized_href
      then Some target_year_str
      else find_target_year link_text normalized_href rest
  end.

(** Lines 310-314: what the "any recent year" test adds to the score. *)
Definition recent_year_bonus (link_text normalized_href : string)
    (target_years : list string) : result Z :=
  let match_ :=
    match search_any_year None link_text with
    | Some m => Some m
    | None => search_any_year None normalized_href
    end in
  match match_ with
  | Some year_found_general =>
      y <- int_of_str year_found_general ;;
      first <- match target_years with
               | t :: _ => ret t
               | [] => raise IndexError
               end ;;
      t <- int_of_str first ;;
      ret (if y >=? t - 5 then 2 else 0)
  | None => ret 0
  end.

(** Lines 298-315: [score] and [year_found] after the two year tests. *)
Definition year_score (link_text normalized_href : string)
    (target_years : list string) : result (Z * option string) :=
  let year_found := find_target_year link_text normalized_href target_years in
  let score := match year_found with Some _ => 0 + 5 | None => 0 end in
  if truthy_opt_str year_found then ret (score, year_found)
  else
    bonus <- recent_year_bonus link_text normalized_href target_years ;;
    ret (score + bonus, year_found).

(** Every year the text holds, left to right: all the places where
    [\\b(19[89]\\d|20\\d{2})\\b] matches. *)
Fixpoint years_in (prev : option ascii) (s : string) : list string :=
  match s with
  | EmptyString => []
  | String c rest =>
      match (if boundary prev (Some c) then year_here s else None) with
      | Some y => y :: years_in (Some c) rest
      | None => years_in (Some c) rest
      end
  end.

(** The claim about the bonus, in its words: without a target year, 2 is
    added exactly when the text or the href holds a year between the
    first target year minus 5 and the current year. *)
Definition year_bonus_claim (current_year : Z) : Prop :=
  forall text href : string,
    find_target_year text href TARGET_YEARS = None ->
    (recent_year_bonus text href TARGET_YEARS = ret 2 <->
     exists s y, In s (years_in None text ++ years_in None href)
                 /\ int_of_str s = ret y
                 /\ 2024 - 5 <= y <= current_year).

End Scraper.

(* ================================================================== *)
(** ** Vocabulary of the further facts *)
(* ================================================================== *)

(* ================================================================== *)
(** ** Operations on text

    Strings are sequences of bytes.  On ASCII text [lower], [is_alnum]
    and the lengths are those of Python; the keywords of other scripts
    are kept as their UTF-8 bytes, where containment and suffix tests
    agree with those on code points. *)
(* ================================================================== *)

Module Text.

(** [s.lower()] on ASCII text. *)
Definition lower_char (c : ascii) : ascii :=
  let n := nat_of_ascii c in
  if ((65 <=? n) && (n <=? 90))%nat then ascii_of_nat (n + 32) else c.

Fixpoint lower (s : string) : string :=
  match s with
  | EmptyString => EmptyString
  | String c rest => String (lower_char c) (lower rest)
  end.

(** [s.replace(c, '')] for a single character [c]. *)
Fixpoint remove_char (c : ascii) (s : string) : string :=
  match s with
  | EmptyString => EmptyString
  | String c' rest =>
      if Ascii.eqb c' c then remove_char c rest else String c' (remove_char c rest)
  end.

(** [s.replace(c, by)] for single characters. *)
Fixpoint replace_char (c by_ : ascii) (s : string) : string :=
  match s with
  | EmptyString => EmptyString
  | String c' rest =>
      String (if Ascii.eqb c' c then by_ else c') (replace_char c by_ rest)
  end.

(** [s.startswith(p)] *)
Definition starts_with (p s : string) : bool := String.prefix p s.

(** [needle in haystack] *)
Fixpoint contains (needle haystack : string) : bool :=
  String.prefix needle haystack
  || match haystack with
     | EmptyString => false
     | String _ rest => contains needle rest
     end.

(** [s.endswith(suffix)] *)
Fixpoint ends_with (suffix s : string) : bool :=
  (s =? suffix)%string
  || match s with
     | EmptyString => false
     | String _ rest => ends_with suffix rest
     end.

(** [s.replace(pat, '')] for a non-empty [pat]: the occurrences are
    taken from the left and do not overlap.  [skip] characters of an
    occurrence are still to be dropped. *)
Fixpoint drop_sub (pat : string) (skip : nat) (s : string) : string :=
  match s with
  | EmptyString => EmptyString
  | String c rest =>
      match skip with
      | S k => drop_sub pat k rest
      | O =>
          if String.prefix pat s
          then drop_sub pat (String.length pat - 1) rest
          else String c (drop_sub pat 0 rest)
      end
  end.

Definition remove_sub (pat s : string) : string := drop_sub pat 0 s.

(** [s.split(' ')[0]] *)
Fixpoint first_word (s : string) : string :=
  match s with
  | EmptyString => EmptyString
  | String c rest => if Ascii.eqb c " " then EmptyString else String c (first_word rest)
  end.

(** [str.isalnum] on an ASCII character. *)
Definition is_alnum (c : ascii) : bool :=
  let n := nat_of_ascii c in
  (((48 <=? n) && (n <=? 57)) || ((65 <=? n) && (n <=? 90))
   || ((97 <=? n) && (n <=? 122)))%nat.

(** [for link in links: urls.add(link)] and [urls.update(links)]. *)
Definition add_all (links : list string) (urls : set string) : set string :=
  fold_left (fun acc link => set_add string_dec link acc) links urls.

(** [''.join(filter(f, s))] *)
Fixpoint filter_string (f : ascii -> bool) (s : string) : string :=
  match s with
  | EmptyString => EmptyString
  | String c rest =>
      if f c then String c (filter_string f rest) else filter_string f rest
  end.

End Text.

(* ================================================================== *)
(** ** scraper.py: the score of a link (lines 252-347) *)
(* ================================================================== *)

Module Links.
Import Py Text Scraper.

(** Lines 252-263. *)
Definition report_keywords : list string :=
  [ "annual report"; "financial report"; "form 10-k"; "10-k"; "20-f"; "sec filing";
    "financial results"; "financial statements"; "shareholder report"; "annual accounts";
    "consolidated financial"; "statutory accounts"; "jahresbericht"; "geschäftsbericht";
    "finanzbericht"; "rapport annuel"; "états financiers"; "Ετήσια Αναφορά";
    "Οικονομική Αναφορά"; "Έντυπο 10-K"; "10-K"; "20-F"; "Κατάθεση SEC";
    "Οικονομικά Αποτελέσματα"; "Οικονομικές Καταστάσεις"; "Αναφορά Μετόχων";
    "Ετήσιοι Λογαριασμοί"; "Ενοποιημένες Οικονομικές"; "Νομικοί Λογαριασμοί" ].

(** Lines 265-266. *)
Definition secondary_keywords : list string :=
  [ "results"; "report"; "filing"; "financials"; "accounts"; "Αποτελέσματα"; "Αναφορά";
    "Κατάθεση"; "Οικονομικά"; "Λογαριασμοί" ].

(** Lines 268-274.  The last two literals of the source have no comma between
    them, so they are one keyword. *)
Definition avoid_keywords : list string :=
  [ "quarterly"; "q1"; "q2"; "q3"; "q4"; "interim"; "half-year"; "halbjahres";
    "semi-annual"; "quartalsbericht"; "presentation"; "earnings call"; "webcast";
    "investor day"; "fact sheet"; "summary"; "Τριμηνιαίο"; "Ενδιάμεσο"; "Εξαμηνιαίο";
    "Τριμηνιαία Έκθεση"; "Παρουσίαση"; "Τηλεδιάσκεψη Αποτελεσμάτων"; "Ημερίδα Επενδυτών";
    "Ενημερωτικό Δελτίο"; "Δελτίο ΓεγονότωνΠερίληψη" ].

(** Lines 318-321: a primary keyword in the text, or without its spaces
    in the href. *)
Definition has_report_keyword (link_text normalized_href : string) : bool :=
  existsb (fun rk => contains rk link_text
                     || contains (remove_char " " rk) normalized_href)
          report_keywords.

(** Lines 329-332: a secondary keyword in the text or the href. *)
Definition has_secondary_keyword (link_text normalized_href : string) : bool :=
  existsb (fun sk => contains sk link_text || contains sk normalized_href)
          secondary_keywords.

(** Lines 336-337: an avoid keyword in the text or the href. *)
Definition has_avoid_keyword (link_text normalized_href : string) : bool :=
  existsb (fun ak => contains ak link_text || contains ak normalized_href)
          avoid_keywords.

(** Lines 324 and 347. *)
Definition is_pdf (normalized_href : string) : bool := ends_with ".pdf" normalized_href.

(** Lines 298-343: [score] and [year_found] of a link with the lowered
    text [link_text] and the lowered href [normalized_href]. *)
Definition link_score (link_text normalized_href : string)
    (target_years : list string) : result (Z * option string) :=
  let year_found := find_target_year link_text normalized_href target_years in
  let score := match year_found with Some _ => 0 + 5 | None => 0 end in
  bonus <- (if negb (truthy_opt_str year_found)
            then recent_year_bonus link_text normalized_href target_years
            else ret 0) ;;
  let score := score + bonus in
  let score := if has_report_keyword link_text normalized_href then score + 3 else score in
  let score := if is_pdf normalized_href then score + 4 else score in
  let score :=
    if score <? 5
    then (if has_secondary_keyword link_text normalized_href then score + 1 else score)
    else score in
  let score :=
    if has_avoid_keyword link_text normalized_href
    then (if score >? 5 then score - 1 else score - 3)
    else score in
  ret (score, year_found).

(** Line 347: the decision. *)
Definition is_candidate (link_text normalized_href : string)
    (target_years : list string) : result bool :=
  r <- link_score link_text normalized_href target_years ;;
  ret ((fst r >=? 4)
       || (is_pdf normalized_href && truthy_opt_str (snd r) && (fst r >=? 2))).

End Links.

(* ================================================================== *)
(** ** scraper.py: finding the website and its pages *)
(* ================================================================== *)

Module Site.
Import Py Text Scraper Links Main.

(** [config.SEARCH_RESULTS_TO_CHECK] *)
Definition SEARCH_RESULTS_TO_CHECK : nat := 5.

(** What [service.cse().list(...).execute()] does: it raises, or it
    returns a response whose items carry a [link] each, or none ([None]).
    A response without the key [items] is one with no items. *)
Inductive search_reply : Type :=
| SearchRaises
| SearchReturns (items : list (option string)).

(** An entry of [candidate_urls] (its title is only logged). *)
Record SiteCandidate : Type := mkSiteCandidate {
  site_url : string;
  site_score : Z
}.

(** Lines 76-80: how well a domain matches. *)
Definition domain_score (company_name_simplified domain : string) : Z :=
  let score := 0 in
  let score := if contains company_name_simplified domain then score + 2 else score in
  if contains "investor" domain || contains "ir" domain then score + 1 else score.

(** An anchor of a page that has an [href]: its text as
    [get_text(strip=True)] gives it, and the [href]. *)
Record Anchor : Type := mkAnchor {
  anchor_text : string;
  anchor_href : string
}.

(** An entry of [candidate_links]. *)
Record Candidate : Type := mkCandidate {
  cand_url : string;
  cand_text : string;
  priority : nat;
  text_match_bonus : Z
}.

(** Lines 194 and 284: links that are skipped at once. *)
Definition skipped_href (href : string) : bool :=
  (href =? "")%string || starts_with "mailto:" href
  || starts_with "javascript:" href || starts_with "#" href.

(** Lines 204-208: [href_match] for a keyword. *)
Definition href_match (keyword normalized_href : string) : bool :=
  contains ("/" ++ remove_char " " keyword ++ "/")%string normalized_href
  || contains ("/" ++ replace_char " " "-" keyword ++ "/")%string normalized_href
  || ends_with (remove_char " " keyword) normalized_href
  || ends_with (replace_char " " "-" keyword) normalized_href
  || contains (remove_char " " keyword ++ ".")%string normalized_href.

(** Lines 217-218. *)
Definition document_extensions : list string :=
  [".pdf"; ".xls"; ".xlsx"; ".doc"; ".docx"; ".zip"; ".jpg"; ".png"].

(** Key of line 232: [(priority, -text_match_bonus, len(text))]. *)
Definition candidate_key (c : Candidate) : Z * Z * Z :=
  (Z.of_nat (priority c), - text_match_bonus c, Z.of_nat (String.length (cand_text c))).

(** Tuple comparison: the first components that differ decide. *)
Definition triple_lt (a b : Z * Z * Z) : bool :=
  let '(a1, a2, a3) := a in
  let '(b1, b2, b3) := b in
  if a1 =? b1 then (if a2 =? b2 then a3 <? b3 else a2 <? b2) else a1 <? b1.

(** [l.sort(key=...)]: ascending and stable. *)
Definition sort_asc {A : Type} (key_lt : A -> A -> bool) (l : list A) : list A :=
  sort_desc (fun x y => key_lt y x) l.

(** Line 291: the words that let a link off the site through. *)
Definition filing_sites : list string := ["sec.gov"; "sedar.com"; "filing"; "document"].

(** Line 355. *)
Definition listing_terms : list string :=
  ["/reports"; "/financials"; "/downloads"; "/archive"; "/filings"].

(** Lines 396-398. *)
Definition ir_keywords : list string :=
  [ "investor relations"; "investors"; "für investoren"; "investisseur";
    "shareholder information"; "Επενδυτικές Σχέσεις"; "Επενδυτές"; "Για Επενδυτές";
    "Επενδυτής"; "Πληροφορίες Μετόχων" ].

(** Lines 399-405. *)
Definition reports_keywords : list string :=
  [ "financial reports"; "financial results"; "annual reports"; "sec filings"; "reports";
    "publications"; "financial statements"; "berichte"; "rapports financiers";
    "downloads"; "archive"; "Οικονομικές Αναφορές"; "Οικονομικά Αποτελέσματα";
    "Ετήσιες Αναφορές"; "Καταθέσεις"; "Ρυθμιστικές Αρχές"; "Καταθέσεις SEC"; "Αναφορές";
    "Εκδόσεις"; "Οικονομικές Καταστάσεις"; "Λήψεις"; "Αρχείο" ].

Section Web.
(** [urljoin] and [urlparse(...).netloc] of [urllib.parse], taken as
    functions that return. *)
Variable urljoin : string -> string -> string.
Variable netloc : string -> string.

(** Lines 49-98: [search_google_for_website], given what the search
    call does.  Every exception ends in [None]. *)
Definition search_google_for_website (res : search_reply) (company_name : string)
  : option string :=
  match res with
  | SearchRaises => None
  | SearchReturns [] => None
  | SearchReturns items =>
      let company_name_simplified :=
        filter_string is_alnum (first_word (lower company_name)) in
      let candidate_urls :=
        flat_map
          (fun link =>
             match link with
             | Some url =>
                 if (url =? "")%string then []
                 else
                   let domain := remove_sub "www." (lower (netloc url)) in
                   [mkSiteCandidate url (domain_score company_name_simplified domain)]
             | None => []
             end)
          (firstn SEARCH_RESULTS_TO_CHECK items) in
      match sort_desc (fun a b => site_score a <? site_score b) candidate_urls with
      | [] => None
      | best :: _ => Some (site_url best)
      end
  end.

(** Lines 216 and 289: the host of [url] ends with the host of
    [base_url] without its [www.]. *)
Definition same_site (base_url url : string) : bool :=
  ends_with (remove_sub "www." (netloc base_url)) (netloc url).

(** Lines 202-210: [text_match or href_match] for a keyword. *)
Definition keyword_matches (link_tag : Anchor) (keyword : string) : bool :=
  contains keyword (lower (anchor_text link_tag))
  || href_match keyword (lower (anchor_href link_tag)).

(** Lines 211-218: the link stays on the site and is no document. *)
Definition page_like (base_url : string) (link_tag : Anchor) : bool :=
  let potential_url := urljoin base_url (anchor_href link_tag) in
  same_site base_url potential_url
  && negb (existsb (fun ext => ends_with ext (lower potential_url)) document_extensions).

(** Lines 198-227: the keywords are tried in order from number [i] on;
    the first that matches a link which passes the two tests gives the
    entry. *)
Fixpoint first_candidate (base_url : string) (link_tag : Anchor) (i : nat)
    (page_keywords : list string) : option Candidate :=
  match page_keywords with
  | [] => None
  | keyword :: rest =>
      if keyword_matches link_tag keyword then
        if page_like base_url link_tag
        then Some (mkCandidate (urljoin base_url (anchor_href link_tag))
                               (anchor_text link_tag) i
                               (if contains keyword (lower (anchor_text link_tag))
                                then 2 else 0))
        else first_candidate base_url link_tag (S i) rest
      else first_candidate base_url link_tag (S i) rest
  end.

(** Lines 187-227: [candidate_links] after the loop over the anchors. *)
Definition candidate_links (base_url : string) (soup : list Anchor)
    (page_keywords : list string) : list Candidate :=
  flat_map
    (fun link_tag =>
       if skipped_href (anchor_href link_tag) then []
       else match first_candidate base_url link_tag 0 page_keywords with
            | Some c => [c]
            | None => []
            end)
    soup.

(** Lines 180-236: [find_navigation_page_url]. *)
Definition find_navigation_page_url (base_url : string) (soup : list Anchor)
    (page_keywords : list string) : option string :=
  match sort_asc (fun a b => triple_lt (candidate_key a) (candidate_key b))
                 (candidate_links base_url soup page_keywords) with
  | [] => None
  | selected :: _ => Some (cand_url selected)
  end.

(** Lines 280-349: what one anchor adds to [found_urls]. *)
Definition report_link (page_url base_url : string) (target_years : list string)
    (link_tag : Anchor) : result (option string) :=
  let link_text := lower (anchor_text link_tag) in
  let original_href := anchor_href link_tag in
  if skipped_href original_href then ret None
  else
    let full_url := urljoin page_url original_href in
    if negb (same_site base_url full_url)
       && negb (existsb (fun kw => contains kw (lower full_url)) filing_sites)
    then ret None
    else
      let normalized_href := lower original_href in
      kept <- is_candidate link_text normalized_href target_years ;;
      ret (if kept then Some full_url else None).

(** Lines 280-349: the loop over the anchors. *)
Fixpoint report_links (page_url base_url : string) (target_years : list string)
    (soup : list Anchor) (found_urls : set string) : result (set string) :=
  match soup with
  | [] => ret found_urls
  | link_tag :: rest =>
      r <- report_link page_url base_url target_years link_tag ;;
      report_links page_url base_url target_years rest
                   match r with
                   | Some full_url => set_add string_dec full_url found_urls
                   | None => found_urls
                   end
  end.

(** Lines 356-362: the broad scan for PDF links. *)
Definition fallback_links (page_url base_url : string) (soup : list Anchor)
  : set string :=
  fold_left
    (fun found_urls link_tag =>
       let original_href := anchor_href link_tag in
       if negb (original_href =? "")%string && ends_with ".pdf" (lower original_href)
       then
         let full_url := urljoin page_url original_href in
         if same_site base_url full_url
         then set_add string_dec full_url found_urls
         else found_urls
       else found_urls)
    soup (empty_set string).

(** Lines 239-365: [extract_report_urls_from_page], given what
    [get_page_soup_with_selenium] returned for the page. *)
Definition extract_report_urls_from_page (soup : option (list Anchor))
    (page_url base_url : string) (target_years : list string) : result (set string) :=
  match soup with
  | None => ret (empty_set string)
  | Some soup =>
      found_urls <- report_links page_url base_url target_years soup (empty_set string) ;;
      ret (match found_urls with
           | [] =>
               if existsb (fun term => contains term (lower page_url)) listing_terms
               then fallback_links page_url base_url soup
               else found_urls
           | _ => found_urls
           end)
  end.
(** What the world gives to [scrape_company_website_for_report_urls]:
    what the search for the website of a company does, what
    [get_page_soup_with_selenium] returns for a URL at its [n]-th call
    ([None] when the page could not be loaded), and the order in which a
    set of pages is enumerated. *)
Variable website_search : string -> search_reply.
Variable get_page_soup_with_selenium : nat -> string -> option (list Anchor).
Variable pages_order : set string -> list string.

(** [if url:] for the result of a function that returns a URL or [None]. *)
Definition url_if_any (url : option string) : option string :=
  match url with
  | Some u => if (u =? "")%string then None else Some u
  | None => None
  end.

(** Lines 433-436: the loop over [pages_to_scan]; [fetches] pages were
    loaded before. *)
Fixpoint scan_pages (base_url : string) (target_years : list string)
    (pages_to_scan : list string) (fetches : nat)
    (all_potential_report_urls : set string) : result (set string) :=
  match pages_to_scan with
  | [] => ret all_potential_report_urls
  | page_to_scan_url :: rest =>
      urls_from_page <-
        extract_report_urls_from_page
          (get_page_soup_with_selenium fetches page_to_scan_url)
          page_to_scan_url base_url target_years ;;
      scan_pages base_url target_years rest (S fetches)
                 (add_all urls_from_page all_potential_report_urls)
  end.

(** Lines 407-428: [pages_to_scan], and how many pages were loaded to
    find them, the homepage included. *)
Definition pages_to_scan (base_url : string) (homepage_soup : list Anchor)
  : set string * nat :=
  let pages := set_add string_dec base_url (empty_set string) in
  let ir_page_url :=
    url_if_any (find_navigation_page_url base_url homepage_soup ir_keywords) in
  let pages :=
    match ir_page_url with
    | Some u => set_add string_dec u pages
    | None => pages
    end in
  let '(soup_to_search_reports_nav, base_for_reports_nav, fetches) :=
    match ir_page_url with
    | Some u =>
        match get_page_soup_with_selenium 1 u with
        | Some ir_page_soup => (ir_page_soup, u, 2%nat)
        | None => (homepage_soup, base_url, 2%nat)
        end
    | None => (homepage_soup, base_url, 1%nat)
    end in
  let reports_page_url :=
    url_if_any (find_navigation_page_url base_for_reports_nav soup_to_search_reports_nav
                                         reports_keywords) in
  (match reports_page_url with
   | Some u => set_add string_dec u pages
   | None => pages
   end, fetches).

(** Lines 368-440: [scrape_company_website_for_report_urls]. *)
Definition scrape_company_website_for_report_urls (company_name : string)
    (target_years : list string) : result (set string) :=
  match url_if_any (search_google_for_website (website_search company_name)
                                              company_name) with
  | None => ret (empty_set string)
  | Some base_url =>
      let all_potential_report_urls :=
        set_add string_dec base_url (empty_set string) in
      match get_page_soup_with_selenium 0 base_url with
      | None => ret all_potential_report_urls
      | Some homepage_soup =>
          let '(pages, fetches) := pages_to_scan base_url homepage_soup in
          scan_pages base_url target_years (pages_order pages) fetches
                     all_potential_report_urls
      end
  end.
End Web.

End Site.

(* ================================================================== *)
(** ** main.py: the loop over the companies (lines 350-493) *)
(* ================================================================== *)

Module MainLoop.
Import Py Main Text.

(** A row of [discovery.csv] as [csv.DictReader] yields it; the loop
    reads its [ID] and [NAME]. *)
Record InputRow : Type := mkInputRow {
  row_ID : string;
  row_NAME : string
}.

(** A value of [company_data]. *)
Record CompanyEntry : Type := mkCompanyEntry {
  entry_NAME : string;
  original_rows : list InputRow
}.

(** Lines 359-363: one turn of the reading loop.  A dictionary keeps
    its keys in the order of their first insertion. *)
Fixpoint add_row (company_data : list (string * CompanyEntry)) (row : InputRow)
  : list (string * CompanyEntry) :=
  match company_data with
  | [] => [(row_ID row, mkCompanyEntry (row_NAME row) [row])]
  | (company_id, data) :: rest =>
      if (company_id =? row_ID row)%string
      then (company_id,
            mkCompanyEntry (entry_NAME data) (original_rows data ++ [row])%list) :: rest
      else (company_id, data) :: add_row rest row
  end.

(** Lines 355-363: [company_data] after the file is read. *)
Definition company_data (rows : list InputRow) : list (string * CompanyEntry) :=
  fold_left add_row rows [].

(** The double quote. *)
Definition dquote : string := String (ascii_of_nat 34) EmptyString.

(** Lines 382-392: [search_queries]. *)
Definition search_queries (company_name : string) : list string :=
  let quoted := (dquote ++ company_name ++ dquote)%string in
  [ (quoted ++ " annual consolidated financial statements report results FY "
       ++ dquote ++ "2024" ++ dquote ++ " filetype:pdf")%string;
    (quoted ++ " annual consolidated financial statements report results FY "
       ++ dquote ++ "2023" ++ dquote ++ " filetype:pdf")%string;
    (quoted ++ " investor relations financial reports")%string;
    (quoted ++ " sustainability report OR ESG report OR Environmental report OR Corporate report OR Responsibility report filetype:pdf")%string;
    (quoted ++ " financial highlights OR key figures")%string;
    ("site:*." ++ remove_char "." (remove_char " " (lower company_name))
       ++ ".com investor OR financial OR report OR results OR Download filetype:pdf")%string;
    (quoted ++ " " ++ dquote ++ "annual report" ++ dquote ++ " OR "
       ++ dquote ++ "financial results" ++ dquote ++ " 2023 OR 2024")%string ].

Section Run.
(** What the world gives: the links [search_google_for_links] returns
    for a query of a company (it catches every exception itself), the
    URLs [scrape_company_website_for_report_urls] returns for a company
    ([None] when it raises), the order in which [list(...)] enumerates a
    set, and the classification of the URLs handed over in a run in which
    it returns. *)
Variable search_google_for_links : string -> nat -> string -> list string.
Variable scrape_company_website_for_report_urls : string -> string -> option (list string).
Variable listing : set string -> list string.
Variable analyzed : list string -> list Doc.

(** Lines 380-428: [all_discovered_urls_for_company] before the test of
    line 430. *)
Definition all_discovered_urls_for_company (company_id company_name : string)
  : set string :=
  let after_searches :=
    fold_left
      (fun acc q => add_all (search_google_for_links company_id (fst q) (snd q)) acc)
      (combine (seq 0 7) (search_queries company_name))
      (empty_set string) in
  match scrape_company_website_for_report_urls company_id company_name with
  | Some urls_from_website => add_all urls_from_website after_searches
  | None => after_searches
  end.

(** Lines 377-487: the rows written in one turn of the loop. *)
Definition rows_of_company (company_id : string) (data : CompanyEntry) : list Row :=
  let company_name := entry_NAME data in
  match all_discovered_urls_for_company company_id company_name with
  | [] => empty_rows company_id company_name
  | urls =>
      output_csv_rows company_id company_name
                      (process_company_urls analyzed (listing urls))
  end.

(** What [process_company_urls] makes of a list of URLs before the
    selection: the classified documents, or the exception that leaves it.
    Lines 181, 186, 220 and 242 raise outside any [try], and line 448
    calls [process_company_urls] outside any [try] as well. *)
Variable classify : list string -> result (list Doc).

(** Line 448: [process_company_urls(list(...))], which may raise. *)
Definition process_company_urls_run (all_urls_for_company : list string)
  : result (option Doc * list Doc) :=
  docs <- classify all_urls_for_company ;; ret (select_documents docs).

(** Lines 377-487: one turn of the loop: the rows written, or the
    exception that leaves [main] before any row of the company is
    written. *)
Definition rows_of_company_run (company_id : string) (data : CompanyEntry)
  : result (list Row) :=
  let company_name := entry_NAME data in
  match all_discovered_urls_for_company company_id company_name with
  | [] => ret (empty_rows company_id company_name)
  | urls =>
      r <- process_company_urls_run (listing urls) ;;
      ret (output_csv_rows company_id company_name r)
  end.

(** Lines 376-487: the loop over [company_data.items()]: the rows
    written, and the exception that ended the loop, if any. *)
Fixpoint write_companies (entries : list (string * CompanyEntry))
  : list Row * option exn :=
  match entries with
  | [] => ([], None)
  | entry :: rest =>
      match rows_of_company_run (fst entry) (snd entry) with
      | inl e => ([], Some e)
      | inr rows =>
          let '(more, e) := write_companies rest in ((rows ++ more)%list, e)
      end
  end.

(** [main()]: the rows written after the header and the exception that
    ended the run, if any; [None] when the browser could not be started
    and the output file is not opened. *)
Definition main (selenium_driver : bool) (rows : list InputRow)
  : option (list Row * option exn) :=
  if selenium_driver then Some (write_companies (company_data rows)) else None.
End Run.

End MainLoop.

Module More.
Import Py Main.

(** [a] is a copy of [d]: the keys the classification wrote are the same;
    score, category and output type may differ. *)
Definition copy_of (a d : Doc) : Prop :=
  url a = url d
  /\ error a = error d
  /\ content_type a = content_type d
  /\ ref_year_int a = ref_year_int d
  /\ llm_ref_year_str a = llm_ref_year_str d
  /\ is_direct_file_link a = is_direct_file_link d
  /\ data_points_present a = data_points_present d.

(** The URLs a selection puts out. *)
Definition output_urls (result : option Doc * list Doc) : list string :=
  map url (chosen_list (fst result) ++ snd result).

(** [seen] holds the URLs recorded at the start and those of the
    alternates held, and no other. *)
Definition seen_exact (seen0 : set string) (final : list Doc) (seen : set string) : Prop :=
  forall u, In u seen <-> In u seen0 \/ In u (map url final).

(** The test of line 170 on what [fetch_content_snippet] returned. *)
Definition fetch_failed (w : World) (url : string) : bool :=
  let '(title, _) := fetch w url in
  (title =? "Fetch Error")%string || (title =? "Processing Error")%string.

(** *** Where bytes and code points agree

    The embedding reads a string as its bytes; [int], [lower], [isalnum],
    [len] and the regular expressions of the code work on code points, and
    [int] refuses more than 4300 digits.  On the texts described below the
    embedded operations are those of the interpreter. *)

(** [ref_year], when the answer gives it as a string, is ASCII text of at
    most 4300 characters. *)
Definition short_ascii_year (doc_info : dict) : bool :=
  match dict_get doc_info "ref_year" with
  | Some (PStr s) => is_ascii s && (String.length s <=? 4300)%nat
  | _ => true
  end.

(** A target year of ASCII letters, digits and underscores: the pattern
    made of it (line 276) compiles and matches the year itself. *)
Definition plain_year (target_year_str : string) : bool :=
  forallb Scraper.is_word (list_ascii_of_string target_year_str).

Definition plain_years (target_years : list string) : bool :=
  forallb plain_year target_years.

(** The anchors of a page have ASCII text and an ASCII [href]. *)
Definition ascii_anchor (link_tag : Site.Anchor) : bool :=
  is_ascii (Site.anchor_text link_tag) && is_ascii (Site.anchor_href link_tag).

Definition ascii_page (soup : list Site.Anchor) : bool := forallb ascii_anchor soup.

(** [urljoin] and [urlparse(...).netloc] make ASCII addresses of ASCII
    addresses. *)
Definition ascii_urljoin (urljoin : string -> string -> string) : Prop :=
  forall base href,
    is_ascii base = true -> is_ascii href = true -> is_ascii (urljoin base href) = true.

Definition ascii_netloc (netloc : string -> string) : Prop :=
  forall url, is_ascii url = true -> is_ascii (netloc url) = true.

(** The links of the results that [search_google_for_website] looks at
    are ASCII. *)
Definition ascii_reply (res : Site.search_reply) : bool :=
  match res with
  | Site.SearchRaises => true
  | Site.SearchReturns items =>
      forallb (fun link => match link with
                           | Some url => is_ascii url
                           | None => true
                           end)
              (firstn Site.SEARCH_RESULTS_TO_CHECK items)
  end.

(** The name of the company, the answer of the search, the addresses and
    every page loaded are ASCII. *)
Definition ascii_web (urljoin : string -> string -> string) (netloc : string -> string)
    (website_search : string -> Site.search_reply)
    (get_page_soup_with_selenium : nat -> string -> option (list Site.Anchor))
    (company_name : string) : Prop :=
  is_ascii company_name = true
  /\ ascii_reply (website_search company_name) = true
  /\ ascii_urljoin urljoin
  /\ ascii_netloc netloc
  /\ forall n url soup,
       get_page_soup_with_selenium n url = Some soup -> ascii_page soup = true.

End More.

(* ================================================================== *)
(** ** Facts about the selection *)
(* ================================================================== *)

Import Py Main.

(** *** The year multiplier *)

(** Splits on every test of a year against a constant and turns the
    outcomes into linear facts. *)
Ltac year_cases :=
  repeat match goal with
         | |- context [ (?a >=? ?b) ] => destruct (Z.geb_spec a b)
         | |- context [ (?a =? ?b) ] => destruct (Z.eqb_spec a b)
         | H : context [ (?a >=? ?b) ] |- _ => destruct (Z.geb_spec a b)
         | H : context [ (?a =? ?b) ] |- _ => destruct (Z.eqb_spec a b)
         end.

Lemma year_multiplier_of_int (y : Z) :
  get_year_multiplier (PInt y) =
  if y >=? 2023 then 1.0%float
  else if y =? 2022 then 0.8%float
  else if y =? 2021 then 0.6%float
  else if y =? 2020 then 0.4%float
  else if y =? 2019 then 0.2%float
  else 0.0%float.
Proof.
  unfold get_year_multiplier; cbn [truthy isinstance_int int_value negb orb].
  destruct (Z.eqb_spec y 0) as [-> | _]; reflexivity.
Qed.

Lemma year_multiplier_monotone (y1 y2 : Z) :
  y2 <= y1 ->
  (get_year_multiplier (PInt y2) <=? get_year_multiplier (PInt y1))%float = true.
Proof.
  intros H. rewrite !year_multiplier_of_int.
  year_cases; subst; try lia; reflexivity.
Qed.

Lemma year_multiplier_not_int (v : pyval) :
  (forall y, v <> PInt y) -> get_year_multiplier v = 0.0%float.
Proof.
  intros H. destruct v as [ | [|] | z | f | s | l | kvs ]; try reflexivity.
  - exfalso; now apply (H z).
  - unfold get_year_multiplier; cbn. now rewrite orb_true_r.
  - unfold get_year_multiplier; cbn. now rewrite orb_true_r.
  - unfold get_year_multiplier; cbn. now rewrite orb_true_r.
  - unfold get_year_multiplier; cbn. now rewrite orb_true_r.
Qed.

(** C7.  [get_year_multiplier] does not grow as the year decreases, takes
    the values of the table (1.0 from 2023 on, then 0.8, 0.6, 0.4, 0.2 for
    2022 down to 2019), and is 0 for every year below 2019, for [None] and
    for every value that is not an integer. *)
Theorem year_multiplier_table :
  (forall y1 y2, y2 <= y1 ->
     (get_year_multiplier (PInt y2) <=? get_year_multiplier (PInt y1))%float = true)
  /\ (forall y, 2023 <= y -> get_year_multiplier (PInt y) = 1.0%float)
  /\ get_year_multiplier (PInt 2022) = 0.8%float
  /\ get_year_multiplier (PInt 2021) = 0.6%float
  /\ get_year_multiplier (PInt 2020) = 0.4%float
  /\ get_year_multiplier (PInt 2019) = 0.2%float
  /\ (forall y, y < 2019 -> get_year_multiplier (PInt y) = 0.0%float)
  /\ get_year_multiplier PNone = 0.0%float
  /\ (forall v, (forall y, v <> PInt y) -> get_year_multiplier v = 0.0%float).
Proof.
  repeat split; try reflexivity.
  - apply year_multiplier_monotone.
  - intros y H. rewrite year_multiplier_of_int. year_cases; try lia; reflexivity.
  - intros y H. rewrite year_multiplier_of_int. year_cases; try lia; reflexivity.
  - apply year_multiplier_not_int.
Qed.

(** C7, witness: 2021 against 2024, and a year before 2019. *)
Lemma year_multiplier_table_witness :
  (get_year_multiplier (PInt 2021) <=? get_year_multiplier (PInt 2024))%float = true
  /\ get_year_multiplier (PInt 2024) = 1.0%float
  /\ get_year_multiplier (PInt 2010) = 0.0%float
  /\ get_year_multiplier (PStr "2024") = 0.0%float.
Proof.
  destruct year_multiplier_table as (Hmono & Hnew & _ & _ & _ & _ & Hold & _ & Hother).
  split; [ apply Hmono; lia | ]. split; [ apply Hnew; lia | ].
  split; [ apply Hold; lia | apply Hother; discriminate ].
Defined.

(** *** The scoring loop and the sorts *)

Lemma score_documents_eq (docs : list Doc) :
  score_documents docs =
  (map score_document docs,
   filter is_fin_rep (map score_document docs),
   filter (fun d => negb (is_fin_rep d)) (map score_document docs)).
Proof.
  induction docs as [ | d docs IH ]; [ reflexivity | ].
  cbn [score_documents map filter]. rewrite IH. unfold is_fin_rep.
  destruct (category_eqb (selection_category (score_document d)) POTENTIAL_FIN_REP);
    reflexivity.
Qed.

Lemma analyzed_docs_eq docs : analyzed_docs docs = map score_document docs.
Proof. unfold analyzed_docs. now rewrite score_documents_eq. Qed.

Lemma unsorted_fin_reps_eq docs :
  unsorted_fin_reps docs = filter is_fin_rep (map score_document docs).
Proof. unfold unsorted_fin_reps. now rewrite score_documents_eq. Qed.

Lemma other_sources_eq docs :
  other_sources docs = filter (fun d => negb (is_fin_rep d)) (map score_document docs).
Proof. unfold other_sources. now rewrite score_documents_eq. Qed.

Section SortFacts.
Context {A : Type} (lt : A -> A -> bool).

Lemma insert_desc_perm (x : A) (l : list A) :
  Permutation (insert_desc lt x l) (x :: l).
Proof.
  induction l as [ | y l IH ]; cbn; [ reflexivity | ].
  destruct (lt x y); [ | reflexivity ].
  rewrite IH. apply perm_swap.
Qed.

Lemma sort_desc_perm (l : list A) : Permutation (sort_desc lt l) l.
Proof.
  induction l as [ | x l IH ]; cbn; [ reflexivity | ].
  rewrite insert_desc_perm. now constructor.
Qed.

Lemma sort_desc_In (l : list A) (x : A) : In x (sort_desc lt l) <-> In x l.
Proof.
  split; apply Permutation_in; [ | symmetry ]; apply sort_desc_perm.
Qed.
End SortFacts.

(** The result of [select_documents] in terms of the stages. *)
Lemma select_documents_eq (docs : list Doc) :
  select_documents docs =
  (chosen_fin_rep docs,
   fst (backfill (analyzed_docs docs) (fst (scored_alternates docs))
                 (snd (scored_alternates docs)))).
Proof.
  unfold select_documents, scored_alternates, all_potential_other_sources,
    unsorted_pool, initial_seen, chosen_fin_rep, sorted_fin_reps,
    unsorted_fin_reps, other_sources, analyzed_docs.
  destruct (score_documents docs) as [[analyzed fin] others]; cbn [fst snd].
  destruct (take_scored _ _ _) as [final seen]; cbn [fst snd].
  destruct (backfill _ _ _) as [final' seen']; reflexivity.
Qed.

(** *** The six rows *)

Lemma other_row_TYPE id name tops i : TYPE (other_row id name tops i) = "OTHER".
Proof. unfold other_row. destruct (nth_error tops i); reflexivity. Qed.

Lemma output_csv_rows_TYPE id name result :
  map TYPE (output_csv_rows id name result)
  = ["FIN_REP"; "OTHER"; "OTHER"; "OTHER"; "OTHER"; "OTHER"].
Proof.
  destruct result as [best tops]. cbn [output_csv_rows map seq].
  rewrite !other_row_TYPE. destruct best; reflexivity.
Qed.

(** The rows of a company in a run in which the classification
    returns: whatever the URLs found and whatever their classification,
    six rows, [FIN_REP] first and five [OTHER] after it, all with its ID
    and name; without any URL the six rows have empty [SRC] and
    [REFYEAR]. *)
Theorem six_rows_per_company :
  forall (analyzed : list string -> list Doc) (id name : string) (urls : list string),
    List.length (company_rows analyzed id name urls) = 6%nat
    /\ map TYPE (company_rows analyzed id name urls)
       = ["FIN_REP"; "OTHER"; "OTHER"; "OTHER"; "OTHER"; "OTHER"]
    /\ Forall (fun r => ID r = id /\ NAME r = name) (company_rows analyzed id name urls)
    /\ company_rows analyzed id name []
       = [mkRow id name "FIN_REP" "" ""; mkRow id name "OTHER" "" "";
          mkRow id name "OTHER" "" ""; mkRow id name "OTHER" "" "";
          mkRow id name "OTHER" "" ""; mkRow id name "OTHER" "" ""].
Proof.
  intros analyzed id name urls.
  assert (HT : map TYPE (company_rows analyzed id name urls)
               = ["FIN_REP"; "OTHER"; "OTHER"; "OTHER"; "OTHER"; "OTHER"]).
  { destruct urls; [ reflexivity | ]. apply output_csv_rows_TYPE. }
  repeat split.
  - rewrite <- (length_map TYPE), HT. reflexivity.
  - exact HT.
  - destruct urls as [ | u urls ].
    + cbn. repeat constructor.
    + cbn [company_rows].
      destruct (process_company_urls analyzed (u :: urls)) as [best tops].
      cbn [output_csv_rows]. constructor.
      * destruct best; cbn; auto.
      * apply Forall_forall. intros r Hr. apply in_map_iff in Hr.
        destruct Hr as [i [<- _]]. unfold other_row.
        destruct (nth_error tops i); cbn; auto.
Qed.

(** *** The two walks: no URL twice, at most five alternates *)

Lemma seen_mem_true u seen : seen_mem u seen = true <-> In u seen.
Proof.
  unfold seen_mem. split.
  - apply set_mem_correct1.
  - apply set_mem_correct2.
Qed.

Lemma seen_mem_false u seen : seen_mem u seen = false <-> ~ In u seen.
Proof.
  rewrite <- seen_mem_true. destruct (seen_mem u seen); split; congruence.
Qed.

Lemma seen_add_In u v seen : In u (seen_add v seen) <-> u = v \/ In u seen.
Proof.
  unfold seen_add. split.
  - apply set_add_elim.
  - apply set_add_intro.
Qed.

Lemma walk_inv_step seen0 final seen d :
  walk_inv seen0 final seen ->
  seen_mem (url d) seen = false ->
  walk_inv seen0 (final ++ [d]) (seen_add (url d) seen).
Proof.
  intros (Hnd & Hin & Hsub & Hdis) Hd. apply seen_mem_false in Hd.
  repeat split.
  - rewrite map_app. cbn [map]. apply NoDup_app.
    + exact Hnd.
    + constructor; [ intros [] | constructor ].
    + intros u Hu [<- | []]. apply in_map_iff in Hu.
      destruct Hu as [d' [Heq Hd']]. apply Hd. rewrite <- Heq. now apply Hin.
  - intros d' Hd'. apply seen_add_In. apply in_app_or in Hd'.
    destruct Hd' as [Hd' | [<- | []]]; [ right; now apply Hin | now left ].
  - intros u Hu. apply seen_add_In. right. now apply Hsub.
  - intros d' Hd'. apply in_app_or in Hd'.
    destruct Hd' as [Hd' | [<- | []]]; [ now apply Hdis | ].
    intros Hu. apply Hd. now apply Hsub.
Qed.

Lemma take_scored_inv seen0 pool : forall final seen,
  walk_inv seen0 final seen ->
  walk_inv seen0 (fst (take_scored pool final seen)) (snd (take_scored pool final seen)).
Proof.
  induction pool as [ | d pool IH ]; intros final seen Hinv; cbn [take_scored].
  - exact Hinv.
  - destruct (5 <=? List.length final)%nat; [ exact Hinv | ].
    destruct (seen_mem (url d) seen) eqn:Hmem; cbn [negb andb].
    + now apply IH.
    + destruct ((0 <? calculated_score d)%float || is_some (ref_year_int d)).
      * apply IH. now apply walk_inv_step.
      * now apply IH.
Qed.

Lemma take_fillers_inv seen0 fillers : forall final seen,
  walk_inv seen0 final seen ->
  walk_inv seen0 (fst (take_fillers fillers final seen))
           (snd (take_fillers fillers final seen)).
Proof.
  induction fillers as [ | d fillers IH ]; intros final seen Hinv; cbn [take_fillers].
  - exact Hinv.
  - destruct (5 <=? List.length final)%nat; [ exact Hinv | ].
    destruct (seen_mem (url d) seen) eqn:Hmem; cbn [negb].
    + now apply IH.
    + apply IH. now apply walk_inv_step.
Qed.

Lemma backfill_inv seen0 analyzed final seen :
  walk_inv seen0 final seen ->
  walk_inv seen0 (fst (backfill analyzed final seen)) (snd (backfill analyzed final seen)).
Proof.
  intros Hinv. unfold backfill.
  destruct (List.length final <? 5)%nat; [ now apply take_fillers_inv | exact Hinv ].
Qed.

Lemma take_scored_length pool : forall final seen,
  (List.length final <= 5)%nat ->
  (List.length (fst (take_scored pool final seen)) <= 5)%nat.
Proof.
  induction pool as [ | d pool IH ]; intros final seen Hlen; cbn [take_scored].
  - exact Hlen.
  - destruct (Nat.leb_spec 5 (List.length final)); [ exact Hlen | ].
    destruct (negb (seen_mem (url d) seen)
              && ((0 <? calculated_score d)%float || is_some (ref_year_int d))).
    + apply IH. rewrite length_app. cbn. lia.
    + now apply IH.
Qed.

Lemma take_fillers_length fillers : forall final seen,
  (List.length final <= 5)%nat ->
  (List.length (fst (take_fillers fillers final seen)) <= 5)%nat.
Proof.
  induction fillers as [ | d fillers IH ]; intros final seen Hlen; cbn [take_fillers].
  - exact Hlen.
  - destruct (Nat.leb_spec 5 (List.length final)); [ exact Hlen | ].
    destruct (negb (seen_mem (url d) seen)).
    + apply IH. rewrite length_app. cbn. lia.
    + now apply IH.
Qed.

Lemma alternates_length (docs : list Doc) :
  (List.length (snd (select_documents docs)) <= 5)%nat.
Proof.
  rewrite select_documents_eq. cbn [snd]. unfold backfill.
  assert (H : (List.length (fst (scored_alternates docs)) <= 5)%nat).
  { apply take_scored_length. cbn. lia. }
  destruct (List.length (fst (scored_alternates docs)) <? 5)%nat.
  - now apply take_fillers_length.
  - exact H.
Qed.

Lemma selection_inv (docs : list Doc) :
  walk_inv (initial_seen docs) (snd (select_documents docs))
           (snd (backfill (analyzed_docs docs) (fst (scored_alternates docs))
                          (snd (scored_alternates docs)))).
Proof.
  rewrite select_documents_eq. cbn [snd].
  apply backfill_inv. apply take_scored_inv.
  unfold walk_inv. cbn [map]. split; [ constructor | ].
  split; [ intros d [] | ]. split; [ auto | intros d [] ].
Qed.

Lemma selection_urls_NoDup (docs : list Doc) :
  NoDup (map url (chosen_list (fst (select_documents docs))
                  ++ snd (select_documents docs))).
Proof.
  destruct (selection_inv docs) as (Hnd & _ & _ & Hdis).
  rewrite select_documents_eq in *. cbn [fst snd] in *.
  unfold initial_seen in Hdis.
  destruct (chosen_fin_rep docs) as [c | ]; cbn [chosen_list app map].
  - constructor; [ | exact Hnd ].
    intros Hin. apply in_map_iff in Hin. destruct Hin as [d [Heq Hd]].
    apply (Hdis d Hd). apply seen_add_In. left. exact Heq.
  - exact Hnd.
Qed.

Lemma other_rows_SRC id name (tops : list Doc) :
  (List.length tops <= 5)%nat ->
  map SRC (map (other_row id name tops) (seq 0 5))
  = (map url tops ++ repeat "" (5 - List.length tops))%list.
Proof.
  intros H.
  destruct tops as [ | a [ | b [ | c [ | d [ | e [ | f tops ]]]]]];
    cbn in H; try lia; reflexivity.
Qed.

Lemma filter_nonempty_repeat n : filter nonempty (repeat "" n) = [].
Proof. induction n; cbn; auto. Qed.

Lemma rows_SRC_nonempty id name chosen tops :
  (List.length tops <= 5)%nat ->
  filter nonempty (map SRC (output_csv_rows id name (chosen, tops)))
  = filter nonempty (map url (chosen_list chosen ++ tops)).
Proof.
  intros H. cbn [output_csv_rows map]. rewrite other_rows_SRC by exact H.
  assert (Hrest : filter nonempty (map url tops ++ repeat "" (5 - List.length tops))
                  = filter nonempty (map url tops)).
  { now rewrite filter_app, filter_nonempty_repeat, app_nil_r. }
  destruct chosen as [c | ]; cbn [fin_rep_row SRC chosen_list app map filter].
  - now rewrite Hrest.
  - exact Hrest.
Qed.

(** C3.  No URL comes twice among the chosen report and the alternates,
    and so none comes twice among the rows written for a company (the
    empty [SRC] of an unfilled row is no URL). *)
Theorem no_url_twice :
  forall (analyzed : list string -> list Doc) (id name : string) (urls : list string),
    NoDup (map url (chosen_list (fst (process_company_urls analyzed urls))
                    ++ snd (process_company_urls analyzed urls)))
    /\ NoDup (filter nonempty (map SRC (company_rows analyzed id name urls))).
Proof.
  intros analyzed id name urls. unfold process_company_urls. split.
  - apply selection_urls_NoDup.
  - destruct urls as [ | u urls ]; [ cbn; constructor | ].
    cbn [company_rows]. unfold process_company_urls.
    destruct (select_documents (analyzed (u :: urls))) as [chosen tops] eqn:Hsel.
    rewrite rows_SRC_nonempty.
    + apply NoDup_filter.
      pose proof (selection_urls_NoDup (analyzed (u :: urls))) as H.
      now rewrite Hsel in H.
    + pose proof (alternates_length (analyzed (u :: urls))) as H.
      now rewrite Hsel in H.
Qed.

(** *** What the scoring loop does to one document *)

Lemma score_document_fields (d : Doc) :
  url (score_document d) = url d
  /\ error (score_document d) = error d
  /\ content_type (score_document d) = content_type d
  /\ ref_year_int (score_document d) = ref_year_int d
  /\ llm_ref_year_str (score_document d) = llm_ref_year_str d
  /\ is_direct_file_link (score_document d) = is_direct_file_link d
  /\ data_points_present (score_document d) = data_points_present d.
Proof.
  unfold score_document.
  repeat match goal with
         | |- context [ if ?b then _ else _ ] => destruct b
         end; repeat split.
Qed.

Lemma score_document_url d : url (score_document d) = url d.
Proof. apply score_document_fields. Qed.

Lemma score_document_year d : ref_year_int (score_document d) = ref_year_int d.
Proof. apply score_document_fields. Qed.

Lemma score_document_has_error d : has_error (score_document d) = has_error d.
Proof. unfold has_error. f_equal. apply score_document_fields. Qed.

Lemma is_fin_rep_score_document (d : Doc) :
  is_fin_rep (score_document d) = potential_fin_rep d.
Proof.
  unfold is_fin_rep, potential_fin_rep, score_document.
  destruct (has_error d); [ reflexivity | ].
  destruct (opt_str_is (content_type d) "ANNUAL_FINANCIAL_REPORT_DOCUMENT") eqn:Hct;
    destruct (opt_str_is (is_direct_file_link d) "YES");
    destruct (is_some (ref_year_int d));
    destruct (opt_str_is (content_type d) "FINANCIAL_DATA_PAGE");
    reflexivity.
Qed.

Lemma fin_rep_score (d : Doc) :
  potential_fin_rep d = true ->
  exists y, ref_year_int d = Some y
            /\ calculated_score (score_document d)
               = (1.0 * get_year_multiplier (PInt y))%float.
Proof.
  unfold potential_fin_rep, score_document. intros H.
  apply andb_prop in H; destruct H as [H Hy].
  apply andb_prop in H; destruct H as [H Hd].
  apply andb_prop in H; destruct H as [He Hc].
  apply negb_true_iff in He. rewrite He, Hc, Hd, Hy.
  destruct (ref_year_int d) as [y | ]; [ | discriminate ].
  exists y. split; reflexivity.
Qed.

Lemma unsorted_fin_reps_In (docs : list Doc) (x : Doc) :
  In x (unsorted_fin_reps docs) <->
  exists d, In d docs /\ potential_fin_rep d = true /\ x = score_document d.
Proof.
  rewrite unsorted_fin_reps_eq, filter_In, in_map_iff. split.
  - intros [[d [<- Hd]] Hfin]. exists d. rewrite is_fin_rep_score_document in Hfin. auto.
  - intros [d [Hd [Hp ->]]]. split; [ exists d; auto | ].
    now rewrite is_fin_rep_score_document.
Qed.

Lemma sorted_fin_reps_In (docs : list Doc) (x : Doc) :
  In x (sorted_fin_reps docs) <->
  exists d, In d docs /\ potential_fin_rep d = true /\ x = score_document d.
Proof.
  unfold sorted_fin_reps. rewrite sort_desc_In. apply unsorted_fin_reps_In.
Qed.

Lemma positive_report_score (y : Z) :
  (0 <? 1.0 * get_year_multiplier (PInt y))%float = true <-> 2019 <= y.
Proof.
  rewrite year_multiplier_of_int. split.
  - year_cases; subst; try lia; intros Hpos; vm_compute in Hpos; discriminate.
  - intros Hge. year_cases; subst; try lia; reflexivity.
Qed.

(** The chosen report is the head of the sorted reports, marked
    [FIN_REP], and its score is positive. *)
Lemma chosen_fin_rep_Some (docs : list Doc) (p : Doc) :
  chosen_fin_rep docs = Some p <->
  exists top rest, sorted_fin_reps docs = top :: rest
                   /\ (0 <? calculated_score top)%float = true
                   /\ p = set_final_type top FIN_REP.
Proof.
  unfold chosen_fin_rep, choose_fin_rep.
  destruct (sorted_fin_reps docs) as [ | top rest ].
  - split; [ discriminate | intros (t & r & H & _); discriminate ].
  - destruct (0 <? calculated_score top)%float eqn:Hs; split.
    + intros [= <-]. now exists top, rest.
    + intros (t & r & [= <- <-] & _ & ->). reflexivity.
    + discriminate.
    + intros (t & r & [= <- <-] & Hpos & _). congruence.
Qed.

Lemma chosen_fin_rep_origin (docs : list Doc) (p : Doc) :
  chosen_fin_rep docs = Some p ->
  exists d y, In d docs /\ potential_fin_rep d = true
              /\ p = set_final_type (score_document d) FIN_REP
              /\ ref_year_int d = Some y
              /\ calculated_score p = (1.0 * get_year_multiplier (PInt y))%float
              /\ 2019 <= y.
Proof.
  intros H. apply chosen_fin_rep_Some in H.
  destruct H as (top & rest & Hsorted & Hpos & ->).
  assert (Hin : In top (sorted_fin_reps docs)) by (rewrite Hsorted; now left).
  apply sorted_fin_reps_In in Hin. destruct Hin as (d & Hd & Hp & ->).
  destruct (fin_rep_score d Hp) as (y & Hy & Hscore).
  exists d, y. repeat split; auto.
  apply positive_report_score. now rewrite <- Hscore.
Qed.

Lemma str_int_nonempty (z : Z) : str_int z <> "".
Proof.
  unfold str_int. destruct z as [ | p | p ]; cbn; try discriminate.
  pose proof (DecimalPos.Unsigned.to_uint_nonnil p) as H.
  destruct (Pos.to_uint p); cbn; try discriminate. now elim H.
Qed.

(** C10.  A chosen report carries an integer year, 2019 or later; so the
    [FIN_REP] row, the first of a company, has a [REFYEAR] whenever it has
    a [SRC]. *)
Theorem primary_year_known :
  forall (analyzed : list string -> list Doc) (id name : string) (urls : list string),
    (forall p, fst (process_company_urls analyzed urls) = Some p ->
               exists y, ref_year_int p = Some y /\ 2019 <= y)
    /\ (forall r, hd_error (company_rows analyzed id name urls) = Some r ->
                  TYPE r = "FIN_REP" /\ (SRC r <> "" -> REFYEAR r <> "")).
Proof.
  intros analyzed id name urls.
  assert (Hyear : forall p, fst (process_company_urls analyzed urls) = Some p ->
                            exists y, ref_year_int p = Some y /\ 2019 <= y).
  { intros p Hp. unfold process_company_urls in Hp.
    rewrite select_documents_eq in Hp. cbn [fst] in Hp.
    apply chosen_fin_rep_origin in Hp.
    destruct Hp as (d & y & _ & _ & -> & Hy & _ & Hge).
    exists y. split; [ | exact Hge ].
    cbn [set_final_type ref_year_int]. now rewrite score_document_year. }
  split; [ exact Hyear | ].
  intros r Hr. destruct urls as [ | u urls ].
  - cbn in Hr. injection Hr as <-. cbn. split; [ reflexivity | congruence ].
  - cbn [company_rows] in Hr.
    destruct (process_company_urls analyzed (u :: urls)) as [best tops] eqn:Hsel.
    cbn [output_csv_rows hd_error] in Hr. injection Hr as <-.
    destruct best as [p | ]; cbn [fin_rep_row TYPE SRC REFYEAR].
    + split; [ reflexivity | ]. intros _.
      destruct (Hyear p eq_refl) as (y & -> & _). apply str_int_nonempty.
    + split; [ reflexivity | congruence ].
Qed.

(** C10, witness: a report of 2021 is chosen and its row carries the
    year. *)
Lemma primary_year_known_witness :
  (exists y, ref_year_int
               (set_final_type (score_document (Samples.report "a.pdf" 2021)) FIN_REP)
             = Some y /\ 2019 <= y)
  /\ REFYEAR (mkRow "7" "ACME" "FIN_REP" "a.pdf" "2021") <> "".
Proof.
  pose (analyzed := fun _ : list string => [Samples.report "a.pdf" 2021]).
  destruct (primary_year_known analyzed "7" "ACME" ["a.pdf"]) as [Hyear Hrow].
  split.
  - apply Hyear. vm_compute. reflexivity.
  - apply (Hrow (mkRow "7" "ACME" "FIN_REP" "a.pdf" "2021")).
    + vm_compute. reflexivity.
    + discriminate.
Defined.

(** *** The primary: the report with the greatest key *)

(** On the reports the key [(score, year)] orders as the year alone
    does: the score is the multiplier of the year, which does not
    decrease with the year. *)
Lemma report_key_by_year (ya yb : Z) :
  pair_lt (1.0 * get_year_multiplier (PInt ya))%float ya
          (1.0 * get_year_multiplier (PInt yb))%float yb
  = (ya <? yb).
Proof.
  rewrite !year_multiplier_of_int. unfold pair_lt.
  year_cases; subst; lazy -[Z.ltb]; try reflexivity;
    symmetry; first [ apply Z.ltb_lt | apply Z.ltb_ge ]; lia.
Qed.

Lemma fin_rep_lt_by_year (docs : list Doc) (a b : Doc) :
  In a (unsorted_fin_reps docs) -> In b (unsorted_fin_reps docs) ->
  fin_rep_lt a b = (year_or 0 a <? year_or 0 b).
Proof.
  intros Ha Hb.
  apply unsorted_fin_reps_In in Ha. destruct Ha as (da & _ & Hpa & ->).
  apply unsorted_fin_reps_In in Hb. destruct Hb as (db & _ & Hpb & ->).
  destruct (fin_rep_score da Hpa) as (ya & Hya & Hsa).
  destruct (fin_rep_score db Hpb) as (yb & Hyb & Hsb).
  unfold fin_rep_lt, year_or. rewrite !score_document_year, Hya, Hyb, Hsa, Hsb.
  apply report_key_by_year.
Qed.

Section SortHead.
Context {A : Type} (lt : A -> A -> bool) (key : A -> Z).

(** The head of a descending sort has the greatest key. *)
Lemma sort_desc_head_max (l : list A) :
  (forall x y, In x l -> In y l -> lt x y = (key x <? key y)) ->
  forall top rest, sort_desc lt l = top :: rest ->
    In top l /\ forall y, In y l -> key y <= key top.
Proof.
  induction l as [ | x l IH ]; intros Hlt top rest Hsort; [ discriminate | ].
  cbn [sort_desc fold_right] in Hsort. fold (sort_desc lt l) in Hsort.
  assert (Hlt' : forall x y, In x l -> In y l -> lt x y = (key x <? key y)).
  { intros a b Ha Hb. apply Hlt; now right. }
  specialize (IH Hlt').
  destruct (sort_desc lt l) as [ | h t ] eqn:Hs.
  - cbn in Hsort. injection Hsort as <- <-.
    assert (l = []) as ->.
    { apply Permutation_nil. rewrite <- Hs. apply sort_desc_perm. }
    split; [ now left | ]. intros y [<- | []]. lia.
  - destruct (IH h t eq_refl) as [Hh Hmax].
    cbn [insert_desc] in Hsort.
    rewrite (Hlt x h) in Hsort by (cbn; auto).
    destruct (Z.ltb_spec (key x) (key h)); injection Hsort as <- _.
    + split; [ now right | ].
      intros y [<- | Hy]; [ lia | now apply Hmax ].
    + split; [ now left | ].
      intros y [<- | Hy]; [ lia | ]. specialize (Hmax y Hy). lia.
Qed.
End SortHead.

Lemma sorted_fin_reps_head (docs : list Doc) (top : Doc) (rest : list Doc) :
  sorted_fin_reps docs = top :: rest ->
  In top (unsorted_fin_reps docs)
  /\ forall x, In x (unsorted_fin_reps docs) -> fin_rep_lt top x = false.
Proof.
  intros Hs. unfold sorted_fin_reps in Hs.
  destruct (sort_desc_head_max fin_rep_lt (year_or 0) (unsorted_fin_reps docs)
              (fin_rep_lt_by_year docs) top rest Hs) as [Hin Hmax].
  split; [ exact Hin | ].
  intros x Hx. rewrite (fin_rep_lt_by_year docs) by assumption.
  apply Z.ltb_ge. now apply Hmax.
Qed.

Lemma chosen_fin_rep_None (docs : list Doc) :
  chosen_fin_rep docs = None <->
  forall d, In d docs -> potential_fin_rep d = true ->
            (0 <? calculated_score (score_document d))%float = false.
Proof.
  unfold chosen_fin_rep, choose_fin_rep.
  destruct (sorted_fin_reps docs) as [ | top rest ] eqn:Hs.
  - split; [ | reflexivity ]. intros _ d Hd Hp.
    assert (Hin : In (score_document d) (sorted_fin_reps docs)).
    { apply sorted_fin_reps_In. now exists d. }
    rewrite Hs in Hin. destruct Hin.
  - destruct (sorted_fin_reps_head docs top rest Hs) as [Hin Hmax].
    destruct (0 <? calculated_score top)%float eqn:Hpos; split.
    + discriminate.
    + intros Hall. apply unsorted_fin_reps_In in Hin.
      destruct Hin as (d & Hd & Hp & ->). rewrite (Hall d Hd Hp) in Hpos. discriminate.
    + intros _ d Hd Hp.
      assert (Hx : In (score_document d) (unsorted_fin_reps docs)).
      { apply unsorted_fin_reps_In. now exists d. }
      specialize (Hmax _ Hx).
      rewrite (fin_rep_lt_by_year docs) in Hmax by assumption.
      apply Z.ltb_ge in Hmax.
      apply unsorted_fin_reps_In in Hin. destruct Hin as (dt & _ & Hpt & ->).
      destruct (fin_rep_score dt Hpt) as (yt & Hyt & Hst).
      destruct (fin_rep_score d Hp) as (y & Hy & Hsd).
      unfold year_or in Hmax. rewrite !score_document_year, Hyt, Hy in Hmax.
      rewrite Hst in Hpos. rewrite Hsd.
      destruct (0 <? 1.0 * get_year_multiplier (PInt y))%float eqn:Hposy; [ | reflexivity ].
      apply positive_report_score in Hposy.
      assert (Hge : 2019 <= yt) by lia.
      apply positive_report_score in Hge. congruence.
    + reflexivity.
Qed.

Lemma report_score_is_multiplier (y : Z) :
  (1.0 * get_year_multiplier (PInt y))%float = get_year_multiplier (PInt y).
Proof.
  rewrite year_multiplier_of_int. year_cases; reflexivity.
Qed.

Lemma chosen_2024 (docs : list Doc) (d : Doc) :
  In d docs -> potential_fin_rep d = true -> ref_year_int d = Some 2024 ->
  (forall d', In d' docs -> potential_fin_rep d' = true ->
              ref_year_int d' = Some 2024 -> d' = d) ->
  (forall d' y', In d' docs -> potential_fin_rep d' = true ->
                 ref_year_int d' = Some y' -> y' <= 2024) ->
  chosen_fin_rep docs = Some (set_final_type (score_document d) FIN_REP)
  /\ calculated_score (score_document d) = 1.0%float.
Proof.
  intros Hd Hp Hy Huniq Hlate.
  destruct (fin_rep_score d Hp) as (y & Hy' & Hscore).
  assert (y = 2024) as -> by congruence.
  split; [ | exact Hscore ].
  assert (Hin : In (score_document d) (unsorted_fin_reps docs)).
  { apply unsorted_fin_reps_In. now exists d. }
  destruct (sorted_fin_reps docs) as [ | top rest ] eqn:Hs.
  - exfalso. unfold sorted_fin_reps in Hs.
    apply (sort_desc_In fin_rep_lt) in Hin. rewrite Hs in Hin. destruct Hin.
  - destruct (sorted_fin_reps_head docs top rest Hs) as [Htop Hmax].
    specialize (Hmax _ Hin).
    rewrite (fin_rep_lt_by_year docs) in Hmax by assumption.
    apply Z.ltb_ge in Hmax.
    apply unsorted_fin_reps_In in Htop. destruct Htop as (dt & Hdt & Hpt & ->).
    destruct (fin_rep_score dt Hpt) as (yt & Hyt & Hst).
    unfold year_or in Hmax. rewrite !score_document_year, Hyt, Hy in Hmax.
    pose proof (Hlate dt yt Hdt Hpt Hyt) as Hle.
    assert (yt = 2024) as -> by lia.
    rewrite (Huniq dt Hdt Hpt Hyt) in *.
    apply chosen_fin_rep_Some. exists (score_document d), rest.
    repeat split; [ exact Hs | ]. rewrite Hscore. reflexivity.
Qed.

(** C2 (as the code has it).  The chosen report is a document that
    passed the test of line 212 (no error, annual report, direct link,
    known year), scored with the multiplier of its year; no other such
    document has a greater key [(score, year)]; its score is positive; and
    no report is chosen exactly when no such document has a positive
    score.  A report of 2024 that is the only one of its year is chosen,
    with score 1.0, when no such document has a later year. *)
Theorem primary_is_best_report :
  forall docs : list Doc,
    (forall p, fst (select_documents docs) = Some p ->
       exists d, In d docs /\ potential_fin_rep d = true
         /\ p = set_final_type (score_document d) FIN_REP
         /\ calculated_score p = get_year_multiplier (of_opt_int (ref_year_int d))
         /\ (0 <? calculated_score p)%float = true
         /\ forall d', In d' docs -> potential_fin_rep d' = true ->
                       fin_rep_lt (score_document d) (score_document d') = false)
    /\ (fst (select_documents docs) = None <->
        forall d, In d docs -> potential_fin_rep d = true ->
                  (0 <? calculated_score (score_document d))%float = false)
    /\ (forall d, In d docs -> potential_fin_rep d = true ->
          ref_year_int d = Some 2024 ->
          (forall d', In d' docs -> potential_fin_rep d' = true ->
                      ref_year_int d' = Some 2024 -> d' = d) ->
          (forall d' y', In d' docs -> potential_fin_rep d' = true ->
                         ref_year_int d' = Some y' -> y' <= 2024) ->
          fst (select_documents docs) = Some (set_final_type (score_document d) FIN_REP)
          /\ calculated_score (score_document d) = 1.0%float).
Proof.
  intros docs. rewrite select_documents_eq. cbn [fst]. repeat split.
  - intros p Hp. pose proof Hp as Hsome. apply chosen_fin_rep_Some in Hsome.
    destruct Hsome as (top & rest & Hs & Hpos & ->).
    destruct (sorted_fin_reps_head docs top rest Hs) as [Htop Hmax].
    apply unsorted_fin_reps_In in Htop. destruct Htop as (d & Hd & Hpd & ->).
    destruct (fin_rep_score d Hpd) as (y & Hy & Hscore).
    exists d. repeat split; auto.
    + cbn [set_final_type calculated_score]. rewrite Hscore, Hy. cbn [of_opt_int].
      apply report_score_is_multiplier.
    + intros d' Hd' Hp'. apply Hmax. apply unsorted_fin_reps_In. now exists d'.
  - apply chosen_fin_rep_None.
  - apply chosen_fin_rep_None.
  - now apply (chosen_2024 docs d).
  - now apply (chosen_2024 docs d).
Qed.

(** C2, witness: one report of 2024 beside an older one. *)
Lemma primary_is_best_report_witness :
  fst (select_documents [Samples.report "a.pdf" 2024; Samples.report "b.pdf" 2022])
  = Some (set_final_type (score_document (Samples.report "a.pdf" 2024)) FIN_REP)
  /\ calculated_score (score_document (Samples.report "a.pdf" 2024)) = 1.0%float.
Proof.
  apply (proj2 (proj2 (primary_is_best_report
                         [Samples.report "a.pdf" 2024; Samples.report "b.pdf" 2022]))).
  - cbn; auto.
  - reflexivity.
  - reflexivity.
  - intros d' [<- | [<- | []]] _ Hy; [ reflexivity | discriminate Hy ].
  - intros d' y' [<- | [<- | []]] _ [= <-]; lia.
Defined.

(** C2, counterexample to the claim as worded: [a.pdf] is the only
    annual report with a direct link and year 2024, and the report of
    2025 is chosen. *)
Lemma later_report_beats_2024 :
  let a := Samples.report "a.pdf" 2024 in
  let b := Samples.report "b.pdf" 2025 in
  In a [a; b]
  /\ Samples.report_of_year 2024 a = true
  /\ (forall d, In d [a; b] -> Samples.report_of_year 2024 d = true -> d = a)
  /\ fst (select_documents [a; b]) = Some (set_final_type (score_document b) FIN_REP)
  /\ url b <> url a.
Proof.
  cbv zeta. split; [ now left | ]. split; [ reflexivity | ].
  split; [ | split ].
  - intros d [<- | [<- | []]] H; [ reflexivity | discriminate H ].
  - vm_compute. reflexivity.
  - discriminate.
Qed.

(** *** Where the alternates come from *)

Lemma take_scored_In pool : forall final seen a,
  In a (fst (take_scored pool final seen)) ->
  In a final
  \/ (In a pool
      /\ ((0 <? calculated_score a)%float || is_some (ref_year_int a)) = true).
Proof.
  induction pool as [ | d pool IH ]; intros final seen a Ha; cbn [take_scored] in Ha.
  - now left.
  - destruct (5 <=? List.length final)%nat; [ now left | ].
    destruct (negb (seen_mem (url d) seen)
              && ((0 <? calculated_score d)%float || is_some (ref_year_int d)))
             eqn:Htest.
    + apply IH in Ha. destruct Ha as [Ha | [Ha Hev]].
      * apply in_app_or in Ha. destruct Ha as [Ha | [<- | []]]; [ now left | ].
        right. split; [ now left | ]. now apply andb_prop in Htest.
      * right. split; [ now right | exact Hev ].
    + apply IH in Ha. destruct Ha as [Ha | [Ha Hev]]; [ now left | ].
      right. split; [ now right | exact Hev ].
Qed.

Lemma take_fillers_In fillers : forall final seen a,
  In a (fst (take_fillers fillers final seen)) -> In a final \/ In a fillers.
Proof.
  induction fillers as [ | d fillers IH ]; intros final seen a Ha;
    cbn [take_fillers] in Ha.
  - now left.
  - destruct (5 <=? List.length final)%nat; [ now left | ].
    destruct (negb (seen_mem (url d) seen)).
    + apply IH in Ha. destruct Ha as [Ha | Ha]; [ | right; now right ].
      apply in_app_or in Ha. destruct Ha as [Ha | [<- | []]]; [ now left | ].
      right; now left.
    + apply IH in Ha. destruct Ha as [Ha | Ha]; [ now left | right; now right ].
Qed.

Lemma remaining_raw_docs_In analyzed seen a :
  In a (remaining_raw_docs analyzed seen) <->
  exists d, In d analyzed /\ has_error d = false /\ seen_mem (url d) seen = false
            /\ a = set_final_type d OTHER.
Proof.
  unfold remaining_raw_docs. rewrite in_map_iff. split.
  - intros [d [<- Hd]]. apply filter_In in Hd. destruct Hd as [Hd Htest].
    apply andb_prop in Htest. destruct Htest as [He Hs].
    apply negb_true_iff in He. apply negb_true_iff in Hs. now exists d.
  - intros (d & Hd & He & Hs & ->). exists d. split; [ reflexivity | ].
    apply filter_In. split; [ exact Hd | ]. now rewrite He, Hs.
Qed.

Lemma unsorted_pool_In docs a :
  In a (unsorted_pool docs) <->
  (exists f, In f (sorted_fin_reps docs)
             /\ not_chosen_url (chosen_fin_rep docs) f = true /\ a = demote f)
  \/ (exists o, In o (other_sources docs)
                /\ not_chosen_url (chosen_fin_rep docs) o = true
                /\ a = set_final_type o OTHER).
Proof.
  unfold unsorted_pool, build_other_pool. rewrite in_app_iff, !in_map_iff.
  split.
  - intros [[f [<- Hf]] | [o [<- Ho]]]; apply filter_In in Hf || apply filter_In in Ho.
    + left. exists f. tauto.
    + right. exists o. tauto.
  - intros [(f & Hf & Hn & ->) | (o & Ho & Hn & ->)].
    + left. exists f. split; [ reflexivity | ]. now apply filter_In.
    + right. exists o. split; [ reflexivity | ]. now apply filter_In.
Qed.

Lemma other_sources_In docs o :
  In o (other_sources docs) <->
  exists d, In d docs /\ potential_fin_rep d = false /\ o = score_document d.
Proof.
  rewrite other_sources_eq, filter_In, in_map_iff. split.
  - intros [[d [<- Hd]] Hfin]. exists d.
    rewrite is_fin_rep_score_document in Hfin. apply negb_true_iff in Hfin. auto.
  - intros (d & Hd & Hp & ->). split; [ now exists d | ].
    rewrite is_fin_rep_score_document. now rewrite Hp.
Qed.

(** An alternate is an entry of the sorted pool that passed the evidence
    test, or a filler without error. *)
Lemma alternates_In docs a :
  In a (snd (select_documents docs)) ->
  (In a (unsorted_pool docs)
   /\ ((0 <? calculated_score a)%float || is_some (ref_year_int a)) = true)
  \/ (exists d, In d docs /\ has_error d = false
                /\ a = set_final_type (score_document d) OTHER).
Proof.
  rewrite select_documents_eq. cbn [snd]. unfold backfill. intros Ha.
  assert (Hscored : forall a, In a (fst (scored_alternates docs)) ->
            In a (unsorted_pool docs)
            /\ ((0 <? calculated_score a)%float || is_some (ref_year_int a)) = true).
  { intros x Hx. unfold scored_alternates in Hx. apply take_scored_In in Hx.
    destruct Hx as [[] | [Hx Hev]]. split; [ | exact Hev ].
    unfold all_potential_other_sources in Hx. now apply sort_desc_In in Hx. }
  destruct (List.length (fst (scored_alternates docs)) <? 5)%nat.
  - apply take_fillers_In in Ha. destruct Ha as [Ha | Ha]; [ left; now apply Hscored | ].
    right. apply sort_desc_In in Ha. apply remaining_raw_docs_In in Ha.
    destruct Ha as (d' & Hd' & He & _ & ->).
    rewrite analyzed_docs_eq in Hd'. apply in_map_iff in Hd'.
    destruct Hd' as (d & <- & Hd). exists d.
    rewrite score_document_has_error in He. auto.
  - left. now apply Hscored.
Qed.

Lemma score_document_error d :
  has_error d = true -> score_document d = set_score d 0%float ERROR.
Proof. intros H. unfold score_document. now rewrite H. Qed.

Lemma potential_fin_rep_no_error d : potential_fin_rep d = true -> has_error d = false.
Proof.
  unfold potential_fin_rep. intros H.
  destruct (has_error d); [ discriminate | reflexivity ].
Qed.

(** Where the error is tested.  A document with an error gets category
    [ERROR] and score 0, is never the chosen report and is no filler; an
    alternate with an error came through the scored pool, where only its
    known year let it pass: with an unknown year it is no alternate. *)
Theorem error_documents_kept_out :
  forall docs : list Doc,
    (forall d, has_error d = true ->
               score_document d = set_score d 0%float ERROR)
    /\ (forall p, fst (select_documents docs) = Some p -> has_error p = false)
    /\ (forall seen a, In a (remaining_raw_docs (analyzed_docs docs) seen) ->
                       has_error a = false)
    /\ (forall a, In a (snd (select_documents docs)) -> has_error a = true ->
                  ref_year_int a <> None
                  /\ selection_category a = ERROR
                  /\ calculated_score a = 0%float).
Proof.
  intros docs. split; [ exact score_document_error | ]. split; [ | split ].
  - intros p Hp. rewrite select_documents_eq in Hp. cbn [fst] in Hp.
    apply chosen_fin_rep_origin in Hp. destruct Hp as (d & y & _ & Hpd & -> & _).
    change (has_error (score_document d) = false).
    rewrite score_document_has_error. now apply potential_fin_rep_no_error.
  - intros seen a Ha. apply remaining_raw_docs_In in Ha.
    destruct Ha as (d & _ & He & _ & ->). exact He.
  - intros a Ha Herr. apply alternates_In in Ha.
    destruct Ha as [[Hpool Hev] | (d & _ & He & ->)].
    + apply unsorted_pool_In in Hpool.
      destruct Hpool as [(f & Hf & _ & ->) | (o & Ho & _ & ->)].
      * exfalso. apply sorted_fin_reps_In in Hf. destruct Hf as (d & _ & Hpd & ->).
        change (has_error (score_document d) = true) in Herr.
        rewrite score_document_has_error in Herr.
        apply potential_fin_rep_no_error in Hpd. congruence.
      * apply other_sources_In in Ho. destruct Ho as (d & _ & _ & ->).
        change (has_error (score_document d) = true) in Herr.
        rewrite score_document_has_error in Herr.
        rewrite (score_document_error d Herr) in *.
        cbn in Hev |- *. repeat split; auto.
        destruct (ref_year_int d); [ discriminate | discriminate Hev ].
    + exfalso. change (has_error (score_document d) = true) in Herr.
      rewrite score_document_has_error in Herr. congruence.
Qed.

(** The chosen report of a failed URL beside a report of 2024. *)
Lemma error_documents_kept_out_witness :
  has_error (set_final_type (score_document (Samples.report "a.pdf" 2024)) FIN_REP)
  = false.
Proof.
  apply (proj1 (proj2 (error_documents_kept_out
                         [Samples.failed "b" "LLM analysis failed";
                          Samples.report "a.pdf" 2024]))).
  vm_compute. reflexivity.
Defined.

(** C5.  The code at a record with an error and a year: scored 0 and
    marked [ERROR], it is taken as an alternate all the same, because the
    walk over the pool (line 290) does not test the error as the backfill
    (line 297) does. *)
Lemma error_record_among_alternates :
  let e := Samples.failed_with_year "u" "paywall" 2023 in
  has_error e = true
  /\ snd (select_documents [e]) = [set_final_type (set_score e 0%float ERROR) OTHER].
Proof.
  cbv zeta. split; vm_compute; reflexivity.
Qed.

(** *** Demoted reports *)

Lemma landing_page_score d :
  selection_category (score_document d) = POTENTIAL_OTHER_REPORT_LANDING_PAGE ->
  calculated_score (score_document d)
  = (0.5 * get_year_multiplier (of_opt_int (ref_year_int d)))%float.
Proof.
  unfold score_document.
  repeat match goal with
         | |- context [ if ?b then _ else _ ] => destruct b
         end; cbn; intros H; try discriminate H; reflexivity.
Qed.

Lemma score_document_not_demoted d :
  selection_category (score_document d) <> DEMOTED_FIN_REP_AS_OTHER.
Proof.
  unfold score_document.
  repeat match goal with
         | |- context [ if ?b then _ else _ ] => destruct b
         end; cbn; discriminate.
Qed.

Lemma demote_fields f :
  url (demote f) = url f
  /\ ref_year_int (demote f) = ref_year_int f
  /\ has_error (demote f) = has_error f
  /\ selection_category (demote f) = DEMOTED_FIN_REP_AS_OTHER
  /\ final_type_for_csv (demote f) = Some OTHER
  /\ calculated_score (demote f)
     = (0.75 * get_year_multiplier (of_opt_int (ref_year_int f)))%float.
Proof. repeat split. Qed.

Lemma all_potential_other_sources_In docs a :
  In a (all_potential_other_sources docs) <-> In a (unsorted_pool docs).
Proof. unfold all_potential_other_sources. apply sort_desc_In. Qed.

Lemma score_order_same_year (y : Z) :
  2019 <= y ->
  (0.5 * get_year_multiplier (PInt y) <? 0.75 * get_year_multiplier (PInt y))%float = true
  /\ (0.75 * get_year_multiplier (PInt y) <? 1.0 * get_year_multiplier (PInt y))%float
     = true.
Proof.
  intros H. rewrite year_multiplier_of_int.
  year_cases; subst; try lia; split; reflexivity.
Qed.

(** C6.  Every report that passed the test of line 212 and does not
    carry the chosen URL enters the pool demoted, with score
    [0.75 * get_year_multiplier(year)]; every demoted entry of the pool has
    that score; and for a landing page of the pool and the chosen report
    of one year, the demoted score of that year lies strictly between
    their scores: landing page < demoted < chosen. *)
Theorem demoted_score_between :
  forall docs : list Doc,
    (forall d, In d docs -> potential_fin_rep d = true ->
               not_chosen_url (fst (select_documents docs)) (score_document d) = true ->
               In (demote (score_document d)) (all_potential_other_sources docs)
               /\ calculated_score (demote (score_document d))
                  = (0.75 * get_year_multiplier (of_opt_int (ref_year_int d)))%float)
    /\ (forall a, In a (all_potential_other_sources docs) ->
                  selection_category a = DEMOTED_FIN_REP_AS_OTHER ->
                  calculated_score a
                  = (0.75 * get_year_multiplier (of_opt_int (ref_year_int a)))%float)
    /\ (forall p l,
          fst (select_documents docs) = Some p ->
          In l (all_potential_other_sources docs) ->
          selection_category l = POTENTIAL_OTHER_REPORT_LANDING_PAGE ->
          ref_year_int l = ref_year_int p ->
          let demoted :=
            (0.75 * get_year_multiplier (of_opt_int (ref_year_int p)))%float in
          calculated_score l
          = (0.5 * get_year_multiplier (of_opt_int (ref_year_int p)))%float
          /\ calculated_score p
             = (1.0 * get_year_multiplier (of_opt_int (ref_year_int p)))%float
          /\ (calculated_score l <? demoted)%float = true
          /\ (demoted <? calculated_score p)%float = true).
Proof.
  intros docs. rewrite select_documents_eq. cbn [fst].
  split; [ | split ].
  - intros d Hd Hp Hn. split.
    + apply all_potential_other_sources_In, unsorted_pool_In. left.
      exists (score_document d). repeat split; [ | exact Hn ].
      apply sorted_fin_reps_In. now exists d.
    + cbn. now rewrite score_document_year.
  - intros a Ha Hcat. apply all_potential_other_sources_In, unsorted_pool_In in Ha.
    destruct Ha as [(f & _ & _ & ->) | (o & Ho & _ & ->)]; [ reflexivity | ].
    apply other_sources_In in Ho. destruct Ho as (d & _ & _ & ->).
    now elim (score_document_not_demoted d).
  - intros p l Hp Hl Hcl Hyl. cbv zeta.
    apply chosen_fin_rep_origin in Hp.
    destruct Hp as (d & y & _ & _ & Hpeq & Hy & Hsp & Hge).
    assert (Hyp : ref_year_int p = Some y).
    { rewrite Hpeq. cbn. now rewrite score_document_year. }
    rewrite Hyp in *. cbn [of_opt_int].
    assert (Hsl : calculated_score l = (0.5 * get_year_multiplier (PInt y))%float).
    { apply all_potential_other_sources_In, unsorted_pool_In in Hl.
      destruct Hl as [(f & _ & _ & ->) | (o & Ho & _ & ->)]; [ discriminate Hcl | ].
      apply other_sources_In in Ho. destruct Ho as (dl & _ & _ & ->).
      cbn in Hcl, Hyl |- *. rewrite (landing_page_score dl Hcl).
      rewrite score_document_year in Hyl. now rewrite Hyl. }
    rewrite Hsl, Hsp. repeat split; now apply score_order_same_year.
Qed.

(** C6, witness: two reports and a landing page, all of 2022. *)
Lemma demoted_score_between_witness :
  calculated_score (score_document (Samples.landing_page "c" 2022))
  = (0.5 * 0.8)%float
  /\ calculated_score (score_document (Samples.report "a.pdf" 2022))
     = (1.0 * 0.8)%float
  /\ (calculated_score (score_document (Samples.landing_page "c" 2022))
      <? 0.75 * 0.8)%float = true
  /\ (0.75 * 0.8
      <? calculated_score (score_document (Samples.report "a.pdf" 2022)))%float = true.
Proof.
  pose (docs := [Samples.report "a.pdf" 2022; Samples.report "b.pdf" 2022;
                 Samples.landing_page "c" 2022]).
  apply (proj2 (proj2 (demoted_score_between docs))
           (set_final_type (score_document (Samples.report "a.pdf" 2022)) FIN_REP)
           (set_final_type (score_document (Samples.landing_page "c" 2022)) OTHER)).
  - vm_compute. reflexivity.
  - vm_compute. auto.
  - reflexivity.
  - reflexivity.
Defined.

(** *** The classification loop *)

Lemma llm_attempts_events reply n delay remaining :
  (llm_calls (snd (llm_attempts reply n delay remaining)) <= remaining)%nat
  /\ Forall (fun s => s = delay) (sleeps (snd (llm_attempts reply n delay remaining)))
  /\ (List.length (sleeps (snd (llm_attempts reply n delay remaining)))
      <= llm_calls (snd (llm_attempts reply n delay remaining)))%nat.
Proof.
  induction remaining as [ | remaining IH ]; cbn [llm_attempts].
  - cbn. repeat split; auto.
  - destruct (reply (n - S remaining)%nat).
    + destruct (llm_attempts reply n delay remaining) as [v events].
      cbn [snd] in *. destruct IH as (Hc & Hs & Hl).
      unfold llm_calls, sleeps in *.
      destruct (n - S remaining <? n - 1)%nat;
        cbn [app filter flat_map List.length] in *; repeat split;
        try lia; auto.
    + cbn. repeat split; auto; lia.
Qed.

Lemma llm_attempts_exhausted reply n delay remaining :
  (forall k, reply k = Raises) ->
  fst (llm_attempts reply n delay remaining) = PDict [].
Proof.
  intros Hall. induction remaining as [ | remaining IH ]; cbn [llm_attempts].
  - reflexivity.
  - rewrite Hall. destruct (llm_attempts reply n delay remaining). exact IH.
Qed.

(** C9.  What holds of the claim: at most three calls of the model per
    URL, a wait of 2 seconds after a failed call and only then, and an
    error record when all calls fail or the answer holds no JSON.  What
    does not: an answer whose [ref_year] is [null] makes [int(...)] raise
    [TypeError], which the [except ValueError] lets through, and an answer
    that is a JSON string makes [update] raise. *)
Theorem classification_can_raise :
  (forall w url,
     (llm_calls (snd (call_llm_for_analysis w url)) <= 3)%nat
     /\ Forall (fun s => s = 2) (sleeps (snd (call_llm_for_analysis w url)))
     /\ (List.length (sleeps (snd (call_llm_for_analysis w url))) <= 2)%nat)
  /\ (forall fetch url,
        let w := mkWorld fetch (fun _ _ => Raises) in
        fst (fetch url) <> "Fetch Error" -> fst (fetch url) <> "Processing Error" ->
        analyze_url w url
        = (ret (error_record url "LLM analysis failed"),
           [LlmCall 0; Sleep 2; LlmCall 1; Sleep 2; LlmCall 2]))
  /\ (let w := mkWorld (fun _ => ("Annual report", "text"))
                       (fun _ _ => Replies PNone) in
      analyze_url w "https://x/2024.pdf"
      = (ret (error_record "https://x/2024.pdf" "LLM analysis failed"), [LlmCall 0]))
  /\ (let w := mkWorld (fun _ => ("Annual report", "text"))
                       (fun _ _ => Replies (PDict [("ref_year", PNone)])) in
      analyze_urls w ["https://x/2024.pdf"] = (raise TypeError, [LlmCall 0]))
  /\ (let w := mkWorld (fun _ => ("Annual report", "text"))
                       (fun _ _ => Replies (PStr "unknown")) in
      analyze_urls w ["https://x/2024.pdf"] = (raise ValueError, [LlmCall 0])).
Proof.
  split; [ | split; [ | repeat split ] ].
  - intros w url. unfold call_llm_for_analysis.
    destruct (llm_attempts_events (llm w url) 3 2 3) as (Hc & Hs & Hl).
    assert (H3 : (llm_calls (snd (llm_attempts (llm w url) 3 2 3)) <= 3)%nat) by exact Hc.
    repeat split; auto.
    cbn [llm_attempts Nat.sub] in *.
    destruct (llm w url 0%nat); [ | cbn; lia ].
    destruct (llm w url 1%nat); [ | cbn; lia ].
    destruct (llm w url 2%nat); cbn; lia.
  - intros fetch url w H1 H2. unfold analyze_url. subst w. cbn [Main.fetch].
    destruct (fetch url) as [title snippet]. cbn [fst] in H1, H2.
    apply String.eqb_neq in H1. apply String.eqb_neq in H2. rewrite H1, H2.
    reflexivity.
Qed.

(** The record with an error and a year is what the loop builds when the
    answer of the model carries an [error] key. *)
Example error_key_in_answer :
  let w := mkWorld (fun _ => ("Annual report", "text"))
                   (fun _ _ => Replies (PDict [("error", PStr "paywall");
                                               ("ref_year", PStr "2023");
                                               ("content_type", PStr "OTHER")])) in
  match fst (analyze_url w "u") with
  | inr doc_info => doc_of_dict doc_info
  | inl _ => None
  end = Some (Samples.failed_with_year "u" "paywall" 2023).
Proof. vm_compute. reflexivity. Qed.

(* ================================================================== *)
(** ** Facts about the year bonus of the scraper *)
(* ================================================================== *)

Import Scraper.

Lemma search_any_year_first (s : string) : forall prev,
  search_any_year prev s = hd_error (years_in prev s).
Proof.
  induction s as [ | c s IH ]; intros prev; [ reflexivity | ].
  cbn [search_any_year years_in].
  destruct (if boundary prev (Some c) then year_here (String c s) else None).
  - reflexivity.
  - apply IH.
Qed.

Lemma first_match_text_or_href (text href : string) :
  match search_any_year None text with
  | Some m => Some m
  | None => search_any_year None href
  end = hd_error (years_in None text ++ years_in None href).
Proof.
  rewrite !search_any_year_first.
  destruct (years_in None text); reflexivity.
Qed.

Lemma is_digit_cases (c : ascii) :
  is_digit c = true ->
  In c ["0"; "1"; "2"; "3"; "4"; "5"; "6"; "7"; "8"; "9"]%char.
Proof.
  destruct c as [[] [] [] [] [] [] [] []]; intros H; vm_compute in H;
    try discriminate H; cbn; tauto.
Qed.

Lemma year_here_value (s y : string) :
  year_here s = Some y -> exists v, int_of_str y = ret v /\ 1980 <= v <= 2099.
Proof.
  destruct s as [ | c1 [ | c2 [ | c3 [ | c4 rest ]]]]; try discriminate.
  cbn [year_here].
  destruct (((Ascii.eqb c1 "1" && Ascii.eqb c2 "9"
              && (Ascii.eqb c3 "8" || Ascii.eqb c3 "9"))
             || (Ascii.eqb c1 "2" && Ascii.eqb c2 "0" && is_digit c3))
            && is_digit c4 && boundary (Some c4) (head_char rest))%bool eqn:H;
    [ | discriminate ].
  intros [= <-].
  apply andb_prop in H. destruct H as [H _].
  apply andb_prop in H. destruct H as [H H4].
  apply is_digit_cases in H4.
  apply orb_prop in H. destruct H as [H | H].
  - apply andb_prop in H. destruct H as [H H3].
    apply andb_prop in H. destruct H as [H1 H2].
    apply Ascii.eqb_eq in H1. apply Ascii.eqb_eq in H2. subst c1 c2.
    apply orb_prop in H3.
    destruct H3 as [H3 | H3]; apply Ascii.eqb_eq in H3; subst c3;
      cbn [In] in H4;
      repeat (destruct H4 as [<- | H4];
              [ eexists; split; [ vm_compute; reflexivity | lia ] | ]);
      destruct H4.
  - apply andb_prop in H. destruct H as [H H3].
    apply andb_prop in H. destruct H as [H1 H2].
    apply Ascii.eqb_eq in H1. apply Ascii.eqb_eq in H2. subst c1 c2.
    apply is_digit_cases in H3. cbn [In] in H3, H4.
    repeat (destruct H3 as [<- | H3];
            [ repeat (destruct H4 as [<- | H4];
                      [ eexists; split; [ vm_compute; reflexivity | lia ] | ]);
              destruct H4 | ]);
      destruct H3.
Qed.

Lemma years_in_value (s : string) : forall prev y,
  In y (years_in prev s) -> exists v, int_of_str y = ret v /\ 1980 <= v <= 2099.
Proof.
  induction s as [ | c s IH ]; intros prev y Hy; [ destruct Hy | ].
  cbn [years_in] in Hy.
  destruct (boundary prev (Some c)).
  - destruct (year_here (String c s)) as [m | ] eqn:Hm.
    + destruct Hy as [<- | Hy]; [ now apply (year_here_value _ _ Hm) | now apply IH in Hy ].
    + now apply IH in Hy.
  - now apply IH in Hy.
Qed.

Lemma hd_error_In {A : Type} (l : list A) (x : A) : hd_error l = Some x -> In x l.
Proof. destruct l; cbn; [ discriminate | intros [= ->]; now left ]. Qed.

(** C8.  The code at two links of plain text, with the configured
    target years and no target year in the link.  A link dated 2099 gets
    the bonus, although 2099 is after any year the program runs in: no
    upper bound is tested.  A link that holds 2019 gets none, because 1998
    comes first and only the first match is compared. *)
Lemma year_bonus_counterexample :
  (find_target_year "outlook 2099" "/plan" TARGET_YEARS = None
   /\ (years_in None "outlook 2099" ++ years_in None "/plan")%list = ["2099"]
   /\ recent_year_bonus "outlook 2099" "/plan" TARGET_YEARS = ret 2)
  /\ (find_target_year "1998-2019 history" "/h" TARGET_YEARS = None
      /\ In "2019" (years_in None "1998-2019 history")
      /\ int_of_str "2019" = ret 2019
      /\ recent_year_bonus "1998-2019 history" "/h" TARGET_YEARS = ret 0).
Proof.
  repeat split; try (vm_compute; reflexivity). vm_compute. auto.
Qed.

(** For no current year does the claim hold as worded. *)
Lemma year_bonus_claim_fails (current_year : Z) : ~ year_bonus_claim current_year.
Proof.
  intros Hclaim. destruct (Z.le_gt_cases 2019 current_year) as [Hle | Hgt].
  - destruct (Hclaim "1998-2019 history" "/h" eq_refl) as [_ Hback].
    assert (H : recent_year_bonus "1998-2019 history" "/h" TARGET_YEARS = ret 2).
    { apply Hback. exists "2019", 2019. repeat split; try lia.
      vm_compute. auto. }
    vm_compute in H. discriminate H.
  - destruct (Hclaim "outlook 2099" "/plan" eq_refl) as [Hforth _].
    destruct (Hforth eq_refl) as (s & y & _ & _ & Hy). lia.
Qed.

(* ================================================================== *)
(** ** Facts about the order of the floats *)
(* ================================================================== *)

Lemma SFcompare_rank (f1 f2 : spec_float) :
  match SFcompare f1 f2 with
  | None => sf_rank f1 = None \/ sf_rank f2 = None
  | Some c =>
      exists r1 r2, sf_rank f1 = Some r1 /\ sf_rank f2 = Some r2
                    /\ match c with
                       | Lt => rank_lt r1 r2
                       | Eq => r1 = r2
                       | Gt => rank_lt r2 r1
                       end
  end.
Proof.
  destruct f1 as [s1 | s1 | | s1 m1 e1], f2 as [s2 | s2 | | s2 m2 e2];
    try destruct s1; try destruct s2; cbn [SFcompare sf_rank]; auto;
    try (do 2 eexists; split; [ reflexivity | split; [ reflexivity | ] ];
         cbn; try reflexivity; lia).
  - change (Pos.compare_cont Eq m1 m2) with (Pos.compare m1 m2).
    do 2 eexists; split; [ reflexivity | split; [ reflexivity | ] ].
    destruct (Z.compare_spec e1 e2); [ destruct (Pos.compare_spec m1 m2) | | ];
      subst; cbn; try reflexivity; lia.
  - change (Pos.compare_cont Eq m1 m2) with (Pos.compare m1 m2).
    do 2 eexists; split; [ reflexivity | split; [ reflexivity | ] ].
    destruct (Z.compare_spec e1 e2); [ destruct (Pos.compare_spec m1 m2) | | ];
      subst; cbn; try reflexivity; lia.
Qed.

Lemma float_ltb_rank (x y : float) :
  (x <? y)%float = true <->
  exists r1 r2, float_rank x = Some r1 /\ float_rank y = Some r2 /\ rank_lt r1 r2.
Proof.
  rewrite ltb_spec. unfold SFltb, float_rank.
  pose proof (SFcompare_rank (Prim2SF x) (Prim2SF y)) as H.
  destruct (SFcompare (Prim2SF x) (Prim2SF y)) as [[ | | ] | ].
  - destruct H as (r1 & r2 & H1 & H2 & Heq). split; [ discriminate | ].
    intros (a & b & Ha & Hb & Hlt). rewrite H1 in Ha. rewrite H2 in Hb.
    injection Ha as <-. injection Hb as <-. subst r2.
    destruct r1 as [[c e] m]. cbn in Hlt. lia.
  - destruct H as (r1 & r2 & H1 & H2 & Hlt). split; [ | reflexivity ].
    intros _. now exists r1, r2.
  - destruct H as (r1 & r2 & H1 & H2 & Hgt). split; [ discriminate | ].
    intros (a & b & Ha & Hb & Hlt). rewrite H1 in Ha. rewrite H2 in Hb.
    injection Ha as <-. injection Hb as <-.
    destruct r1 as [[c e] m], r2 as [[c' e'] m']. cbn in Hlt, Hgt. lia.
  - split; [ discriminate | ].
    intros (a & b & Ha & Hb & _). destruct H; congruence.
Qed.

Lemma float_eqb_rank (x y : float) :
  (x =? y)%float = true <->
  exists r, float_rank x = Some r /\ float_rank y = Some r.
Proof.
  rewrite eqb_spec. unfold SFeqb, float_rank.
  pose proof (SFcompare_rank (Prim2SF x) (Prim2SF y)) as H.
  destruct (SFcompare (Prim2SF x) (Prim2SF y)) as [[ | | ] | ].
  - destruct H as (r1 & r2 & H1 & H2 & Heq). split; [ | reflexivity ].
    intros _. subst r2. now exists r1.
  - destruct H as (r1 & r2 & H1 & H2 & Hlt). split; [ discriminate | ].
    intros (r & Ha & Hb). rewrite H1 in Ha. rewrite H2 in Hb.
    injection Ha as <-. injection Hb as <-.
    destruct r2 as [[c e] m]. cbn in Hlt. lia.
  - destruct H as (r1 & r2 & H1 & H2 & Hlt). split; [ discriminate | ].
    intros (r & Ha & Hb). rewrite H1 in Ha. rewrite H2 in Hb.
    injection Ha as <-. injection Hb as <-.
    destruct r2 as [[c e] m]. cbn in Hlt. lia.
  - split; [ discriminate | ].
    intros (r & Ha & Hb). destruct H; congruence.
Qed.

Lemma float_ltb_irrefl (x : float) : (x <? x)%float = false.
Proof.
  destruct (x <? x)%float eqn:H; [ | reflexivity ].
  apply float_ltb_rank in H. destruct H as (r1 & r2 & H1 & H2 & Hlt).
  rewrite H1 in H2. injection H2 as <-. destruct r1 as [[c e] m]. cbn in Hlt. lia.
Qed.

Lemma float_ltb_trans (x y z : float) :
  (x <? y)%float = true -> (y <? z)%float = true -> (x <? z)%float = true.
Proof.
  intros Hxy Hyz. apply float_ltb_rank in Hxy, Hyz. apply float_ltb_rank.
  destruct Hxy as (r1 & r2 & H1 & H2 & Hlt).
  destruct Hyz as (r2' & r3 & H2' & H3 & Hlt').
  rewrite H2 in H2'. injection H2' as <-.
  exists r1, r3. repeat split; auto.
  destruct r1 as [[c1 e1] m1], r2 as [[c2 e2] m2], r3 as [[c3 e3] m3].
  cbn in *. lia.
Qed.

Lemma float_eqb_ltb_l (x y z : float) :
  (x =? y)%float = true -> (y <? z)%float = true -> (x <? z)%float = true.
Proof.
  intros Hxy Hyz. apply float_eqb_rank in Hxy. apply float_ltb_rank in Hyz.
  apply float_ltb_rank.
  destruct Hxy as (r & H1 & H2). destruct Hyz as (r2 & r3 & H2' & H3 & Hlt).
  rewrite H2 in H2'. injection H2' as <-. now exists r, r3.
Qed.

Lemma float_ltb_eqb_r (x y z : float) :
  (x <? y)%float = true -> (y =? z)%float = true -> (x <? z)%float = true.
Proof.
  intros Hxy Hyz. apply float_eqb_rank in Hyz. apply float_ltb_rank in Hxy.
  apply float_ltb_rank.
  destruct Hyz as (r & H1 & H2). destruct Hxy as (r1 & r2 & H1' & H2' & Hlt).
  rewrite H1 in H2'. injection H2' as <-. now exists r1, r.
Qed.

Lemma float_eqb_trans (x y z : float) :
  (x =? y)%float = true -> (y =? z)%float = true -> (x =? z)%float = true.
Proof.
  intros Hxy Hyz. apply float_eqb_rank in Hxy, Hyz. apply float_eqb_rank.
  destruct Hxy as (r & H1 & H2). destruct Hyz as (r' & H2' & H3).
  rewrite H2 in H2'. injection H2' as <-. now exists r.
Qed.

Lemma float_ltb_neq (x y : float) :
  (x <? y)%float = true -> (x =? y)%float = false.
Proof.
  intros Hlt. destruct (x =? y)%float eqn:Heq; [ | reflexivity ].
  apply float_eqb_rank in Heq. apply float_ltb_rank in Hlt.
  destruct Heq as (r & H1 & H2). destruct Hlt as (r1 & r2 & H1' & H2' & Hlt).
  rewrite H1 in H1'. rewrite H2 in H2'. injection H1' as <-. injection H2' as <-.
  destruct r as [[c e] m]. cbn in Hlt. lia.
Qed.

(* ================================================================== *)
(** ** Enumeration order *)
(* ================================================================== *)

(** *** The three keys are strict orders *)

Lemma pair_lt_irrefl (a : float) (b : Z) : pair_lt a b a b = false.
Proof.
  unfold pair_lt. destruct (a =? a)%float.
  - apply Z.ltb_irrefl.
  - apply float_ltb_irrefl.
Qed.

Lemma pair_lt_trans a1 b1 a2 b2 a3 b3 :
  pair_lt a1 b1 a2 b2 = true -> pair_lt a2 b2 a3 b3 = true ->
  pair_lt a1 b1 a3 b3 = true.
Proof.
  unfold pair_lt.
  destruct (a1 =? a2)%float eqn:E12; destruct (a2 =? a3)%float eqn:E23;
    intros H12 H23.
  - rewrite (float_eqb_trans _ _ _ E12 E23). apply Z.ltb_lt.
    apply Z.ltb_lt in H12, H23. lia.
  - pose proof (float_eqb_ltb_l _ _ _ E12 H23) as H13.
    now rewrite (float_ltb_neq _ _ H13).
  - pose proof (float_ltb_eqb_r _ _ _ H12 E23) as H13.
    now rewrite (float_ltb_neq _ _ H13).
  - pose proof (float_ltb_trans _ _ _ H12 H23) as H13.
    now rewrite (float_ltb_neq _ _ H13).
Qed.

Lemma fin_rep_lt_irrefl a : fin_rep_lt a a = false.
Proof. apply pair_lt_irrefl. Qed.

Lemma fin_rep_lt_trans a b c :
  fin_rep_lt a b = true -> fin_rep_lt b c = true -> fin_rep_lt a c = true.
Proof. apply pair_lt_trans. Qed.

Lemma other_lt_irrefl a : other_lt a a = false.
Proof. apply pair_lt_irrefl. Qed.

Lemma other_lt_trans a b c :
  other_lt a b = true -> other_lt b c = true -> other_lt a c = true.
Proof. apply pair_lt_trans. Qed.

Lemma filler_lt_irrefl a : filler_lt a a = false.
Proof.
  unfold filler_lt. rewrite !Z.eqb_refl. apply float_ltb_irrefl.
Qed.

Lemma filler_lt_trans a b c :
  filler_lt a b = true -> filler_lt b c = true -> filler_lt a c = true.
Proof.
  unfold filler_lt. intros H1 H2.
  repeat match goal with
         | H : context [ (?x =? ?y) ] |- _ => destruct (Z.eqb_spec x y)
         | |- context [ (?x =? ?y) ] => destruct (Z.eqb_spec x y)
         end;
    repeat match goal with
           | H : (_ <? _) = true |- _ => apply Z.ltb_lt in H
           end;
    try (apply Z.ltb_lt); try lia.
  now apply (float_ltb_trans _ (calculated_score b)).
Qed.

(** *** A sort without ties does not depend on the input order *)

Section SortUnique.
Context {A : Type} (lt : A -> A -> bool).
Hypothesis lt_irrefl : forall x, lt x x = false.
Hypothesis lt_trans :
  forall x y z, lt x y = true -> lt y z = true -> lt x z = true.

Let before (a b : A) : Prop := lt b a = true.

Lemma lt_asym x y : lt x y = true -> lt y x = false.
Proof.
  intros H. destruct (lt y x) eqn:H'; [ | reflexivity ].
  rewrite <- (lt_irrefl x). symmetry. now apply (lt_trans x y x).
Qed.

Lemma insert_desc_sorted x s :
  StronglySorted before s ->
  (forall y, In y s -> lt x y || lt y x = true) ->
  StronglySorted before (insert_desc lt x s).
Proof.
  induction s as [ | y s IH ]; intros Hs Hcmp; cbn [insert_desc].
  - repeat constructor.
  - apply StronglySorted_inv in Hs. destruct Hs as [Hs Hy].
    destruct (lt x y) eqn:Hxy.
    + constructor.
      * apply IH; [ exact Hs | ]. intros z Hz. apply Hcmp. now right.
      * apply Forall_forall. intros z Hz.
        apply (Permutation_in _ (insert_desc_perm lt x s)) in Hz.
        destruct Hz as [<- | Hz]; [ exact Hxy | ].
        rewrite Forall_forall in Hy. now apply Hy.
    + assert (Hyx : lt y x = true).
      { specialize (Hcmp y (or_introl eq_refl)). rewrite Hxy in Hcmp. exact Hcmp. }
      constructor.
      * now constructor.
      * constructor; [ exact Hyx | ].
        apply Forall_forall. intros z Hz. rewrite Forall_forall in Hy.
        apply (lt_trans z y x); [ now apply Hy | exact Hyx ].
Qed.

Lemma sort_desc_sorted l :
  strict_pairs lt l = true -> StronglySorted before (sort_desc lt l).
Proof.
  induction l as [ | x l IH ]; cbn [strict_pairs sort_desc fold_right]; intros H.
  - constructor.
  - apply andb_prop in H. destruct H as [Hx Hl].
    apply insert_desc_sorted; [ now apply IH | ].
    intros y Hy. apply (proj1 (sort_desc_In lt l y)) in Hy.
    rewrite forallb_forall in Hx. now apply Hx.
Qed.

Lemma sorted_without_middle s1 x s2 :
  StronglySorted before (s1 ++ x :: s2) -> StronglySorted before (s1 ++ s2).
Proof.
  induction s1 as [ | h s1 IH ]; cbn [app]; intros H;
    apply StronglySorted_inv in H; destruct H as [H Hh].
  - exact H.
  - constructor; [ now apply IH | ].
    rewrite Forall_app in Hh |- *. destruct Hh as [H1 H2].
    split; [ exact H1 | now inversion H2 ].
Qed.

Lemma insert_desc_middle s1 x s2 :
  StronglySorted before (s1 ++ x :: s2) ->
  insert_desc lt x (s1 ++ s2) = (s1 ++ x :: s2)%list.
Proof.
  induction s1 as [ | h s1 IH ]; cbn [app]; intros H;
    apply StronglySorted_inv in H; destruct H as [H Hh].
  - destruct s2 as [ | y s2 ]; [ reflexivity | ]. cbn [insert_desc].
    rewrite Forall_forall in Hh.
    now rewrite (lt_asym y x (Hh y (or_introl eq_refl))).
  - cbn [insert_desc]. rewrite Forall_app in Hh. destruct Hh as [_ Hx].
    inversion Hx as [ | ? ? Hxh _ ]; subst. unfold before in Hxh.
    rewrite Hxh. f_equal. now apply IH.
Qed.

Lemma sort_desc_of_perm l : forall s,
  StronglySorted before s -> Permutation l s -> sort_desc lt l = s.
Proof.
  induction l as [ | x l IH ]; intros s Hs Hp.
  - apply Permutation_nil in Hp. now subst.
  - assert (Hin : In x s) by (apply (Permutation_in _ Hp); now left).
    apply in_split in Hin. destruct Hin as (s1 & s2 & ->).
    apply Permutation_cons_app_inv in Hp.
    cbn [sort_desc fold_right]. fold (sort_desc lt l).
    rewrite (IH (s1 ++ s2)%list); [ | now apply (sorted_without_middle s1 x s2) | exact Hp ].
    now apply insert_desc_middle.
Qed.

Lemma sort_desc_perm_eq l l' :
  strict_pairs lt l = true -> Permutation l l' ->
  sort_desc lt l' = sort_desc lt l.
Proof.
  intros Hs Hp. apply sort_desc_of_perm; [ now apply sort_desc_sorted | ].
  rewrite <- Hp. symmetry. apply sort_desc_perm.
Qed.

Lemma strict_pairs_filter (f g : A -> bool) l :
  (forall x, g x = true -> f x = true) ->
  strict_pairs lt (filter f l) = true -> strict_pairs lt (filter g l) = true.
Proof.
  intros Hfg. induction l as [ | x l IH ]; cbn [filter]; [ auto | ].
  destruct (g x) eqn:Hg.
  - rewrite (Hfg x Hg). cbn [strict_pairs]. intros H.
    apply andb_prop in H. destruct H as [Hx Hl].
    rewrite (IH Hl), andb_true_r.
    rewrite forallb_forall in Hx |- *. intros y Hy. apply Hx.
    apply filter_In in Hy. apply filter_In. destruct Hy as [Hy Hgy].
    split; [ exact Hy | now apply Hfg ].
  - destruct (f x); [ | exact IH ]. cbn [strict_pairs]. intros H.
    apply andb_prop in H. now apply IH.
Qed.
End SortUnique.

Lemma strict_pairs_map {A B : Type} (lt : A -> A -> bool) (lt' : B -> B -> bool)
    (g : A -> B) (l : list A) :
  (forall a b, lt' (g a) (g b) = lt a b) ->
  strict_pairs lt' (map g l) = strict_pairs lt l.
Proof.
  intros H. induction l as [ | x l IH ]; [ reflexivity | ].
  cbn [map strict_pairs]. rewrite IH. f_equal.
  clear IH. induction l as [ | y l IH ]; [ reflexivity | ].
  cbn [map forallb]. now rewrite IH, !H.
Qed.

Lemma Permutation_filter {A : Type} (f : A -> bool) (l l' : list A) :
  Permutation l l' -> Permutation (filter f l) (filter f l').
Proof.
  induction 1 as [ | x l l' _ IH | x y l | l l' l'' _ IH1 _ IH2 ]; cbn [filter].
  - constructor.
  - destruct (f x); [ now constructor | exact IH ].
  - destruct (f x), (f y); try reflexivity. apply perm_swap.
  - now transitivity (filter f l').
Qed.

(** *** A sort with ties among the entries a walk passes over *)

Section SortLoose.
Context {A : Type} (lt tie : A -> A -> bool) (keep : A -> bool).
Hypothesis lt_irrefl : forall x, lt x x = false.
Hypothesis lt_trans :
  forall x y z, lt x y = true -> lt y z = true -> lt x z = true.
Hypothesis tie_lt : forall x y, tie x y = true -> lt x y = false.
Hypothesis tie_sym : forall x y, tie x y = tie y x.
Hypothesis tie_trans :
  forall x y z, tie x y = true -> tie y z = true -> tie x z = true.
Hypothesis tie_keep : forall x y, tie x y = true -> keep x = false.

Let loosely_before (a b : A) : Prop := lt b a = true \/ tie a b = true.

Lemma insert_desc_loose x s :
  StronglySorted loosely_before s ->
  (forall y, In y s -> lt x y || lt y x || tie x y = true) ->
  StronglySorted loosely_before (insert_desc lt x s).
Proof.
  induction s as [ | y s IH ]; intros Hs Hcmp; cbn [insert_desc].
  - repeat constructor.
  - apply StronglySorted_inv in Hs. destruct Hs as [Hs Hy].
    rewrite Forall_forall in Hy.
    destruct (lt x y) eqn:Hxy.
    + constructor.
      * apply IH; [ exact Hs | ]. intros z Hz. apply Hcmp. now right.
      * apply Forall_forall. intros z Hz.
        apply (Permutation_in _ (insert_desc_perm lt x s)) in Hz.
        destruct Hz as [<- | Hz]; [ now left | now apply Hy ].
    + assert (Hx : loosely_before x y).
      { specialize (Hcmp y (or_introl eq_refl)). rewrite Hxy in Hcmp.
        cbn [orb] in Hcmp. apply orb_prop in Hcmp.
        destruct Hcmp; [ now left | now right ]. }
      constructor; [ now constructor; [ | apply Forall_forall ] | ].
      constructor; [ exact Hx | ].
      apply Forall_forall. intros z Hz.
      pose proof (Hcmp z (or_intror Hz)) as Hxz.
      destruct (lt z x) eqn:Hzx; [ now left | ].
      destruct (tie x z) eqn:Htxz; [ now right | ].
      rewrite orb_false_r in Hxz. cbn [orb] in Hxz. rewrite orb_false_r in Hxz.
      exfalso. destruct (Hy z Hz) as [Hzy | Hyz].
      * rewrite (lt_trans x z y Hxz Hzy) in Hxy. discriminate.
      * destruct Hx as [Hyx | Htxy].
        -- pose proof (lt_trans y x z Hyx Hxz) as H.
           rewrite (tie_lt y z Hyz) in H. discriminate.
        -- rewrite (tie_trans x y z Htxy Hyz) in Htxz. discriminate.
Qed.

Lemma sort_desc_loose l :
  loose_pairs lt tie l = true -> StronglySorted loosely_before (sort_desc lt l).
Proof.
  induction l as [ | x l IH ]; cbn [loose_pairs sort_desc fold_right]; intros H.
  - constructor.
  - apply andb_prop in H. destruct H as [Hx Hl].
    apply insert_desc_loose; [ now apply IH | ].
    intros y Hy. apply (proj1 (sort_desc_In lt l y)) in Hy.
    rewrite forallb_forall in Hx. now apply Hx.
Qed.

Lemma loose_pairs_perm l l' :
  Permutation l l' -> loose_pairs lt tie l = true -> loose_pairs lt tie l' = true.
Proof.
  induction 1 as [ | x l l' Hp IH | x y l | l l' l'' _ IH1 _ IH2 ];
    cbn [loose_pairs forallb]; intros H.
  - reflexivity.
  - apply andb_prop in H. destruct H as [Hx Hl].
    rewrite (IH Hl), andb_true_r.
    rewrite forallb_forall in Hx |- *. intros z Hz. apply Hx.
    now apply (Permutation_in _ (Permutation_sym Hp)).
  - apply andb_prop in H. destruct H as [Hy H].
    apply andb_prop in Hy. destruct Hy as [Hyx Hy].
    apply andb_prop in H. destruct H as [Hx Hl].
    rewrite Hx, Hy, Hl, !andb_true_r, (tie_sym x y).
    now rewrite (orb_comm (lt x y)).
  - auto.
Qed.

Lemma kept_sorted s :
  StronglySorted loosely_before s ->
  StronglySorted (fun a b => lt b a = true) (filter keep s).
Proof.
  induction 1 as [ | x s Hs IH Hx ]; cbn [filter]; [ constructor | ].
  destruct (keep x) eqn:Hkeep; [ | exact IH ].
  constructor; [ exact IH | ].
  apply Forall_forall. intros z Hz. apply filter_In in Hz.
  destruct Hz as [Hz _]. rewrite Forall_forall in Hx.
  destruct (Hx z Hz) as [Hlt | Htie]; [ exact Hlt | ].
  rewrite (tie_keep x z Htie) in Hkeep. discriminate.
Qed.

Lemma kept_of_sort_same l l' :
  loose_pairs lt tie l = true -> Permutation l l' ->
  filter keep (sort_desc lt l') = filter keep (sort_desc lt l).
Proof.
  intros Hl Hp.
  assert (Hs : StronglySorted (fun a b => lt b a = true)
                              (filter keep (sort_desc lt l)))
    by now apply kept_sorted, sort_desc_loose.
  assert (Hs' : StronglySorted (fun a b => lt b a = true)
                               (filter keep (sort_desc lt l')))
    by now apply kept_sorted, sort_desc_loose, (loose_pairs_perm l l').
  rewrite <- (sort_desc_of_perm lt lt_irrefl lt_trans
                (filter keep (sort_desc lt l')) _ Hs' (Permutation_refl _)).
  apply (sort_desc_of_perm lt lt_irrefl lt_trans); [ exact Hs | ].
  apply Permutation_filter.
  now rewrite !sort_desc_perm, Hp.
Qed.
End SortLoose.

(** *** What the walk over the pool passes over *)

Lemma take_scored_full pool final seen :
  (5 <=? List.length final)%nat = true -> take_scored pool final seen = (final, seen).
Proof. intros H. destruct pool; cbn [take_scored]; [ | rewrite H ]; reflexivity. Qed.

Lemma take_scored_passes_over pool : forall final seen,
  take_scored (filter (fun d => negb (passed_over d)) pool) final seen
  = take_scored pool final seen.
Proof.
  induction pool as [ | d pool IH ]; intros final seen; [ reflexivity | ].
  cbn [filter]. unfold passed_over at 1. rewrite negb_involutive.
  cbn [take_scored].
  destruct ((0 <? calculated_score d)%float || is_some (ref_year_int d)) eqn:Htest.
  - cbn [take_scored]. rewrite Htest, !IH. reflexivity.
  - rewrite andb_false_r, IH.
    destruct (5 <=? List.length final)%nat eqn:Hfull; [ | reflexivity ].
    now apply take_scored_full.
Qed.

Lemma passed_over_year d : passed_over d = true -> ref_year_int d = None.
Proof.
  unfold passed_over. rewrite negb_true_iff, orb_false_iff. intros [_ H].
  now destruct (ref_year_int d).
Qed.

Lemma idle_tie_parts a b :
  idle_tie a b = true ->
  passed_over a = true /\ passed_over b = true
  /\ (calculated_score a =? calculated_score b)%float = true.
Proof.
  unfold idle_tie. intros H. apply andb_prop in H. destruct H as [H Hs].
  apply andb_prop in H. tauto.
Qed.

Lemma float_eqb_sym (x y : float) : (x =? y)%float = (y =? x)%float.
Proof.
  destruct (x =? y)%float eqn:Hxy, (y =? x)%float eqn:Hyx; try reflexivity.
  - apply float_eqb_rank in Hxy. destruct Hxy as (r & H1 & H2).
    rewrite <- Hyx. symmetry. apply float_eqb_rank. now exists r.
  - apply float_eqb_rank in Hyx. destruct Hyx as (r & H1 & H2).
    rewrite <- Hxy. apply float_eqb_rank. now exists r.
Qed.

Lemma idle_tie_lt a b : idle_tie a b = true -> other_lt a b = false.
Proof.
  intros H. apply idle_tie_parts in H. destruct H as (Ha & Hb & Hs).
  unfold other_lt, pair_lt, year_or.
  now rewrite Hs, (passed_over_year a Ha), (passed_over_year b Hb).
Qed.

Lemma idle_tie_sym a b : idle_tie a b = idle_tie b a.
Proof.
  unfold idle_tie.
  now rewrite (andb_comm (passed_over a)), (float_eqb_sym (calculated_score a)).
Qed.

Lemma idle_tie_trans a b c :
  idle_tie a b = true -> idle_tie b c = true -> idle_tie a c = true.
Proof.
  intros H1 H2. apply idle_tie_parts in H1, H2.
  destruct H1 as (Ha & _ & Hab). destruct H2 as (_ & Hc & Hbc).
  unfold idle_tie.
  now rewrite Ha, Hc, (float_eqb_trans _ _ _ Hab Hbc).
Qed.

Lemma idle_tie_passed_over a b :
  idle_tie a b = true -> negb (passed_over a) = false.
Proof. intros H. apply idle_tie_parts in H. destruct H as (-> & _). reflexivity. Qed.

(** *** The selection on two orders of the same documents *)

Section TwoOrders.
Variables docs docs' : list Doc.
Hypothesis same_documents : Permutation docs docs'.
Hypothesis reports_apart :
  strict_pairs fin_rep_lt (unsorted_fin_reps docs) = true.

Lemma analyzed_docs_perm : Permutation (analyzed_docs docs) (analyzed_docs docs').
Proof. rewrite !analyzed_docs_eq. now apply Permutation_map. Qed.

Lemma unsorted_fin_reps_perm :
  Permutation (unsorted_fin_reps docs) (unsorted_fin_reps docs').
Proof.
  rewrite !unsorted_fin_reps_eq. now apply Permutation_filter, Permutation_map.
Qed.

Lemma other_sources_perm : Permutation (other_sources docs) (other_sources docs').
Proof.
  rewrite !other_sources_eq. now apply Permutation_filter, Permutation_map.
Qed.

Lemma sorted_fin_reps_same : sorted_fin_reps docs' = sorted_fin_reps docs.
Proof.
  unfold sorted_fin_reps.
  apply (sort_desc_perm_eq fin_rep_lt fin_rep_lt_irrefl fin_rep_lt_trans).
  - exact reports_apart.
  - apply unsorted_fin_reps_perm.
Qed.

Lemma chosen_fin_rep_same : chosen_fin_rep docs' = chosen_fin_rep docs.
Proof. unfold chosen_fin_rep. now rewrite sorted_fin_reps_same. Qed.

Lemma unsorted_pool_perm : Permutation (unsorted_pool docs) (unsorted_pool docs').
Proof.
  unfold unsorted_pool, build_other_pool.
  rewrite chosen_fin_rep_same, sorted_fin_reps_same.
  apply Permutation_app_head, Permutation_map, Permutation_filter,
    other_sources_perm.
Qed.

Hypothesis pool_apart :
  loose_pairs other_lt idle_tie (unsorted_pool docs) = true.

Lemma scored_alternates_same : scored_alternates docs' = scored_alternates docs.
Proof.
  unfold scored_alternates, initial_seen, all_potential_other_sources.
  rewrite <- (take_scored_passes_over (sort_desc other_lt (unsorted_pool docs'))).
  rewrite <- (take_scored_passes_over (sort_desc other_lt (unsorted_pool docs))).
  rewrite chosen_fin_rep_same.
  rewrite (kept_of_sort_same other_lt idle_tie (fun d => negb (passed_over d))
             other_lt_irrefl other_lt_trans idle_tie_lt idle_tie_sym
             idle_tie_trans idle_tie_passed_over
             (unsorted_pool docs) (unsorted_pool docs') pool_apart
             unsorted_pool_perm).
  reflexivity.
Qed.

Hypothesis fillers_apart :
  (5 <=? List.length (fst (scored_alternates docs)))%nat
  || strict_pairs filler_lt
       (remaining_raw_docs (analyzed_docs docs) (snd (scored_alternates docs)))
  = true.

Lemma backfill_same :
  backfill (analyzed_docs docs') (fst (scored_alternates docs))
           (snd (scored_alternates docs))
  = backfill (analyzed_docs docs) (fst (scored_alternates docs))
             (snd (scored_alternates docs)).
Proof.
  unfold backfill.
  destruct (List.length (fst (scored_alternates docs)) <? 5)%nat eqn:Hshort;
    [ | reflexivity ].
  apply Nat.ltb_lt in Hshort.
  assert (Hfull : (5 <=? List.length (fst (scored_alternates docs)))%nat = false)
    by (apply Nat.leb_gt; exact Hshort).
  rewrite Hfull in fillers_apart. cbn [orb] in fillers_apart.
  rewrite (sort_desc_perm_eq filler_lt filler_lt_irrefl filler_lt_trans
             _ (remaining_raw_docs (analyzed_docs docs')
                                   (snd (scored_alternates docs)))
             fillers_apart).
  - reflexivity.
  - unfold remaining_raw_docs.
    apply Permutation_map, Permutation_filter, analyzed_docs_perm.
Qed.

Lemma select_documents_same : select_documents docs' = select_documents docs.
Proof.
  rewrite !select_documents_eq.
  now rewrite chosen_fin_rep_same, scored_alternates_same, backfill_same.
Qed.
End TwoOrders.

Lemma tie_free_parts docs :
  tie_free docs = true ->
  strict_pairs fin_rep_lt (unsorted_fin_reps docs) = true
  /\ loose_pairs other_lt idle_tie (unsorted_pool docs) = true
  /\ (5 <=? List.length (fst (scored_alternates docs)))%nat
     || strict_pairs filler_lt
          (remaining_raw_docs (analyzed_docs docs) (snd (scored_alternates docs)))
     = true.
Proof.
  unfold tie_free. intros H.
  apply andb_prop in H. destruct H as [H12 H3].
  apply andb_prop in H12. destruct H12 as [H1 H2]. auto.
Qed.




(* ================================================================== *)
(** ** Further facts about main.py *)
(* ================================================================== *)

Import More.

(** *** The backfill goes on until five alternates or no candidate *)

Lemma seen_exact_step seen0 final seen d :
  seen_exact seen0 final seen ->
  seen_exact seen0 (final ++ [d]) (seen_add (url d) seen).
Proof.
  intros H u. rewrite seen_add_In, (H u), map_app, in_app_iff. cbn [map In].
  intuition congruence.
Qed.

Lemma take_scored_exact seen0 pool : forall final seen,
  seen_exact seen0 final seen ->
  seen_exact seen0 (fst (take_scored pool final seen)) (snd (take_scored pool final seen)).
Proof.
  induction pool as [ | d pool IH ]; intros final seen H; cbn [take_scored].
  - exact H.
  - destruct (5 <=? List.length final)%nat; [ exact H | ].
    destruct (negb (seen_mem (url d) seen)
              && ((0 <? calculated_score d)%float || is_some (ref_year_int d))).
    + apply IH. now apply seen_exact_step.
    + now apply IH.
Qed.

Lemma take_fillers_exact seen0 fillers : forall final seen,
  seen_exact seen0 final seen ->
  seen_exact seen0 (fst (take_fillers fillers final seen))
             (snd (take_fillers fillers final seen)).
Proof.
  induction fillers as [ | d fillers IH ]; intros final seen H; cbn [take_fillers].
  - exact H.
  - destruct (5 <=? List.length final)%nat; [ exact H | ].
    destruct (negb (seen_mem (url d) seen)).
    + apply IH. now apply seen_exact_step.
    + now apply IH.
Qed.

Lemma take_fillers_seen_grows fillers : forall final seen u,
  In u seen -> In u (snd (take_fillers fillers final seen)).
Proof.
  induction fillers as [ | d fillers IH ]; intros final seen u Hu; cbn [take_fillers].
  - exact Hu.
  - destruct (5 <=? List.length final)%nat; [ exact Hu | ].
    destruct (negb (seen_mem (url d) seen)).
    + apply IH. apply seen_add_In. now right.
    + now apply IH.
Qed.

(** When the walk over the fillers ends with fewer than five alternates,
    it has recorded the URL of every filler. *)
Lemma take_fillers_complete fillers : forall final seen,
  (List.length (fst (take_fillers fillers final seen)) < 5)%nat ->
  forall x, In x fillers -> In (url x) (snd (take_fillers fillers final seen)).
Proof.
  induction fillers as [ | d fillers IH ]; intros final seen Hlen x Hx;
    [ destruct Hx | ].
  cbn [take_fillers] in *.
  destruct (Nat.leb_spec 5 (List.length final)).
  - cbn [fst] in Hlen. lia.
  - destruct (seen_mem (url d) seen) eqn:Hmem; cbn [negb] in *.
    + destruct Hx as [<- | Hx]; [ | now apply IH ].
      apply take_fillers_seen_grows. now apply seen_mem_true.
    + destruct Hx as [<- | Hx]; [ | now apply IH ].
      apply take_fillers_seen_grows. apply seen_add_In. now left.
Qed.

Lemma initial_seen_exact docs :
  forall u, In u (initial_seen docs) <-> In u (map url (chosen_list (chosen_fin_rep docs))).
Proof.
  intros u. unfold initial_seen.
  destruct (chosen_fin_rep docs) as [c | ]; cbn [chosen_list map In].
  - rewrite seen_add_In. cbn. intuition.
  - cbn. tauto.
Qed.

(** X1.  When fewer than five alternates come out, no candidate was left
    behind: the URL of every document without error is the URL of the
    chosen report or of an alternate. *)
Theorem backfill_leaves_no_candidate :
  forall docs : list Doc,
    (List.length (snd (select_documents docs)) < 5)%nat ->
    forall d, In d docs -> has_error d = false ->
              In (url d) (output_urls (select_documents docs)).
Proof.
  intros docs Hlen d Hd Herr. unfold output_urls.
  rewrite select_documents_eq in *. cbn [fst snd] in *.
  set (scored := scored_alternates docs) in *.
  assert (Hex : seen_exact (initial_seen docs) (fst scored) (snd scored)).
  { apply take_scored_exact. intros u. cbn [map In]. tauto. }
  unfold backfill in *.
  destruct (Nat.ltb_spec (List.length (fst scored)) 5) as [Hlt | Hge];
    [ | cbn [fst] in Hlen; lia ].
  set (fillers := sort_desc filler_lt (remaining_raw_docs (analyzed_docs docs) (snd scored))) in *.
  pose proof (take_fillers_exact (initial_seen docs) fillers _ _ Hex) as Hex'.
  rewrite map_app, in_app_iff, <- initial_seen_exact. apply Hex'.
  destruct (seen_mem (url d) (snd scored)) eqn:Hmem.
  - apply take_fillers_seen_grows. now apply seen_mem_true.
  - rewrite <- (score_document_url d).
    change (url (score_document d)) with (url (set_final_type (score_document d) OTHER)).
    apply take_fillers_complete; [ exact Hlen | ].
    apply sort_desc_In, remaining_raw_docs_In. exists (score_document d).
    rewrite analyzed_docs_eq, score_document_has_error, score_document_url.
    repeat split; auto. now apply in_map.
Qed.

(** X1, witness: two pages and a failed URL. *)
Lemma backfill_leaves_no_candidate_witness :
  In "p" (output_urls (select_documents
                         [Samples.failed "x" "Could not fetch content from x.";
                          Samples.landing_page "p" 2010;
                          Samples.report "a.pdf" 2024])).
Proof.
  apply (backfill_leaves_no_candidate
           [Samples.failed "x" "Could not fetch content from x.";
            Samples.landing_page "p" 2010; Samples.report "a.pdf" 2024]
           ltac:(vm_compute; lia) (Samples.landing_page "p" 2010)).
  - cbn. auto.
  - reflexivity.
Defined.

(** *** Every document put out is a copy of an input document *)

Lemma copy_of_score_document d : copy_of (score_document d) d.
Proof. unfold copy_of. pose proof (score_document_fields d). tauto. Qed.

Lemma copy_of_set_final_type a d t : copy_of a d -> copy_of (set_final_type a t) d.
Proof. unfold copy_of. cbn. tauto. Qed.

Lemma copy_of_demote a d : copy_of a d -> copy_of (demote a) d.
Proof. unfold copy_of. cbn. tauto. Qed.

(** X2.  The selection makes nothing up: the chosen report is a copy of
    an input document that passed the test of line 212, marked [FIN_REP];
    every alternate is a copy of an input document, marked [OTHER]. *)
Theorem outputs_are_input_copies :
  forall docs : list Doc,
    (forall p, fst (select_documents docs) = Some p ->
       final_type_for_csv p = Some FIN_REP
       /\ selection_category p = POTENTIAL_FIN_REP
       /\ exists d, In d docs /\ potential_fin_rep d = true /\ copy_of p d)
    /\ (forall a, In a (snd (select_documents docs)) ->
          final_type_for_csv a = Some OTHER
          /\ exists d, In d docs /\ copy_of a d).
Proof.
  intros docs. split.
  - intros p Hp. rewrite select_documents_eq in Hp. cbn [fst] in Hp.
    apply chosen_fin_rep_origin in Hp. destruct Hp as (d & y & Hd & Hpd & -> & _).
    split; [ reflexivity | ]. split.
    + cbn. pose proof (is_fin_rep_score_document d) as H. rewrite Hpd in H.
      unfold is_fin_rep in H.
      destruct (selection_category (score_document d)); try discriminate H; reflexivity.
    + exists d. split; [ exact Hd | split; [ exact Hpd | ] ].
      apply copy_of_set_final_type, copy_of_score_document.
  - intros a Ha. apply alternates_In in Ha.
    destruct Ha as [[Hpool _] | (d & Hd & _ & ->)].
    + apply unsorted_pool_In in Hpool.
      destruct Hpool as [(f & Hf & _ & ->) | (o & Ho & _ & ->)].
      * apply sorted_fin_reps_In in Hf. destruct Hf as (d & Hd & _ & ->).
        split; [ reflexivity | ]. exists d. split; [ exact Hd | ].
        apply copy_of_demote, copy_of_score_document.
      * apply other_sources_In in Ho. destruct Ho as (d & Hd & _ & ->).
        split; [ reflexivity | ]. exists d. split; [ exact Hd | ].
        apply copy_of_set_final_type, copy_of_score_document.
    + split; [ reflexivity | ]. exists d. split; [ exact Hd | ].
      apply copy_of_set_final_type, copy_of_score_document.
Qed.

(** *** Among the latest reports the first enumerated is chosen *)

Section SortHeadFirst.
Context {A : Type} (lt : A -> A -> bool) (key : A -> Z).

(** The head of a stable descending sort is the first entry with the
    greatest key. *)
Lemma sort_desc_head_first (l : list A) :
  (forall x y, In x l -> In y l -> lt x y = (key x <? key y)) ->
  forall top rest, sort_desc lt l = top :: rest ->
    exists l1 l2, l = (l1 ++ top :: l2)%list
                  /\ (forall y, In y l1 -> key y < key top)
                  /\ (forall y, In y l2 -> key y <= key top).
Proof.
  induction l as [ | x l IH ]; intros Hlt top rest Hsort; [ discriminate | ].
  cbn [sort_desc fold_right] in Hsort. fold (sort_desc lt l) in Hsort.
  assert (Hlt' : forall x y, In x l -> In y l -> lt x y = (key x <? key y)).
  { intros a b Ha Hb. apply Hlt; now right. }
  destruct (sort_desc lt l) as [ | h t ] eqn:Hs.
  - cbn in Hsort. injection Hsort as <- <-.
    assert (l = []) as ->.
    { apply Permutation_nil. rewrite <- Hs. apply sort_desc_perm. }
    exists [], []. repeat split; intros y [].
  - destruct (IH Hlt' h t eq_refl) as (l1 & l2 & -> & H1 & H2).
    cbn [insert_desc] in Hsort.
    rewrite (Hlt x h) in Hsort
      by (cbn; auto using in_or_app, in_eq, in_cons).
    destruct (Z.ltb_spec (key x) (key h)); injection Hsort as <- _.
    + exists (x :: l1), l2. repeat split; auto.
      intros y [<- | Hy]; [ lia | now apply H1 ].
    + exists [], (l1 ++ h :: l2)%list. repeat split; [ intros y [] | ].
      intros y Hy. apply in_app_or in Hy.
      destruct Hy as [Hy | [<- | Hy]];
        [ specialize (H1 y Hy) | | specialize (H2 y Hy) ]; lia.
Qed.
End SortHeadFirst.

Lemma filter_map_split {A B : Type} (f : B -> bool) (g : A -> B) (l : list A) :
  forall l1 x l2,
    filter f (map g l) = (l1 ++ x :: l2)%list ->
    exists b d a, l = (b ++ d :: a)%list /\ x = g d /\ f (g d) = true
                  /\ filter f (map g b) = l1 /\ filter f (map g a) = l2.
Proof.
  induction l as [ | y l IH ]; intros l1 x l2 H; cbn [map filter] in H.
  - destruct l1; discriminate H.
  - destruct (f (g y)) eqn:Hf.
    + destruct l1 as [ | z l1 ]; cbn [app] in H; injection H as Hx H.
      * exists [], y, l. subst x l2. repeat split; auto.
      * destruct (IH _ _ _ H) as (b & d & a & Hl & Hxd & Hfd & Hb & Ha).
        exists (y :: b), d, a. subst l z. repeat split; auto.
        cbn [map filter]. now rewrite Hf, Hb.
    + destruct (IH _ _ _ H) as (b & d & a & Hl & Hxd & Hfd & Hb & Ha).
      exists (y :: b), d, a. subst l. repeat split; auto.
      cbn [map filter]. now rewrite Hf, Hb.
Qed.

(** X3.  Among the documents that passed the test of line 212, the
    chosen report is the first enumerated of those with the latest year:
    every such document before it has an earlier year, none after it has a
    later one. *)
Theorem chosen_is_first_of_latest :
  forall (docs : list Doc) (p : Doc),
    fst (select_documents docs) = Some p ->
    exists before d after y,
      docs = (before ++ d :: after)%list
      /\ potential_fin_rep d = true
      /\ ref_year_int d = Some y
      /\ p = set_final_type (score_document d) FIN_REP
      /\ (forall x y', In x before -> potential_fin_rep x = true ->
                       ref_year_int x = Some y' -> y' < y)
      /\ (forall x y', In x after -> potential_fin_rep x = true ->
                       ref_year_int x = Some y' -> y' <= y).
Proof.
  intros docs p Hp. rewrite select_documents_eq in Hp. cbn [fst] in Hp.
  apply chosen_fin_rep_Some in Hp. destruct Hp as (top & rest & Hs & _ & ->).
  unfold sorted_fin_reps in Hs.
  destruct (sort_desc_head_first fin_rep_lt (year_or 0) (unsorted_fin_reps docs)
              (fin_rep_lt_by_year docs) top rest Hs) as (l1 & l2 & Hsplit & H1 & H2).
  rewrite unsorted_fin_reps_eq in Hsplit.
  apply filter_map_split in Hsplit.
  destruct Hsplit as (before & d & after & -> & -> & Hfin & <- & <-).
  rewrite is_fin_rep_score_document in Hfin.
  destruct (fin_rep_score d Hfin) as (y & Hy & _).
  exists before, d, after, y. repeat split; auto.
  - intros x y' Hx Hpx Hyx.
    assert (Hin : In (score_document x) (filter is_fin_rep (map score_document before))).
    { apply filter_In. split; [ now apply in_map | ].
      now rewrite is_fin_rep_score_document. }
    specialize (H1 _ Hin). unfold year_or in H1.
    now rewrite !score_document_year, Hyx, Hy in H1.
  - intros x y' Hx Hpx Hyx.
    assert (Hin : In (score_document x) (filter is_fin_rep (map score_document after))).
    { apply filter_In. split; [ now apply in_map | ].
      now rewrite is_fin_rep_score_document. }
    specialize (H2 _ Hin). unfold year_or in H2.
    now rewrite !score_document_year, Hyx, Hy in H2.
Qed.

(** X3, witness: two reports of 2024 after one of 2022. *)
Lemma chosen_is_first_of_latest_witness :
  exists before d after y,
    [Samples.report "old.pdf" 2022; Samples.report "a.pdf" 2024;
     Samples.report "b.pdf" 2024] = (before ++ d :: after)%list
    /\ potential_fin_rep d = true
    /\ ref_year_int d = Some y
    /\ set_final_type (score_document (Samples.report "a.pdf" 2024)) FIN_REP
       = set_final_type (score_document d) FIN_REP
    /\ (forall x y', In x before -> potential_fin_rep x = true ->
                     ref_year_int x = Some y' -> y' < y)
    /\ (forall x y', In x after -> potential_fin_rep x = true ->
                     ref_year_int x = Some y' -> y' <= y).
Proof.
  apply (chosen_is_first_of_latest
           [Samples.report "old.pdf" 2022; Samples.report "a.pdf" 2024;
            Samples.report "b.pdf" 2024]).
  vm_compute. reflexivity.
Defined.

(** *** Scores of documents without a recent year *)

Lemma float_mul_zero_not_positive (x : float) : (0 <? x * 0)%float = false.
Proof.
  rewrite ltb_spec, mul_spec. change (Prim2SF 0) with (S754_zero false).
  destruct (Prim2SF x) as [ s | s | | s m e ]; reflexivity.
Qed.

Lemma stale_year_multiplier (o : option Z) :
  (forall y, o = Some y -> y < 2019) ->
  get_year_multiplier (of_opt_int o) = 0%float.
Proof.
  intros H. destruct o as [y | ]; [ | reflexivity ]. cbn [of_opt_int].
  specialize (H y eq_refl). rewrite year_multiplier_of_int.
  year_cases; try lia; reflexivity.
Qed.

Lemma stale_score_not_positive (d : Doc) :
  (forall y, ref_year_int d = Some y -> y < 2019) ->
  (0 <? calculated_score (score_document d))%float = false.
Proof.
  intros H. pose proof (stale_year_multiplier _ H) as Hm.
  unfold score_document.
  repeat match goal with
         | |- context [ if ?b then _ else _ ] => destruct b
         end;
    cbn [set_score calculated_score]; rewrite ?Hm;
    try apply float_mul_zero_not_positive; reflexivity.
Qed.

Lemma positive_score_year (d : Doc) :
  (0 <? calculated_score (score_document d))%float = true ->
  exists y, ref_year_int d = Some y /\ 2019 <= y.
Proof.
  intros Hpos. destruct (ref_year_int d) as [y | ] eqn:Hy.
  - exists y. split; [ reflexivity | ].
    destruct (Z.lt_ge_cases y 2019) as [Hlt | Hge]; [ | exact Hge ].
    rewrite stale_score_not_positive in Hpos; [ discriminate | ].
    intros y' Hy'. congruence.
  - rewrite stale_score_not_positive in Hpos; [ discriminate | ].
    intros y' Hy'. congruence.
Qed.

(** X4.  Freshness decides: a document whose year is unknown or before
    2019 never has a positive score, whatever its type and data points;
    so a positive score means a year of 2019 or later. *)
Theorem positive_score_needs_recent_year :
  forall d : Doc,
    (0 <? calculated_score (score_document d))%float = true ->
    exists y, ref_year_int d = Some y /\ 2019 <= y.
Proof. exact positive_score_year. Qed.

(** X4, witness: a data page of 2021 with three data points. *)
Lemma positive_score_needs_recent_year_witness :
  exists y, Some 2021 = Some y /\ 2019 <= y.
Proof.
  apply (positive_score_needs_recent_year
           (Samples.data_page "e" 2021
              [("employees", "YES"); ("net_turnover", "YES"); ("total_assets", "YES")])).
  vm_compute. reflexivity.
Defined.

(** *** Pool picks first, backfill picks after *)

Lemma take_fillers_app fillers : forall final seen,
  exists added,
    fst (take_fillers fillers final seen) = (final ++ added)%list
    /\ forall x, In x added -> In x fillers.
Proof.
  induction fillers as [ | d fillers IH ]; intros final seen; cbn [take_fillers].
  - exists []. split; [ now rewrite app_nil_r | intros x [] ].
  - destruct (5 <=? List.length final)%nat.
    + exists []. split; [ now rewrite app_nil_r | intros x [] ].
    + destruct (negb (seen_mem (url d) seen)).
      * destruct (IH (final ++ [d])%list (seen_add (url d) seen)) as (added & Heq & Hin).
        exists (d :: added). split.
        -- rewrite Heq, <- app_assoc. reflexivity.
        -- intros x [<- | Hx]; [ now left | right; now apply Hin ].
      * destruct (IH final seen) as (added & Heq & Hin).
        exists added. split; [ exact Heq | ]. intros x Hx. right. now apply Hin.
Qed.

Lemma pool_entry_year docs a :
  In a (unsorted_pool docs) ->
  ((0 <? calculated_score a)%float || is_some (ref_year_int a)) = true ->
  ref_year_int a <> None.
Proof.
  intros Hpool Hev. apply unsorted_pool_In in Hpool.
  destruct Hpool as [(f & Hf & _ & ->) | (o & Ho & _ & ->)].
  - apply sorted_fin_reps_In in Hf. destruct Hf as (d & _ & Hpd & ->).
    destruct (fin_rep_score d Hpd) as (y & Hy & _).
    cbn. rewrite score_document_year, Hy. discriminate.
  - apply other_sources_In in Ho. destruct Ho as (d & _ & _ & ->).
    cbn in Hev |- *. rewrite score_document_year in *.
    apply orb_prop in Hev. destruct Hev as [Hpos | Hsome].
    + apply positive_score_year in Hpos. destruct Hpos as (y & -> & _). discriminate.
    + destruct (ref_year_int d); [ discriminate | discriminate Hsome ].
Qed.

(** X5.  The alternates are the picks from the sorted pool, in pool
    order, followed by the backfill picks.  Every pool pick has a known
    year (the score test of line 290 never decides alone, since a positive
    score needs a year); every backfill pick is a document without error;
    and the backfill adds picks only when the pool gave fewer than five. *)
Theorem alternates_pool_then_backfill :
  forall docs : list Doc,
    exists fill,
      snd (select_documents docs) = (fst (scored_alternates docs) ++ fill)%list
      /\ (forall a, In a (fst (scored_alternates docs)) ->
                    In a (all_potential_other_sources docs)
                    /\ ref_year_int a <> None)
      /\ (forall a, In a fill ->
                    exists d, In d docs /\ has_error d = false
                              /\ a = set_final_type (score_document d) OTHER)
      /\ (fill <> [] -> (List.length (fst (scored_alternates docs)) < 5)%nat).
Proof.
  intros docs. rewrite select_documents_eq. cbn [snd].
  assert (Hpool : forall a, In a (fst (scored_alternates docs)) ->
            In a (all_potential_other_sources docs) /\ ref_year_int a <> None).
  { intros a Ha. unfold scored_alternates in Ha. apply take_scored_In in Ha.
    destruct Ha as [[] | [Ha Hev]]. split; [ exact Ha | ].
    apply (pool_entry_year docs); [ | exact Hev ].
    now apply all_potential_other_sources_In. }
  unfold backfill.
  destruct (Nat.ltb_spec (List.length (fst (scored_alternates docs))) 5) as [Hlt | Hge].
  - destruct (take_fillers_app
                (sort_desc filler_lt
                   (remaining_raw_docs (analyzed_docs docs) (snd (scored_alternates docs))))
                (fst (scored_alternates docs)) (snd (scored_alternates docs)))
      as (added & Heq & Hin).
    exists added. split; [ exact Heq | ]. split; [ exact Hpool | ]. split; [ | auto ].
    intros a Ha. apply Hin, sort_desc_In, remaining_raw_docs_In in Ha.
    destruct Ha as (d' & Hd' & He & _ & ->).
    rewrite analyzed_docs_eq in Hd'. apply in_map_iff in Hd'.
    destruct Hd' as (d & <- & Hd). exists d.
    rewrite score_document_has_error in He. auto.
  - exists []. cbn [fst]. split; [ now rewrite app_nil_r | ].
    split; [ exact Hpool | ]. split; [ intros a [] | congruence ].
Qed.

(** *** What the rows carry *)

Lemma str_int_not_unknown (z : Z) : (str_int z =? "UNKNOWN")%string = false.
Proof.
  apply String.eqb_neq. unfold str_int.
  destruct z as [ | p | p ]; cbn; try discriminate;
    destruct (Pos.to_uint p); discriminate.
Qed.

Lemma other_row_REFYEAR id name tops i :
  REFYEAR (other_row id name tops i) <> "UNKNOWN".
Proof.
  unfold other_row. destruct (nth_error tops i) as [a | ]; [ | discriminate ].
  cbn [REFYEAR].
  match goal with
  | |- (if ?b then _ else ?s) <> _ => destruct b eqn:E
  end; [ discriminate | now apply String.eqb_neq ].
Qed.

Lemma other_row_known_year id name tops i a y :
  nth_error tops i = Some a -> ref_year_int a = Some y ->
  other_row id name tops i = mkRow id name "OTHER" (url a) (str_int y).
Proof.
  intros Ha Hy. unfold other_row. rewrite Ha, Hy, str_int_not_unknown. reflexivity.
Qed.

(** X6.  The rows of a company follow the selection: [SRC] is the URL of
    the chosen report, then the URLs of the alternates in their order,
    then empty up to five; an alternate with a known year has that year
    as [REFYEAR]; and no row ever carries the word UNKNOWN as [REFYEAR]. *)
Theorem rows_follow_selection :
  forall (analyzed : list string -> list Doc) (id name u : string) (urls : list string),
    map SRC (company_rows analyzed id name (u :: urls))
    = ((match fst (process_company_urls analyzed (u :: urls)) with
        | Some c => url c
        | None => ""
        end)
       :: map url (snd (process_company_urls analyzed (u :: urls)))
       ++ repeat "" (5 - List.length (snd (process_company_urls analyzed (u :: urls)))))%list
    /\ (forall i a y,
          nth_error (snd (process_company_urls analyzed (u :: urls))) i = Some a ->
          ref_year_int a = Some y ->
          nth_error (company_rows analyzed id name (u :: urls)) (S i)
          = Some (mkRow id name "OTHER" (url a) (str_int y)))
    /\ Forall (fun r => REFYEAR r <> "UNKNOWN")
              (company_rows analyzed id name (u :: urls)).
Proof.
  intros analyzed id name u urls. cbn [company_rows].
  pose proof (alternates_length (analyzed (u :: urls))) as Hlen.
  pose proof (chosen_fin_rep_origin (analyzed (u :: urls))) as Hchosen.
  unfold process_company_urls in *.
  rewrite select_documents_eq in Hlen |- *. cbn [fst snd] in *.
  set (chosen := chosen_fin_rep (analyzed (u :: urls))) in *.
  set (tops := fst (backfill _ _ _)) in *.
  cbn [output_csv_rows map]. split; [ | split ].
  - rewrite other_rows_SRC by exact Hlen. destruct chosen; reflexivity.
  - intros i a y Ha Hy. cbn [nth_error].
    assert (Hi : (i < 5)%nat).
    { apply Nat.lt_le_trans with (List.length tops); [ | exact Hlen ].
      apply nth_error_Some. congruence. }
    rewrite <- (other_row_known_year id name tops i a y Ha Hy).
    do 5 (destruct i as [ | i ]; [ reflexivity | ]). lia.
  - constructor.
    + destruct chosen as [p | ] eqn:Hp; cbn; [ | discriminate ].
      destruct (Hchosen p eq_refl) as (d & y & _ & _ & -> & Hy & _).
      cbn. rewrite score_document_year, Hy. apply String.eqb_neq, str_int_not_unknown.
    + apply Forall_forall. intros r Hr. apply in_map_iff in Hr.
      destruct Hr as (i & <- & _). apply other_row_REFYEAR.
Qed.

(** *** The retry loop of [call_llm_for_analysis] *)

Lemma llm_attempts_answer reply n delay : forall k remaining v,
  (remaining <= n)%nat ->
  (forall j, (n - remaining <= j < n - remaining + k)%nat -> reply j = Raises) ->
  reply (n - remaining + k)%nat = Replies v ->
  (n - remaining + k < n)%nat ->
  fst (llm_attempts reply n delay remaining) = v
  /\ llm_calls (snd (llm_attempts reply n delay remaining)) = S k
  /\ sleeps (snd (llm_attempts reply n delay remaining)) = repeat delay k.
Proof.
  induction k as [ | k IH ]; intros remaining v Hle Hfail Hans Hlt.
  - destruct remaining as [ | remaining ]; [ lia | ]. cbn [llm_attempts].
    rewrite Nat.add_0_r in Hans. rewrite Hans. repeat split.
  - destruct remaining as [ | remaining ]; [ lia | ]. cbn [llm_attempts].
    rewrite (Hfail (n - S remaining)%nat) by lia.
    assert (Hstep : (n - remaining = S (n - S remaining))%nat) by lia.
    destruct (IH remaining v) as (Hv & Hc & Hs); try lia.
    + intros j Hj. apply Hfail. lia.
    + rewrite Hstep. cbn [Nat.add]. now rewrite <- Nat.add_succ_r.
    + destruct (llm_attempts reply n delay remaining) as [v' events].
      cbn [fst snd] in *.
      destruct (Nat.ltb_spec (n - S remaining) (n - 1)); [ | lia ].
      unfold llm_calls, sleeps in *. cbn [app filter flat_map List.length repeat].
      rewrite Hc, Hs. auto.
Qed.

Lemma llm_attempts_all_fail reply n delay : forall remaining,
  (remaining <= n)%nat ->
  (forall j, (n - remaining <= j < n)%nat -> reply j = Raises) ->
  fst (llm_attempts reply n delay remaining) = PDict []
  /\ llm_calls (snd (llm_attempts reply n delay remaining)) = remaining
  /\ sleeps (snd (llm_attempts reply n delay remaining)) = repeat delay (Nat.pred remaining).
Proof.
  induction remaining as [ | remaining IH ]; intros Hle Hfail; cbn [llm_attempts].
  - repeat split.
  - rewrite (Hfail (n - S remaining)%nat) by lia.
    destruct IH as (Hv & Hc & Hs); try lia.
    + intros j Hj. apply Hfail. lia.
    + destruct (llm_attempts reply n delay remaining) as [v' events].
      cbn [fst snd] in *. unfold llm_calls, sleeps in *.
      destruct (Nat.ltb_spec (n - S remaining) (n - 1));
        cbn [app filter flat_map List.length repeat Nat.pred];
        rewrite Hc, Hs; repeat split; auto.
      * destruct remaining as [ | remaining ]; [ lia | reflexivity ].
      * assert (remaining = 0%nat) as -> by lia. reflexivity.
Qed.



(** *** The year fields of a record (lines 183-191) *)

Lemma dict_get_set_same (d : dict) k v : dict_get (dict_set d k v) k = Some v.
Proof.
  induction d as [ | [k' v'] d IH ]; cbn.
  - now rewrite String.eqb_refl.
  - destruct (String.eqb_spec k' k) as [ -> | Hne ]; cbn.
    + now rewrite String.eqb_refl.
    + apply String.eqb_neq in Hne. now rewrite Hne.
Qed.

Lemma dict_get_set_other (d : dict) k k' v :
  k <> k' -> dict_get (dict_set d k v) k' = dict_get d k'.
Proof.
  intros Hne. induction d as [ | [k0 v0] d IH ]; cbn.
  - apply String.eqb_neq in Hne. now rewrite Hne.
  - destruct (String.eqb_spec k0 k) as [ -> | Hne0 ]; cbn.
    + apply String.eqb_neq in Hne. now rewrite Hne.
    + destruct (k0 =? k')%string; auto.
Qed.



(** *** A year written in digits is read back *)

Lemma digits_value_step c rest acc b :
  is_digit c = true ->
  digits_value (String c rest) acc b = digits_value rest (10 * acc + digit_value c) true.
Proof.
  intros H. cbn [digits_value]. now rewrite H.
Qed.

Ltac digit_step :=
  cbn [NilEmpty.string_of_uint];
  rewrite digits_value_step by reflexivity;
  match goal with
  | |- context [digit_value ?c] =>
      let v := eval vm_compute in (digit_value c) in
      change (digit_value c) with v
  end.

Lemma digits_value_acc : forall d p,
  digits_value (NilEmpty.string_of_uint d) (Z.pos p) true
  = Some (Z.pos (Pos.of_uint_acc d p)).
Proof.
  induction d as [ | d IH | d IH | d IH | d IH | d IH | d IH | d IH | d IH | d IH | d IH ];
    intros p; [ reflexivity | .. ];
    digit_step; cbn [Pos.of_uint_acc]; rewrite <- IH; f_equal; lia.
Qed.

Lemma digits_value_uint : forall d b,
  d <> Decimal.Nil \/ b = true ->
  digits_value (NilEmpty.string_of_uint d) 0 b = Some (Z.of_N (Pos.of_uint d)).
Proof.
  induction d as [ | d IH | d IH | d IH | d IH | d IH | d IH | d IH | d IH | d IH | d IH ];
    intros b Hb.
  - destruct Hb as [Hb | ->]; [ congruence | reflexivity ].
  - digit_step. cbn [Pos.of_uint]. change (10 * 0 + 0) with 0. apply IH. now right.
  - digit_step. cbn [Pos.of_uint]. apply (digits_value_acc d 1).
  - digit_step. cbn [Pos.of_uint]. apply (digits_value_acc d 2).
  - digit_step. cbn [Pos.of_uint]. apply (digits_value_acc d 3).
  - digit_step. cbn [Pos.of_uint]. apply (digits_value_acc d 4).
  - digit_step. cbn [Pos.of_uint]. apply (digits_value_acc d 5).
  - digit_step. cbn [Pos.of_uint]. apply (digits_value_acc d 6).
  - digit_step. cbn [Pos.of_uint]. apply (digits_value_acc d 7).
  - digit_step. cbn [Pos.of_uint]. apply (digits_value_acc d 8).
  - digit_step. cbn [Pos.of_uint]. apply (digits_value_acc d 9).
Qed.

Lemma substring_all (s : string) : substring 0 (String.length s) s = s.
Proof.
  induction s as [ | c s IH ]; cbn; [ reflexivity | now rewrite IH ].
Qed.

Lemma rstrip_length_uint (d : Decimal.uint) :
  rstrip_length (NilEmpty.string_of_uint d) = String.length (NilEmpty.string_of_uint d).
Proof.
  induction d; cbn [NilEmpty.string_of_uint rstrip_length String.length];
    [ reflexivity | .. ];
    rewrite IHd; destruct (String.length (NilEmpty.string_of_uint d)); reflexivity.
Qed.

Lemma strip_uint (d : Decimal.uint) :
  strip (NilEmpty.string_of_uint d) = NilEmpty.string_of_uint d.
Proof.
  unfold strip.
  assert (Hl : lstrip (NilEmpty.string_of_uint d) = NilEmpty.string_of_uint d)
    by (destruct d; reflexivity).
  rewrite Hl, rstrip_length_uint. apply substring_all.
Qed.

Lemma strip_minus_uint (d : Decimal.uint) :
  strip (String "-" (NilEmpty.string_of_uint d)) = String "-" (NilEmpty.string_of_uint d).
Proof.
  unfold strip.
  change (lstrip (String "-" (NilEmpty.string_of_uint d)))
    with (String "-" (NilEmpty.string_of_uint d)).
  assert (Hr : rstrip_length (String "-" (NilEmpty.string_of_uint d))
               = String.length (String "-" (NilEmpty.string_of_uint d))).
  { cbn [rstrip_length String.length]. rewrite rstrip_length_uint.
    destruct (String.length (NilEmpty.string_of_uint d)); reflexivity. }
  rewrite Hr. apply substring_all.
Qed.

Lemma int_of_str_uint (d : Decimal.uint) :
  d <> Decimal.Nil ->
  int_of_str (NilEmpty.string_of_uint d) = ret (Z.of_N (Pos.of_uint d)).
Proof.
  intros Hd. unfold int_of_str. rewrite strip_uint.
  assert (Hbody : match NilEmpty.string_of_uint d with
                  | String "-" rest => option_map Z.opp (digits_value rest 0 false)
                  | String "+" rest => digits_value rest 0 false
                  | t => digits_value t 0 false
                  end = digits_value (NilEmpty.string_of_uint d) 0 false)
    by (destruct d; reflexivity).
  rewrite Hbody, digits_value_uint by now left. reflexivity.
Qed.

Lemma int_of_str_str_int (z : Z) : int_of_str (str_int z) = ret z.
Proof.
  unfold str_int. destruct z as [ | p | p ]; cbn [Z.to_int NilEmpty.string_of_int].
  - reflexivity.
  - rewrite int_of_str_uint by apply DecimalPos.Unsigned.to_uint_nonnil.
    now rewrite DecimalPos.Unsigned.of_to.
  - unfold int_of_str. rewrite strip_minus_uint.
    rewrite digits_value_uint by (left; apply DecimalPos.Unsigned.to_uint_nonnil).
    now rewrite DecimalPos.Unsigned.of_to.
Qed.

(** X9.  When the answer gives [ref_year] as the decimal text of an
    integer (below the interpreter's limit of 4300 digits), the record
    gets that integer as [ref_year_int] and keeps the text as
    [llm_ref_year_str]. *)
Theorem year_text_is_read_back :
  forall doc_info z,
    Z.abs z < 10 ^ 4300 ->
    dict_get doc_info "ref_year" = Some (PStr (str_int z)) ->
    exists d',
      set_ref_year doc_info = ret d'
      /\ dict_get d' "ref_year_int" = Some (PInt z)
      /\ dict_get d' "llm_ref_year_str" = Some (PStr (str_int z)).
Proof.
  intros doc_info z _ Hget. unfold set_ref_year. rewrite Hget.
  cbn [differs_from_str]. rewrite str_int_not_unknown. cbn [negb py_int].
  rewrite int_of_str_str_int. eexists. split; [ reflexivity | ]. split.
  - apply dict_get_set_same.
  - rewrite dict_get_set_other by discriminate. apply dict_get_set_same.
Qed.

(** X9, witness: the year 2023. *)
Lemma year_text_is_read_back_witness :
  exists d',
    set_ref_year [("url", PStr "https://a.example/r.pdf"); ("ref_year", PStr "2023")] = ret d'
    /\ dict_get d' "ref_year_int" = Some (PInt 2023)
    /\ dict_get d' "llm_ref_year_str" = Some (PStr "2023").
Proof.
  apply (year_text_is_read_back
           [("url", PStr "https://a.example/r.pdf"); ("ref_year", PStr "2023")] 2023);
    reflexivity.
Defined.

(** *** The analysis loop (lines 166-193) *)

Lemma dict_set_keeps (d : dict) k k' v :
  dict_get d k <> None -> dict_get (dict_set d k' v) k <> None.
Proof.
  intros H. destruct (string_dec k' k) as [ -> | Hne ].
  - now rewrite dict_get_set_same.
  - now rewrite dict_get_set_other.
Qed.

Lemma fold_dict_set_keeps k : forall (kvs : list (string * pyval)) (d : dict),
  dict_get d k <> None ->
  dict_get (fold_left (fun acc kv => dict_set acc (fst kv) (snd kv)) kvs d) k <> None.
Proof.
  induction kvs as [ | kv kvs IH ]; intros d H; cbn [fold_left]; auto.
  apply IH. now apply dict_set_keeps.
Qed.

Lemma update_from_item_keeps k d item d' :
  update_from_item d item = inr d' -> dict_get d k <> None -> dict_get d' k <> None.
Proof.
  unfold update_from_item, ret, raise. intros H Hk.
  repeat match type of H with
         | inl _ = inr _ => discriminate H
         | context [match ?x with _ => _ end] => destruct x
         | inr _ = inr _ => injection H as <-
         end;
    auto using dict_set_keeps.
Qed.

Lemma update_from_items_keeps k : forall items d d',
  update_from_items d items = inr d' -> dict_get d k <> None -> dict_get d' k <> None.
Proof.
  induction items as [ | item items IH ]; intros d d' H Hk; cbn in H.
  - now injection H as <-.
  - destruct (update_from_item d item) as [e | d1] eqn:H1; cbn in H; [ discriminate | ].
    eapply IH; eauto using update_from_item_keeps.
Qed.

Lemma dict_update_keeps k d other d' :
  dict_update d other = inr d' -> dict_get d k <> None -> dict_get d' k <> None.
Proof.
  unfold dict_update, ret, raise. intros H Hk. destruct other; try discriminate.
  - destruct s; [ now injection H as <- | discriminate ].
  - eauto using update_from_items_keeps.
  - injection H as <-. now apply fold_dict_set_keeps.
Qed.

Lemma set_ref_year_keeps k d d' :
  set_ref_year d = inr d' -> dict_get d k <> None -> dict_get d' k <> None.
Proof.
  unfold set_ref_year, ret, raise. intros H Hk.
  repeat match type of H with
         | inl _ = inr _ => discriminate H
         | inr _ = inr _ => injection H as <-
         | context [if ?x then _ else _] => destruct x
         | context [match py_int ?x with _ => _ end] => destruct (py_int x) as [ [ | | | ] | ]
         end;
    auto using dict_set_keeps.
Qed.

Lemma llm_calls_app (a b : list event) :
  llm_calls (a ++ b) = (llm_calls a + llm_calls b)%nat.
Proof.
  unfold llm_calls. now rewrite filter_app, length_app.
Qed.

Lemma analyze_url_calls w url :
  (llm_calls (snd (analyze_url w url)) <= if fetch_failed w url then 0 else 3)%nat.
Proof.
  unfold analyze_url, fetch_failed. destruct (fetch w url) as [title snippet].
  destruct ((title =? "Fetch Error")%string || (title =? "Processing Error")%string).
  - cbn. lia.
  - pose proof (llm_attempts_events (llm w url) 3 2 3) as (Hc & _ & _).
    fold (call_llm_for_analysis w url) in Hc.
    destruct (call_llm_for_analysis w url) as [llm_result events].
    destruct (negb (truthy llm_result)); exact Hc.
Qed.

Lemma analyze_url_record w url d events :
  analyze_url w url = (inr d, events) ->
  dict_get d "url" <> None
  /\ (fetch_failed w url = true ->
      d = error_record url (snd (fetch w url)) /\ events = []).
Proof.
  unfold analyze_url, fetch_failed, error_record.
  destruct (fetch w url) as [title snippet]. cbn [snd].
  destruct ((title =? "Fetch Error")%string || (title =? "Processing Error")%string).
  - intros [= <- <-]. split; [ discriminate | auto ].
  - destruct (call_llm_for_analysis w url) as [llm_result events'].
    destruct (negb (truthy llm_result)).
    + intros [= <- <-]. split; [ discriminate | discriminate ].
    + intros [= H <-]. split; [ | discriminate ].
      destruct (dict_update [("url", PStr url); ("llm_ref_year_str", PStr "UNKNOWN")]
                            llm_result) as [e | d1] eqn:Hupd; cbn in H; [ discriminate | ].
      eapply set_ref_year_keeps; [ exact H | ].
      eapply dict_update_keeps; [ exact Hupd | discriminate ].
Qed.

(** X10.  The analysis loop calls the model at most three times for each
    URL whose fetch succeeded and never for another.  When no exception
    leaves the loop there is one record per URL, in the order of the URLs;
    each has a [url] key; the record of a URL whose fetch failed is the
    error record made of the fetch's message, and nothing else happened
    for it. *)
Theorem analysis_one_record_per_url :
  forall w urls,
    (llm_calls (snd (analyze_urls w urls))
     <= 3 * List.length (filter (fun u => negb (fetch_failed w u)) urls))%nat
    /\ (forall docs,
          fst (analyze_urls w urls) = inr docs ->
          Forall2 (fun u d =>
                     dict_get d "url" <> None
                     /\ (fetch_failed w u = true ->
                         d = error_record u (snd (fetch w u))
                         /\ snd (analyze_url w u) = []))
                  urls docs).
Proof.
  intros w. induction urls as [ | u urls IH ]; cbn [analyze_urls filter].
  - split; [ cbn; lia | ]. intros docs [= <-]. constructor.
  - pose proof (analyze_url_calls w u) as Hcalls.
    pose proof (analyze_url_record w u) as Hrec.
    destruct (analyze_url w u) as [[e | d] events] eqn:Hau; cbn [snd] in *.
    + split; [ | discriminate ].
      destruct (fetch_failed w u); cbn [negb List.length]; lia.
    + destruct IH as [IHc IHd].
      destruct (analyze_urls w urls) as [r events']. cbn [fst snd] in *.
      split.
      * rewrite llm_calls_app.
        destruct (fetch_failed w u); cbn [negb List.length]; lia.
      * intros docs Hdocs. destruct r as [e | ds]; cbn in Hdocs; [ discriminate | ].
        injection Hdocs as <-. constructor; [ | now apply IHd ].
        destruct (Hrec d events eq_refl) as [Hurl Hfail]. split; [ exact Hurl | ].
        intros Hf. rewrite Hau. exact (Hfail Hf).
Qed.

(** *** Where a record's URL comes from (lines 180-181) *)

Lemma dict_get_absent (kvs : dict) k : ~ In k (map fst kvs) -> dict_get kvs k = None.
Proof.
  induction kvs as [ | [k' v'] kvs IH ]; cbn; [ reflexivity | ].
  intros H. destruct (String.eqb_spec k' k) as [ -> | Hne ]; [ tauto | ].
  apply IH. tauto.
Qed.

Lemma fold_dict_set_get k : forall (kvs : list (string * pyval)) (d : dict),
  NoDup (map fst kvs) ->
  dict_get (fold_left (fun acc kv => dict_set acc (fst kv) (snd kv)) kvs d) k
  = match dict_get kvs k with
    | Some v => Some v
    | None => dict_get d k
    end.
Proof.
  induction kvs as [ | [k0 v0] kvs IH ]; intros d Hnd; cbn [fold_left]; [ reflexivity | ].
  cbn [map fst] in Hnd. inversion Hnd as [ | ? ? Hnotin Hnd' ]; subst.
  rewrite IH by exact Hnd'. cbn [fst snd dict_get].
  destruct (String.eqb_spec k0 k) as [ -> | Hne ].
  - rewrite (dict_get_absent kvs k Hnotin). apply dict_get_set_same.
  - destruct (dict_get kvs k); [ reflexivity | ]. now apply dict_get_set_other.
Qed.

Lemma set_ref_year_other k d d' :
  set_ref_year d = inr d' ->
  k <> "ref_year_int" -> k <> "llm_ref_year_str" ->
  dict_get d' k = dict_get d k.
Proof.
  unfold set_ref_year, ret, raise. intros H Hk1 Hk2.
  repeat match type of H with
         | inl _ = inr _ => discriminate H
         | inr _ = inr _ => injection H as <-
         | context [if ?x then _ else _] => destruct x
         | context [match py_int ?x with _ => _ end] => destruct (py_int x) as [ [ | | | ] | ]
         end;
    now rewrite !dict_get_set_other by congruence.
Qed.

(** X11.  The record of a URL whose fetch succeeded carries that URL
    unless the answer of the model has a [url] key of its own:
    [doc_info.update(llm_result)] then replaces the URL by the answer's
    value, whatever it is. *)
Theorem answer_can_replace_url :
  forall w u kvs d events,
    fetch_failed w u = false ->
    fst (call_llm_for_analysis w u) = PDict kvs ->
    NoDup (map fst kvs) ->
    analyze_url w u = (inr d, events) ->
    dict_get d "url" = Some (match dict_get kvs "url" with
                             | Some v => v
                             | None => PStr u
                             end).
Proof.
  intros w u kvs d events. unfold analyze_url, fetch_failed.
  destruct (fetch w u) as [title snippet]. intros -> Hans Hnd.
  destruct (call_llm_for_analysis w u) as [llm_result events']. cbn [fst] in Hans.
  subst llm_result. destruct kvs as [ | kv kvs ].
  - cbn. now intros [= <- <-].
  - cbn [truthy negb]. remember (kv :: kvs) as answer eqn:Hanswer.
    cbn [dict_update bind ret]. intros [= H <-].
    apply set_ref_year_other with (k := "url") in H; try discriminate.
    rewrite H, fold_dict_set_get by exact Hnd.
    destruct (dict_get answer "url"); reflexivity.
Qed.

(** X11, witness: an answer that names another URL. *)
Lemma answer_can_replace_url_witness :
  let w := mkWorld (fun _ => ("Title", "text"))
                   (fun _ _ => Replies (PDict [("url", PStr "https://b.example/");
                                               ("ref_year", PStr "2023")])) in
  exists d events,
    analyze_url w "https://a.example/" = (inr d, events)
    /\ dict_get d "url" = Some (PStr "https://b.example/").
Proof.
  cbv zeta. eexists. eexists. split.
  - vm_compute. reflexivity.
  - apply (answer_can_replace_url
             (mkWorld (fun _ => ("Title", "text"))
                      (fun _ _ => Replies (PDict [("url", PStr "https://b.example/");
                                                  ("ref_year", PStr "2023")])))
             "https://a.example/"
             [("url", PStr "https://b.example/"); ("ref_year", PStr "2023")]
             _ [LlmCall 0]).
    + reflexivity.
    + reflexivity.
    + repeat constructor; cbn; intuition discriminate.
    + vm_compute. reflexivity.
Defined.

(* ================================================================== *)
(** ** Facts about the loop over the companies *)
(* ================================================================== *)

Import Text MainLoop.

(** *** Grouping the input rows (lines 355-363) *)

Lemma add_row_keys_old company_data row :
  In (row_ID row) (map fst company_data) ->
  map fst (add_row company_data row) = map fst company_data.
Proof.
  induction company_data as [ | [k d] cd IH ]; cbn [add_row map fst In]; [ tauto | ].
  intros Hin. destruct (String.eqb_spec k (row_ID row)) as [Heq | Hne ]; [ reflexivity | ].
  cbn [map fst]. f_equal. apply IH. destruct Hin; [ contradiction | assumption ].
Qed.

Lemma add_row_keys_new company_data row :
  ~ In (row_ID row) (map fst company_data) ->
  map fst (add_row company_data row) = (map fst company_data ++ [row_ID row])%list.
Proof.
  induction company_data as [ | [k d] cd IH ]; cbn [add_row map fst app]; [ reflexivity | ].
  intros Hin. destruct (String.eqb_spec k (row_ID row)) as [Heq | Hne ];
    [ exfalso; apply Hin; now left | ].
  cbn [map fst]. f_equal. apply IH. intros H. apply Hin. now right.
Qed.

Lemma company_data_snoc rows row :
  company_data (rows ++ [row]) = add_row (company_data rows) row.
Proof.
  unfold company_data. now rewrite fold_left_app.
Qed.

Lemma company_data_keys rows :
  map fst (company_data rows) = rev (nodup string_dec (rev (map row_ID rows))).
Proof.
  induction rows as [ | row rows IH ] using rev_ind; [ reflexivity | ].
  rewrite company_data_snoc, map_app, rev_app_distr. cbn [map rev app nodup].
  destruct (in_dec string_dec (row_ID row) (rev (map row_ID rows))) as [Hin | Hnotin].
  - rewrite add_row_keys_old; [ exact IH | ].
    rewrite IH, <- in_rev. now apply nodup_In.
  - rewrite add_row_keys_new.
    + cbn [rev]. now rewrite IH.
    + rewrite IH, <- in_rev, nodup_In. exact Hnotin.
Qed.

Lemma company_data_keys_In rows id :
  In id (map fst (company_data rows)) <-> In id (map row_ID rows).
Proof.
  rewrite company_data_keys, <- in_rev, nodup_In, <- in_rev. tauto.
Qed.

Lemma company_data_keys_NoDup rows : NoDup (map fst (company_data rows)).
Proof.
  rewrite company_data_keys. apply NoDup_rev, NoDup_nodup.
Qed.

Lemma add_row_In company_data row id data' :
  NoDup (map fst company_data) ->
  In (id, data') (add_row company_data row) ->
  (id <> row_ID row /\ In (id, data') company_data)
  \/ (id = row_ID row
      /\ exists data, In (id, data) company_data
                      /\ data' = mkCompanyEntry (entry_NAME data)
                                                (original_rows data ++ [row]))
  \/ (id = row_ID row /\ ~ In id (map fst company_data)
      /\ data' = mkCompanyEntry (row_NAME row) [row]).
Proof.
  induction company_data as [ | [k d] cd IH ]; cbn [add_row map fst]; intros Hnd Hin.
  - destruct Hin as [[= <- <-] | []]. right. right. auto.
  - inversion Hnd as [ | ? ? Hk Hnd' ]; subst.
    destruct (String.eqb_spec k (row_ID row)) as [Heq | Hne ].
    + destruct Hin as [[= <- <-] | Hin].
      * right. left. split; [ exact Heq | ]. exists d. split; [ now left | reflexivity ].
      * left. split; [ | now right ].
        intros ->. apply Hk. rewrite Heq. apply in_map_iff. now exists (row_ID row, data').
    + destruct Hin as [[= <- <-] | Hin].
      * left. split; [ exact Hne | now left ].
      * destruct (IH Hnd' Hin) as [[H1 H2] | [(H1 & data & H2 & H3) | (H1 & H2 & H3)]].
        -- left. split; [ exact H1 | now right ].
        -- right. left. split; [ exact H1 | ]. exists data. split; [ now right | exact H3 ].
        -- right. right. split; [ exact H1 | ]. split; [ | exact H3 ].
           cbn [In]. intros [-> | Hin']; [ now apply Hne | now apply H2 ].
Qed.

Lemma filter_none_by_id rows id :
  ~ In id (map row_ID rows) -> filter (fun r => (row_ID r =? id)%string) rows = [].
Proof.
  induction rows as [ | r rows IH ]; cbn [map filter In]; [ reflexivity | ].
  intros H. destruct (String.eqb_spec (row_ID r) id) as [Heq | Hne ];
    [ exfalso; apply H; now left | ].
  apply IH. intros H'. apply H. now right.
Qed.

Lemma company_data_entries rows : forall id data,
  In (id, data) (company_data rows) ->
  original_rows data = filter (fun r => (row_ID r =? id)%string) rows
  /\ exists r rest, original_rows data = r :: rest /\ entry_NAME data = row_NAME r.
Proof.
  induction rows as [ | row rows IH ] using rev_ind; intros id data Hin; [ destruct Hin | ].
  rewrite company_data_snoc in Hin.
  apply add_row_In in Hin; [ | apply company_data_keys_NoDup ].
  rewrite filter_app. cbn [filter].
  destruct Hin as [[Hne Hin] | [(-> & d & Hin & ->) | (-> & Hnew & ->)]].
  - apply not_eq_sym, String.eqb_neq in Hne. rewrite Hne, app_nil_r. now apply IH.
  - rewrite String.eqb_refl. cbn [original_rows entry_NAME].
    destruct (IH _ _ Hin) as (Hrows & r & rest & Hhead & Hname).
    split; [ now rewrite Hrows | ].
    exists r, (rest ++ [row])%list. split; [ now rewrite Hhead | exact Hname ].
  - rewrite String.eqb_refl. cbn [original_rows entry_NAME].
    rewrite company_data_keys_In in Hnew.
    rewrite (filter_none_by_id rows (row_ID row) Hnew).
    split; [ reflexivity | ]. exists row, []. auto.
Qed.

(** X12.  Reading the input groups the rows by [ID]: the keys of
    [company_data] are the IDs of the input in the order of their first
    appearance, each once; the rows kept under an ID are the input rows
    with that ID, in their order; and the name of a company is the [NAME]
    of the first row with its ID, whatever the later rows say. *)
Theorem company_data_groups_rows :
  forall rows : list InputRow,
    map fst (company_data rows) = rev (nodup string_dec (rev (map row_ID rows)))
    /\ NoDup (map fst (company_data rows))
    /\ (forall id, In id (map fst (company_data rows)) <-> In id (map row_ID rows))
    /\ (forall id data,
          In (id, data) (company_data rows) ->
          original_rows data = filter (fun r => (row_ID r =? id)%string) rows
          /\ exists r rest, original_rows data = r :: rest
                            /\ entry_NAME data = row_NAME r).
Proof.
  intros rows. split; [ apply company_data_keys | ].
  split; [ apply company_data_keys_NoDup | ].
  split; [ intros id; apply company_data_keys_In | apply company_data_entries ].
Qed.

(** *** The rows written (lines 365-489) *)

Lemma rows_of_company_shape search scrape listing analyzed id data :
  map (fun r => (ID r, NAME r, TYPE r))
      (rows_of_company search scrape listing analyzed id data)
  = (id, entry_NAME data, "FIN_REP") :: repeat (id, entry_NAME data, "OTHER") 5.
Proof.
  unfold rows_of_company.
  destruct (all_discovered_urls_for_company search scrape id (entry_NAME data));
    [ reflexivity | ].
  destruct (process_company_urls analyzed _) as [best tops].
  cbn [output_csv_rows map seq repeat]. unfold other_row.
  destruct best;
    repeat match goal with
           | |- context [nth_error ?l ?i] => destruct (nth_error l i)
           end;
    reflexivity.
Qed.

Lemma map_flat_map_rows {A B C : Type} (f : B -> C) (g : A -> list B) (l : list A) :
  map f (flat_map g l) = flat_map (fun x => map f (g x)) l.
Proof.
  induction l as [ | x l IH ]; cbn [flat_map map]; [ reflexivity | ].
  now rewrite map_app, IH.
Qed.

Lemma flat_map_length_six {A B : Type} (g : A -> list B) (l : list A) :
  (forall x, List.length (g x) = 6%nat) ->
  List.length (flat_map g l) = (6 * List.length l)%nat.
Proof.
  intros H. induction l as [ | x l IH ]; cbn [flat_map List.length]; [ reflexivity | ].
  rewrite length_app, H, IH. lia.
Qed.

Lemma nodup_rev_length (l : list string) :
  List.length (nodup string_dec (rev l)) = List.length (nodup string_dec l).
Proof.
  apply Permutation_length, NoDup_Permutation; try apply NoDup_nodup.
  intros x. rewrite !nodup_In, <- in_rev. tauto.
Qed.

Lemma rows_of_company_run_shape search scrape listing classify id data rows :
  rows_of_company_run search scrape listing classify id data = ret rows ->
  map (fun r => (ID r, NAME r, TYPE r)) rows
  = (id, entry_NAME data, "FIN_REP") :: repeat (id, entry_NAME data, "OTHER") 5.
Proof.
  unfold rows_of_company_run, process_company_urls_run.
  destruct (all_discovered_urls_for_company search scrape id (entry_NAME data));
    [ intros [= <-]; reflexivity | ].
  destruct (classify _) as [e | docs]; cbn [bind ret]; [ discriminate | ].
  intros [= <-].
  destruct (select_documents docs) as [best tops].
  cbn [output_csv_rows map seq repeat]. unfold other_row.
  destruct best;
    repeat match goal with
           | |- context [nth_error ?l ?i] => destruct (nth_error l i)
           end;
    reflexivity.
Qed.

Lemma rows_of_company_run_returns search scrape listing classify id data :
  (forall urls, exists docs, classify urls = ret docs) ->
  exists rows, rows_of_company_run search scrape listing classify id data = ret rows.
Proof.
  intros Htotal. unfold rows_of_company_run, process_company_urls_run.
  destruct (all_discovered_urls_for_company search scrape id (entry_NAME data))
    as [ | u urls ]; [ eauto | ].
  destruct (Htotal (listing (u :: urls))) as (docs & ->). cbn [bind ret]. eauto.
Qed.

Lemma write_companies_spec search scrape listing classify :
  forall entries,
    exists done rest,
      entries = (done ++ rest)%list
      /\ map (fun r => (ID r, NAME r, TYPE r))
             (fst (write_companies search scrape listing classify entries))
         = flat_map (fun entry =>
                       (fst entry, entry_NAME (snd entry), "FIN_REP")
                       :: repeat (fst entry, entry_NAME (snd entry), "OTHER") 5)
                    done
      /\ match snd (write_companies search scrape listing classify entries) with
         | None => rest = []
         | Some e =>
             exists entry rest',
               rest = entry :: rest'
               /\ rows_of_company_run search scrape listing classify
                                      (fst entry) (snd entry) = raise e
         end.
Proof.
  induction entries as [ | entry entries IH ]; cbn [write_companies].
  - exists [], []. repeat split.
  - destruct (rows_of_company_run search scrape listing classify (fst entry) (snd entry))
      as [e | rows] eqn:Hrows.
    + exists [], (entry :: entries). cbn [fst snd app flat_map map].
      repeat split. exists entry, entries. auto.
    + destruct IH as (done & rest & Hsplit & Hmap & Hend).
      destruct (write_companies search scrape listing classify entries) as [more e].
      cbn [fst snd] in *. exists (entry :: done), rest.
      split; [ cbn [app]; now rewrite Hsplit | ]. split; [ | exact Hend ].
      rewrite map_app, Hmap. cbn [flat_map]. f_equal.
      destruct entry as [id data]. now apply rows_of_company_run_shape in Hrows.
Qed.


(** C1.  The code at two companies for which the searches find one
    URL, when the model answers [{"ref_year": null}] for it: the
    classification loop raises [TypeError] (line 186), line 448 has no
    [try], and [main] ends without a row for the first company or for the
    second. *)
Theorem rows_missing_when_classification_raises :
  let w := mkWorld (fun _ => ("Annual report", "text"))
                   (fun _ _ => Replies (PDict [("ref_year", PNone)])) in
  let search := fun (_ : string) (k : nat) (_ : string) =>
                  match k with
                  | O => ["https://x/2024.pdf"]
                  | _ => []
                  end in
  let scrape := fun (_ _ : string) => @None (list string) in
  let listing := fun urls : set string => urls in
  fst (analyze_urls w ["https://x/2024.pdf"]) = raise TypeError
  /\ forall classify : list string -> result (list Doc),
       classify ["https://x/2024.pdf"] = raise TypeError ->
       main search scrape listing classify true
            [mkInputRow "7" "Acme"; mkInputRow "8" "Bolt"]
       = Some ([], Some TypeError).
Proof.
  cbv zeta. split; [ vm_compute; reflexivity | ].
  intros classify Hraise. vm_compute.
  vm_compute in Hraise. rewrite Hraise. reflexivity.
Qed.

(** *** The URLs handed to the classification (lines 380-428) *)

Lemma add_all_In u : forall links urls,
  In u (add_all links urls) <-> In u links \/ In u urls.
Proof.
  unfold add_all. induction links as [ | link links IH ]; intros urls; cbn [fold_left In].
  - tauto.
  - rewrite IH, set_add_iff. intuition congruence.
Qed.

Lemma add_all_NoDup : forall links urls, NoDup urls -> NoDup (add_all links urls).
Proof.
  unfold add_all. induction links as [ | link links IH ]; intros urls H; cbn [fold_left].
  - exact H.
  - apply IH. now apply set_add_nodup.
Qed.

Lemma searches_In (f : nat -> string -> list string) u :
  forall (queries : list (nat * string)) (urls : set string),
    In u (fold_left (fun acc q => add_all (f (fst q) (snd q)) acc) queries urls)
    <-> (exists q, In q queries /\ In u (f (fst q) (snd q))) \/ In u urls.
Proof.
  induction queries as [ | q queries IH ]; intros urls; cbn [fold_left In].
  - split; [ tauto | ]. intros [(q & [] & _) | H]; exact H.
  - rewrite IH, add_all_In. split.
    + intros [(q' & Hq' & Hu) | [Hu | Hu]]; eauto.
    + intros [(q' & [<- | Hq'] & Hu) | Hu]; eauto.
Qed.

Lemma searches_NoDup (f : nat -> string -> list string) :
  forall (queries : list (nat * string)) (urls : set string),
    NoDup urls ->
    NoDup (fold_left (fun acc q => add_all (f (fst q) (snd q)) acc) queries urls).
Proof.
  induction queries as [ | q queries IH ]; intros urls H; cbn [fold_left]; auto.
  apply IH. now apply add_all_NoDup.
Qed.

Lemma enumerated_queries name k q :
  In (k, q) (combine (seq 0 7) (search_queries name))
  <-> nth_error (search_queries name) k = Some q.
Proof.
  unfold search_queries. cbn [combine seq In]. split.
  - intros H.
    repeat (destruct H as [[= <- <-] | H]; [ reflexivity | ]). destruct H.
  - intros H.
    do 7 (destruct k as [ | k ]; [ injection H as <-; tauto | ]).
    destruct k; discriminate H.
Qed.

(** X14.  The URLs handed to the classification are those returned by
    one of the seven searches or by the scrape of the website, each once.
    A scrape that raises adds nothing and loses nothing: the URLs of the
    searches stay. *)
Theorem discovered_urls_are_search_or_scrape :
  forall search scrape (id name : string),
    NoDup (all_discovered_urls_for_company search scrape id name)
    /\ (forall u,
          In u (all_discovered_urls_for_company search scrape id name)
          <-> (exists k q, nth_error (search_queries name) k = Some q
                           /\ In u (search id k q))
              \/ (exists urls, scrape id name = Some urls /\ In u urls)).
Proof.
  intros search scrape id name. unfold all_discovered_urls_for_company.
  assert (Hsearch : forall u,
            In u (fold_left (fun acc q => add_all (search id (fst q) (snd q)) acc)
                            (combine (seq 0 7) (search_queries name)) (empty_set string))
            <-> exists k q, nth_error (search_queries name) k = Some q
                            /\ In u (search id k q)).
  { intros u. rewrite searches_In. split.
    - intros [([k q] & Hq & Hu) | []]. exists k, q.
      split; [ now apply enumerated_queries | exact Hu ].
    - intros (k & q & Hq & Hu). left. exists (k, q).
      split; [ now apply enumerated_queries | exact Hu ]. }
  split.
  - destruct (scrape id name); [ apply add_all_NoDup | ];
      apply searches_NoDup; constructor.
  - intros u. destruct (scrape id name) as [urls | ].
    + rewrite add_all_In, Hsearch. split.
      * intros [H | H]; [ right; eauto | now left ].
      * intros [H | (urls' & [= <-] & H)]; [ now right | now left ].
    + rewrite Hsearch. split; [ now left | ].
      intros [H | (urls' & [=] & _)]. exact H.
Qed.

(** *** From the searches to the rows *)

Lemma output_urls_In docs u :
  In u (output_urls (select_documents docs)) -> In u (map url docs).
Proof.
  unfold output_urls. rewrite map_app, in_app_iff. intros [H | H].
  - destruct (fst (select_documents docs)) as [p | ] eqn:Hp; [ | destruct H ].
    rewrite select_documents_eq in Hp. cbn [fst] in Hp.
    apply chosen_fin_rep_origin in Hp. destruct Hp as (d & y & Hd & _ & -> & _).
    destruct H as [<- | []]. cbn [set_final_type url].
    rewrite score_document_url. now apply in_map.
  - apply in_map_iff in H. destruct H as (a & <- & Ha).
    assert (Hcopy : exists d, In d docs /\ url a = url d).
    { apply alternates_In in Ha.
      destruct Ha as [[Hpool _] | (d & Hd & _ & ->)].
      - apply unsorted_pool_In in Hpool.
        destruct Hpool as [(f & Hf & _ & ->) | (o & Ho & _ & ->)].
        + apply sorted_fin_reps_In in Hf. destruct Hf as (d & Hd & _ & ->).
          exists d. split; [ exact Hd | ].
          destruct (copy_of_demote _ _ (copy_of_score_document d)) as [Hurl _].
          exact Hurl.
        + apply other_sources_In in Ho. destruct Ho as (d & Hd & _ & ->).
          exists d. split; [ exact Hd | ].
          destruct (copy_of_set_final_type _ _ OTHER (copy_of_score_document d))
            as [Hurl _].
          exact Hurl.
      - exists d. split; [ exact Hd | ].
        destruct (copy_of_set_final_type _ _ OTHER (copy_of_score_document d))
          as [Hurl _].
        exact Hurl. }
    destruct Hcopy as (d & Hd & ->). now apply in_map.
Qed.

(** X15.  When the interpreter enumerates the set of URLs in some order
    and the classification returns one record for each URL, carrying that
    URL, every URL written as [SRC] for a company was found for that
    company by a search or by the scrape, and none is written twice. *)
Theorem written_urls_were_discovered :
  forall search scrape listing analyzed (id : string) (data : CompanyEntry),
    (forall urls, Permutation (listing urls) urls) ->
    (forall urls, map url (analyzed urls) = urls) ->
    let rows := rows_of_company search scrape listing analyzed id data in
    (forall r, In r rows -> SRC r <> "" ->
               In (SRC r) (all_discovered_urls_for_company search scrape id
                                                            (entry_NAME data)))
    /\ NoDup (filter nonempty (map SRC rows)).
Proof.
  intros search scrape listing analyzed id data Hperm Hurl. cbv zeta.
  unfold rows_of_company.
  destruct (all_discovered_urls_for_company search scrape id (entry_NAME data))
    as [ | u0 urls ] eqn:Hfound.
  - split; [ | cbn; constructor ].
    intros r Hr Hsrc. exfalso. apply Hsrc.
    unfold empty_rows in Hr. apply in_map_iff in Hr. now destruct Hr as (i & <- & _).
  - set (found := u0 :: urls) in *. unfold process_company_urls.
    pose proof (alternates_length (analyzed (listing found))) as Hlen.
    pose proof (selection_urls_NoDup (analyzed (listing found))) as Hnd.
    pose proof (output_urls_In (analyzed (listing found))) as Hin.
    unfold output_urls in Hin.
    destruct (select_documents (analyzed (listing found))) as [chosen tops].
    cbn [fst snd] in *.
    assert (Hrows := rows_SRC_nonempty id (entry_NAME data) chosen tops Hlen).
    split.
    + intros r Hr Hsrc.
      assert (Hf : In (SRC r)
                      (filter nonempty
                              (map SRC (output_csv_rows id (entry_NAME data)
                                                        (chosen, tops))))).
      { apply filter_In. split; [ now apply in_map | ].
        unfold nonempty. apply negb_true_iff. now apply String.eqb_neq. }
      rewrite Hrows in Hf. apply filter_In in Hf. destruct Hf as [Hf _].
      apply Hin in Hf. rewrite Hurl in Hf.
      now apply (Permutation_in _ (Hperm found)).
    + rewrite Hrows. now apply NoDup_filter.
Qed.

(** X15, witness: one search result, classified as a report of 2023. *)
Lemma written_urls_were_discovered_witness :
  let search := fun (_ : string) (k : nat) (_ : string) =>
                  match k with
                  | O => ["https://a.example/r.pdf"]
                  | _ => []
                  end in
  let scrape := fun (_ _ : string) => @None (list string) in
  let listing := fun urls : set string => urls in
  let analyzed := map (fun u => Samples.report u 2023) in
  let rows := rows_of_company search scrape listing analyzed "7"
                              (mkCompanyEntry "Acme" []) in
  (forall r, In r rows -> SRC r <> "" ->
             In (SRC r) (all_discovered_urls_for_company search scrape "7" "Acme"))
  /\ NoDup (filter nonempty (map SRC rows)).
Proof.
  cbv zeta.
  apply (written_urls_were_discovered
           (fun (_ : string) (k : nat) (_ : string) =>
              match k with
              | O => ["https://a.example/r.pdf"]
              | _ => []
              end)
           (fun (_ _ : string) => @None (list string))
           (fun urls : set string => urls)
           (map (fun u => Samples.report u 2023)) "7" (mkCompanyEntry "Acme" [])).
  - intros urls. apply Permutation_refl.
  - intros urls. rewrite map_map. cbn [Samples.report url]. apply map_id.
Defined.

(* ================================================================== *)
(** ** Facts about the score of a link *)
(* ================================================================== *)

Import Text Scraper Links.

Lemma recent_year_bonus_returns text href years b :
  recent_year_bonus text href years = ret b -> b = 0 \/ b = 2.
Proof.
  unfold recent_year_bonus.
  destruct (match search_any_year None text with
            | Some m => Some m
            | None => search_any_year None href
            end) as [m | ]; [ | intros [= <-]; now left ].
  destruct (int_of_str m) as [e | y]; cbn [bind]; [ discriminate | ].
  destruct years as [ | first rest ]; cbn [bind ret raise]; [ discriminate | ].
  destruct (int_of_str first) as [e | t]; cbn [bind ret]; [ discriminate | ].
  intros [= <-]. destruct (y >=? t - 5); auto.
Qed.

Ltac score_cases text href :=
  destruct (has_report_keyword text href), (is_pdf href),
           (has_secondary_keyword text href), (has_avoid_keyword text href).

(** X16.  For a link of ASCII text and href, and target years of
    letters and digits: whether the link is kept depends on six signals
    only: a target year (Y), else a recent year (R), a primary keyword
    (K), a [.pdf] href (P), a secondary keyword (S) and an avoid keyword.
    Without an avoid keyword it is kept exactly when Y or P or (R and K)
    or (K and S) holds; with one, exactly when two strong signals meet: Y
    with K, P or R, or P with K or R. *)
Theorem link_decision_table :
  forall (text href : string) (years : list string) (kept : bool),
    is_ascii text = true -> is_ascii href = true -> plain_years years = true ->
    is_candidate text href years = ret kept ->
    let Y := match find_target_year text href years with
             | Some _ => true
             | None => false
             end in
    let R := negb (truthy_opt_str (find_target_year text href years))
             && match recent_year_bonus text href years with
                | inr 2 => true
                | _ => false
                end in
    let K := has_report_keyword text href in
    let P := is_pdf href in
    let S := has_secondary_keyword text href in
    kept = if has_avoid_keyword text href
           then (Y && K) || (Y && P) || (Y && R) || (P && K) || (P && R)
           else Y || P || (R && K) || (K && S).
Proof.
  intros text href years kept _ _ _. cbv zeta. unfold is_candidate, link_score.
  destruct (find_target_year text href years) as [y | ];
    cbn [truthy_opt_str negb andb].
  - destruct (y =? "")%string; cbn [negb andb].
    + destruct (recent_year_bonus text href years) as [e | b] eqn:Hb;
        cbn [bind ret]; [ discriminate | ].
      apply recent_year_bonus_returns in Hb.
      destruct Hb as [-> | ->]; score_cases text href; intros [= <-]; reflexivity.
    + cbn [bind ret]. score_cases text href; intros [= <-]; reflexivity.
  - destruct (recent_year_bonus text href years) as [e | b] eqn:Hb;
      cbn [bind ret]; [ discriminate | ].
    apply recent_year_bonus_returns in Hb.
    destruct Hb as [-> | ->]; score_cases text href; intros [= <-]; reflexivity.
Qed.

(** X16, witness: a link to a PDF that names 2023. *)
Lemma link_decision_table_witness :
  let text := "annual report 2023" in
  let href := "/files/ar-2023.pdf" in
  let Y := match find_target_year text href TARGET_YEARS with
           | Some _ => true
           | None => false
           end in
  let R := negb (truthy_opt_str (find_target_year text href TARGET_YEARS))
           && match recent_year_bonus text href TARGET_YEARS with
              | inr 2 => true
              | _ => false
              end in
  let K := has_report_keyword text href in
  let P := is_pdf href in
  let S := has_secondary_keyword text href in
  true = if has_avoid_keyword text href
         then (Y && K) || (Y && P) || (Y && R) || (P && K) || (P && R)
         else Y || P || (R && K) || (K && S).
Proof.
  exact (link_decision_table "annual report 2023" "/files/ar-2023.pdf" TARGET_YEARS true
                             eq_refl eq_refl eq_refl eq_refl).
Defined.

(** X17.  The score of a link lies between -3 and 14, and is at most 12
    unless the empty string is a target year.  A [.pdf] link with a target
    year scores at least 8, so the second test of the decision, for such
    links with a score of 2 or more, never decides: a link is kept exactly
    when its score is at least 4. *)
Theorem link_kept_iff_score_at_least_4 :
  forall (text href : string) (years : list string) (score : Z) (year_found : option string),
    link_score text href years = ret (score, year_found) ->
    -3 <= score <= 14
    /\ (year_found <> Some "" -> score <= 12)
    /\ (is_pdf href = true -> truthy_opt_str year_found = true -> 8 <= score)
    /\ is_candidate text href years = ret (score >=? 4).
Proof.
  intros text href years score year_found. unfold is_candidate, link_score.
  destruct (find_target_year text href years) as [y | ];
    cbn [truthy_opt_str negb].
  - destruct (y =? "")%string eqn:Hy; cbn [negb].
    + apply String.eqb_eq in Hy. subst y.
      destruct (recent_year_bonus text href years) as [e | b] eqn:Hb;
        cbn [bind ret]; [ discriminate | ].
      apply recent_year_bonus_returns in Hb.
      destruct Hb as [-> | ->]; score_cases text href; intros [= <- <-];
        cbn; repeat split; intros; try discriminate; try congruence; try lia.
    + cbn [bind ret]. score_cases text href; intros [= <- <-];
        cbn; rewrite ?Hy; repeat split; intros; try discriminate; try lia.
  - destruct (recent_year_bonus text href years) as [e | b] eqn:Hb;
      cbn [bind ret]; [ discriminate | ].
    apply recent_year_bonus_returns in Hb.
    destruct Hb as [-> | ->]; score_cases text href; intros [= <- <-];
      cbn; repeat split; intros; try discriminate; try lia.
Qed.

(** X17, witness: the same link scores 12. *)
Lemma link_kept_iff_score_at_least_4_witness :
  -3 <= 12 <= 14
  /\ (Some "2023" <> Some "" -> 12 <= 12)
  /\ (is_pdf "/files/ar-2023.pdf" = true -> truthy_opt_str (Some "2023") = true -> 8 <= 12)
  /\ is_candidate "annual report 2023" "/files/ar-2023.pdf" TARGET_YEARS = ret (12 >=? 4).
Proof.
  exact (link_kept_iff_score_at_least_4 "annual report 2023" "/files/ar-2023.pdf"
                                        TARGET_YEARS 12 (Some "2023") eq_refl).
Defined.

(** *** When scoring a link raises *)

Lemma first_year_value text href m :
  match search_any_year None text with
  | Some m => Some m
  | None => search_any_year None href
  end = Some m ->
  exists v, int_of_str m = ret v.
Proof.
  rewrite first_match_text_or_href. intros H. apply hd_error_In in H.
  apply in_app_or in H.
  destruct H as [H | H]; apply years_in_value in H; destruct H as (v & Hv & _); eauto.
Qed.

Lemma is_candidate_of_bonus text href years :
  (exists b, recent_year_bonus text href years = ret b) ->
  exists kept, is_candidate text href years = ret kept.
Proof.
  intros (b & Hb). unfold is_candidate, link_score. rewrite Hb.
  destruct (negb (truthy_opt_str (find_target_year text href years)));
    cbn [bind ret]; eauto.
Qed.



(* ================================================================== *)
(** ** Facts about the navigation of a website *)
(* ================================================================== *)

Import Site.

(** *** The head of a stable sort *)

Section SortHeadOrder.
Context {A : Type} (lt : A -> A -> bool).
Hypothesis lt_asym' : forall x y, lt x y = true -> lt y x = false.
Hypothesis lt_neg_trans : forall x y z, lt x y = false -> lt y z = false -> lt x z = false.

(** The head of a stable descending sort is the first entry that no
    entry exceeds. *)
Lemma sort_desc_head_order (l : list A) :
  forall top rest, sort_desc lt l = top :: rest ->
    exists l1 l2, l = (l1 ++ top :: l2)%list
                  /\ (forall y, In y l1 -> lt y top = true)
                  /\ (forall y, In y l2 -> lt top y = false).
Proof.
  induction l as [ | x l IH ]; intros top rest Hsort; [ discriminate | ].
  cbn [sort_desc fold_right] in Hsort. fold (sort_desc lt l) in Hsort.
  destruct (sort_desc lt l) as [ | h t ] eqn:Hs.
  - assert (Hl : l = []).
    { apply Permutation_nil. rewrite <- Hs. apply sort_desc_perm. }
    subst l. cbn in Hsort. injection Hsort as <- <-.
    exists [], []. repeat split; intros y [].
  - destruct (IH h t eq_refl) as (l1 & l2 & -> & Hbefore & Hafter).
    cbn [insert_desc] in Hsort. destruct (lt x h) eqn:Hxh.
    + injection Hsort as <- <-. exists (x :: l1), l2. repeat split.
      * intros y [<- | Hy]; [ exact Hxh | now apply Hbefore ].
      * exact Hafter.
    + injection Hsort as <- <-. exists [], (l1 ++ h :: l2)%list. repeat split.
      * intros y [].
      * intros y Hy. apply in_app_or in Hy. destruct Hy as [Hy | [<- | Hy]].
        -- destruct (lt x y) eqn:Hxy; [ | reflexivity ].
           assert (Hhy : lt h y = false) by (apply lt_asym'; now apply Hbefore).
           rewrite (lt_neg_trans x h y Hxh Hhy) in Hxy. discriminate.
        -- exact Hxh.
        -- apply (lt_neg_trans x h y Hxh). now apply Hafter.
Qed.
End SortHeadOrder.

Lemma triple_lt_asym a b : triple_lt a b = true -> triple_lt b a = false.
Proof.
  destruct a as [[a1 a2] a3], b as [[b1 b2] b3]. unfold triple_lt.
  destruct (Z.eqb_spec a1 b1), (Z.eqb_spec b1 a1), (Z.eqb_spec a2 b2), (Z.eqb_spec b2 a2);
    rewrite ?Z.ltb_lt, ?Z.ltb_ge; lia.
Qed.

Lemma triple_lt_neg_trans a b c :
  triple_lt a b = false -> triple_lt b c = false -> triple_lt a c = false.
Proof.
  destruct a as [[a1 a2] a3], b as [[b1 b2] b3], c as [[c1 c2] c3]. unfold triple_lt.
  destruct (Z.eqb_spec a1 b1), (Z.eqb_spec b1 c1), (Z.eqb_spec a1 c1),
           (Z.eqb_spec a2 b2), (Z.eqb_spec b2 c2), (Z.eqb_spec a2 c2);
    rewrite ?Z.ltb_lt, ?Z.ltb_ge; lia.
Qed.

(** *** The page chosen by [find_navigation_page_url] *)

Lemma first_candidate_Some urljoin netloc base_url link_tag : forall page_keywords i c,
  first_candidate urljoin netloc base_url link_tag i page_keywords = Some c ->
  exists k keyword,
    nth_error page_keywords k = Some keyword
    /\ keyword_matches link_tag keyword = true
    /\ (forall j kw, (j < k)%nat -> nth_error page_keywords j = Some kw ->
                     keyword_matches link_tag kw = false)
    /\ page_like urljoin netloc base_url link_tag = true
    /\ c = mkCandidate (urljoin base_url (anchor_href link_tag)) (anchor_text link_tag)
                       (i + k)
                       (if contains keyword (lower (anchor_text link_tag)) then 2 else 0).
Proof.
  induction page_keywords as [ | keyword rest IH ]; intros i c H; [ discriminate | ].
  cbn [first_candidate] in H.
  destruct (keyword_matches link_tag keyword) eqn:Hmatch.
  - destruct (page_like urljoin netloc base_url link_tag) eqn:Hpage.
    + injection H as <-. exists 0%nat, keyword. rewrite Nat.add_0_r.
      repeat split; auto. intros j kw Hj. lia.
    + destruct (IH _ _ H) as (k & kw & _ & _ & _ & Hpage' & _). congruence.
  - destruct (IH _ _ H) as (k & kw & Hk & Hkw & Hfirst & Hpage & ->).
    exists (S k), kw. repeat split; auto.
    + intros [ | j ] kw' Hj Hnth; cbn in Hnth.
      * now injection Hnth as <-.
      * apply (Hfirst j); [ lia | exact Hnth ].
    + f_equal. lia.
Qed.

Lemma first_candidate_None urljoin netloc base_url link_tag : forall page_keywords i,
  first_candidate urljoin netloc base_url link_tag i page_keywords = None ->
  page_like urljoin netloc base_url link_tag = false
  \/ forall keyword, In keyword page_keywords -> keyword_matches link_tag keyword = false.
Proof.
  induction page_keywords as [ | keyword rest IH ]; intros i H; [ right; intros k [] | ].
  cbn [first_candidate] in H.
  destruct (keyword_matches link_tag keyword) eqn:Hmatch.
  - destruct (page_like urljoin netloc base_url link_tag) eqn:Hpage;
      [ discriminate | now left ].
  - destruct (IH _ H) as [Hpage | Hnone]; [ now left | right ].
    intros kw [<- | Hkw]; [ exact Hmatch | now apply Hnone ].
Qed.

Lemma candidate_links_In urljoin netloc base_url soup page_keywords c :
  In c (candidate_links urljoin netloc base_url soup page_keywords) <->
  exists link_tag,
    In link_tag soup /\ skipped_href (anchor_href link_tag) = false
    /\ first_candidate urljoin netloc base_url link_tag 0 page_keywords = Some c.
Proof.
  unfold candidate_links. rewrite in_flat_map. split.
  - intros (link_tag & Hin & Hc). exists link_tag.
    destruct (skipped_href (anchor_href link_tag)); [ destruct Hc | ].
    destruct (first_candidate urljoin netloc base_url link_tag 0 page_keywords);
      [ | destruct Hc ].
    destruct Hc as [<- | []]. auto.
  - intros (link_tag & Hin & Hskip & Hc). exists link_tag.
    rewrite Hskip, Hc. split; [ exact Hin | now left ].
Qed.



(** X20.  On a page of ASCII anchors, with ASCII addresses: among the
    anchors that qualify, the one chosen matched the earliest keyword of
    the list; among those, one that matched in its text goes before one
    that matched in its href only, then the shortest text wins; and of two
    anchors equal in all this the first on the page is chosen. *)
Theorem navigation_page_has_best_key :
  forall urljoin netloc base_url soup page_keywords u,
    is_ascii base_url = true -> ascii_urljoin urljoin -> ascii_page soup = true ->
    find_navigation_page_url urljoin netloc base_url soup page_keywords = Some u ->
    exists before selected after,
      candidate_links urljoin netloc base_url soup page_keywords
      = (before ++ selected :: after)%list
      /\ cand_url selected = u
      /\ (forall c, In c before ->
                    triple_lt (candidate_key selected) (candidate_key c) = true)
      /\ (forall c, In c after ->
                    triple_lt (candidate_key c) (candidate_key selected) = false)
      /\ (forall c, In c (candidate_links urljoin netloc base_url soup page_keywords) ->
                    (priority selected <= priority c)%nat).
Proof.
  intros urljoin netloc base_url soup page_keywords u _ _ _.
  unfold find_navigation_page_url, sort_asc.
  set (lt := fun x y : Candidate => triple_lt (candidate_key y) (candidate_key x)).
  set (cands := candidate_links urljoin netloc base_url soup page_keywords).
  destruct (sort_desc lt cands) as [ | selected rest ] eqn:Hsort; [ discriminate | ].
  intros [= <-].
  destruct (sort_desc_head_order lt) with (l := cands) (top := selected) (rest := rest)
    as (l1 & l2 & Hsplit & Hbefore & Hafter).
  - intros x y. apply triple_lt_asym.
  - intros x y z Hxy Hyz. unfold lt in *. eapply triple_lt_neg_trans; eauto.
  - exact Hsort.
  - exists l1, selected, l2. repeat split; auto.
    intros c Hc. rewrite Hsplit in Hc. apply in_app_or in Hc.
    assert (Hkey : triple_lt (candidate_key c) (candidate_key selected) = false).
    { destruct Hc as [Hc | [<- | Hc]].
      - apply triple_lt_asym. now apply Hbefore.
      - destruct (triple_lt (candidate_key selected) (candidate_key selected)) eqn:E;
          [ | reflexivity ].
        now rewrite (triple_lt_asym _ _ E) in E.
      - now apply Hafter. }
    unfold triple_lt, candidate_key in Hkey.
    destruct (Z.eqb_spec (Z.of_nat (priority c)) (Z.of_nat (priority selected)));
      [ lia | ].
    apply Z.ltb_ge in Hkey. lia.
Qed.

(** X20, witness: a page with a link to the reports and one to the
    investors' pages, searched with the keywords for the latter. *)
Lemma navigation_page_has_best_key_witness :
  let urljoin := fun (_ href : string) => href in
  let netloc := fun _ : string => "a.example" in
  let soup := [mkAnchor "Annual reports for investors" "https://a.example/reports/";
               mkAnchor "Investors" "https://a.example/investors/"] in
  exists before selected after,
    candidate_links urljoin netloc "https://a.example/" soup ir_keywords
    = (before ++ selected :: after)%list
    /\ cand_url selected = "https://a.example/investors/"
    /\ (forall c, In c before ->
                  triple_lt (candidate_key selected) (candidate_key c) = true)
    /\ (forall c, In c after ->
                  triple_lt (candidate_key c) (candidate_key selected) = false)
    /\ (forall c, In c (candidate_links urljoin netloc "https://a.example/" soup ir_keywords) ->
                  (priority selected <= priority c)%nat).
Proof.
  cbv zeta.
  apply (navigation_page_has_best_key
           (fun (_ href : string) => href) (fun _ : string => "a.example")
           "https://a.example/"
           [mkAnchor "Annual reports for investors" "https://a.example/reports/";
            mkAnchor "Investors" "https://a.example/investors/"]
           ir_keywords "https://a.example/investors/"
           eq_refl (fun _ _ _ H => H) eq_refl).
  vm_compute. reflexivity.
Defined.

(** *** The website found by the search *)

Lemma site_candidates_In netloc simplified items c :
  In c (flat_map
          (fun link =>
             match link with
             | Some url =>
                 if (url =? "")%string then []
                 else [mkSiteCandidate url
                         (domain_score simplified (remove_sub "www." (lower (netloc url))))]
             | None => []
             end)
          items)
  <-> exists url, In (Some url) items /\ url <> ""
                  /\ c = mkSiteCandidate url
                           (domain_score simplified (remove_sub "www." (lower (netloc url)))).
Proof.
  rewrite in_flat_map. split.
  - intros ([url | ] & Hin & Hc); [ | destruct Hc ].
    destruct (String.eqb_spec url ""); [ destruct Hc | ].
    destruct Hc as [<- | []]. eauto.
  - intros (url & Hin & Hne & ->). exists (Some url). split; [ exact Hin | ].
    apply String.eqb_neq in Hne. rewrite Hne. now left.
Qed.

(** X21.  For a company with an ASCII name and results with ASCII
    links: the website returned by [search_google_for_website] is a
    non-empty link among the first five results, and no such link has a
    domain that scores higher.  When the search raised or none of the
    first five results has a link, [None] is returned. *)
Theorem website_is_best_scoring_link :
  forall netloc res company_name,
    is_ascii company_name = true -> ascii_reply res = true -> ascii_netloc netloc ->
    let score := fun url =>
      domain_score (filter_string is_alnum (first_word (lower company_name)))
                   (remove_sub "www." (lower (netloc url))) in
    (forall u,
       search_google_for_website netloc res company_name = Some u ->
       exists items,
         res = SearchReturns items
         /\ In (Some u) (firstn SEARCH_RESULTS_TO_CHECK items) /\ u <> ""
         /\ forall v, In (Some v) (firstn SEARCH_RESULTS_TO_CHECK items) -> v <> "" ->
                      score v <= score u <= 3)
    /\ (res = SearchRaises
        \/ (exists items,
              res = SearchReturns items
              /\ forall v, In (Some v) (firstn SEARCH_RESULTS_TO_CHECK items) -> v = "") ->
        search_google_for_website netloc res company_name = None).
Proof.
  intros netloc res company_name _ _ _. cbv zeta.
  set (simplified := filter_string is_alnum (first_word (lower company_name))).
  assert (Hrange : forall d, domain_score simplified d <= 3).
  { intros d. unfold domain_score.
    destruct (contains simplified d), (contains "investor" d || contains "ir" d); lia. }
  destruct res as [ | items ].
  - split; [ discriminate | reflexivity ].
  - assert (Hdef : search_google_for_website netloc (SearchReturns items) company_name
                   = match sort_desc (fun a b => site_score a <? site_score b)
                             (flat_map
                                (fun link =>
                                   match link with
                                   | Some url =>
                                       if (url =? "")%string then []
                                       else [mkSiteCandidate url
                                               (domain_score simplified
                                                  (remove_sub "www." (lower (netloc url))))]
                                   | None => []
                                   end)
                                (firstn SEARCH_RESULTS_TO_CHECK items)) with
                     | [] => None
                     | best :: _ => Some (site_url best)
                     end).
    { destruct items; reflexivity. }
    rewrite Hdef. clear Hdef.
    set (cands := flat_map _ (firstn SEARCH_RESULTS_TO_CHECK items)).
    destruct (sort_desc (fun a b => site_score a <? site_score b) cands)
      as [ | best rest ] eqn:Hsort.
    + split; [ discriminate | reflexivity ].
    + destruct (sort_desc_head_max (fun a b => site_score a <? site_score b) site_score cands)
        with (top := best) (rest := rest) as [Hin Hmax]; auto.
      apply site_candidates_In in Hin. destruct Hin as (url & Hin & Hne & ->).
      split.
      * intros u [= <-]. exists items. cbn [site_url].
        split; [ reflexivity | ]. split; [ exact Hin | ]. split; [ exact Hne | ].
        intros v Hv Hvne. split; [ | apply Hrange ].
        apply (Hmax (mkSiteCandidate v
                       (domain_score simplified (remove_sub "www." (lower (netloc v)))))).
        apply site_candidates_In. eauto.
      * intros [ | (items' & [= <-] & Hnone)]; [ discriminate | ].
        now apply Hnone in Hin.
Qed.

(** X21, witness: of two results the one on the company's domain. *)
Lemma website_is_best_scoring_link_witness :
  let netloc := fun url : string =>
    if (url =? "https://www.acme.example/")%string then "www.acme.example"
    else "news.example" in
  let res := SearchReturns [Some "https://news.example/acme"; None;
                            Some "https://www.acme.example/"] in
  let score := fun url =>
    domain_score (filter_string is_alnum (first_word (lower "Acme Corp.")))
                 (remove_sub "www." (lower (netloc url))) in
  exists items,
    res = SearchReturns items
    /\ In (Some "https://www.acme.example/") (firstn SEARCH_RESULTS_TO_CHECK items)
    /\ "https://www.acme.example/" <> ""
    /\ forall v, In (Some v) (firstn SEARCH_RESULTS_TO_CHECK items) -> v <> "" ->
                 score v <= score "https://www.acme.example/" <= 3.
Proof.
  cbv zeta.
  apply (proj1 (website_is_best_scoring_link
                  (fun url : string =>
                     if (url =? "https://www.acme.example/")%string
                     then "www.acme.example" else "news.example")
                  (SearchReturns [Some "https://news.example/acme"; None;
                                  Some "https://www.acme.example/"])
                  "Acme Corp." eq_refl eq_refl
                  (fun url _ =>
                     match (url =? "https://www.acme.example/")%string as b
                     return is_ascii (if b then "www.acme.example" else "news.example")
                            = true
                     with
                     | true => eq_refl
                     | false => eq_refl
                     end))).
  vm_compute. reflexivity.
Defined.

(** *** The report links of a page *)

Lemma report_links_spec (urljoin : string -> string -> string) (netloc : string -> string)
    page_url base_url years :
  forall soup found0 found,
    report_links urljoin netloc page_url base_url years soup found0 = ret found ->
    (NoDup found0 -> NoDup found)
    /\ forall u, In u found <->
                 In u found0
                 \/ exists link_tag,
                      In link_tag soup
                      /\ report_link urljoin netloc page_url base_url years link_tag
                         = ret (Some u).
Proof.
  induction soup as [ | link_tag soup IH ]; intros found0 found H; cbn [report_links] in H.
  - injection H as <-. split; [ auto | ].
    intros u. split; [ now left | ]. intros [Hu | (l & [] & _)]. exact Hu.
  - destruct (report_link urljoin netloc page_url base_url years link_tag)
      as [e | r] eqn:Hr; cbn [bind] in H; [ discriminate | ].
    apply IH in H. destruct H as [Hnd Hin]. split.
    + intros H0. apply Hnd. destruct r; [ now apply set_add_nodup | exact H0 ].
    + intros u. rewrite Hin. split.
      * intros [Hu | (l & Hl & Hlu)].
        -- destruct r as [full_url | ]; [ | now left ].
           apply set_add_iff in Hu. destruct Hu as [-> | Hu]; [ | now left ].
           right. exists link_tag. split; [ now left | exact Hr ].
        -- right. exists l. split; [ now right | exact Hlu ].
      * intros [Hu | (l & [<- | Hl] & Hlu)].
        -- left. destruct r; [ apply set_add_iff; now right | exact Hu ].
        -- left. rewrite Hr in Hlu. injection Hlu as ->. apply set_add_iff. now left.
        -- right. eauto.
Qed.

Lemma report_link_Some (urljoin : string -> string -> string) (netloc : string -> string)
    page_url base_url years link_tag u :
  report_link urljoin netloc page_url base_url years link_tag = ret (Some u) ->
  u = urljoin page_url (anchor_href link_tag)
  /\ skipped_href (anchor_href link_tag) = false
  /\ (same_site netloc base_url u = true
      \/ existsb (fun kw => contains kw (lower u)) filing_sites = true)
  /\ is_candidate (lower (anchor_text link_tag)) (lower (anchor_href link_tag)) years
     = ret true.
Proof.
  unfold report_link.
  destruct (skipped_href (anchor_href link_tag)); [ discriminate | ].
  destruct (same_site netloc base_url (urljoin page_url (anchor_href link_tag))) eqn:Hsite;
    cbn [negb andb].
  - destruct (is_candidate _ _ years) as [e | [ | ]]; cbn [bind ret]; try discriminate.
    intros [= <-]. auto.
  - destruct (existsb _ filing_sites) eqn:Hfiling; cbn [negb]; [ | discriminate ].
    destruct (is_candidate _ _ years) as [e | [ | ]]; cbn [bind ret]; try discriminate.
    intros [= <-]. auto.
Qed.

Lemma fallback_links_spec (urljoin : string -> string -> string) (netloc : string -> string)
    page_url base_url :
  forall soup found0,
    let step := fun (found_urls : set string) link_tag =>
      if negb (anchor_href link_tag =? "")%string
         && ends_with ".pdf" (lower (anchor_href link_tag))
      then
        if same_site netloc base_url (urljoin page_url (anchor_href link_tag))
        then set_add string_dec (urljoin page_url (anchor_href link_tag)) found_urls
        else found_urls
      else found_urls in
    (NoDup found0 -> NoDup (fold_left step soup found0))
    /\ forall u, In u (fold_left step soup found0) <->
                 In u found0
                 \/ exists link_tag,
                      In link_tag soup
                      /\ u = urljoin page_url (anchor_href link_tag)
                      /\ ends_with ".pdf" (lower (anchor_href link_tag)) = true
                      /\ same_site netloc base_url u = true.
Proof.
  cbv zeta. induction soup as [ | link_tag soup IH ]; intros found0; cbn [fold_left].
  - split; [ auto | ]. intros u. split; [ now left | ].
    intros [Hu | (l & [] & _)]. exact Hu.
  - match goal with
    | |- context [fold_left ?f soup ?acc] => destruct (IH acc) as [Hnd Hin]
    end.
    split.
    + intros H0. apply Hnd.
      destruct (negb (anchor_href link_tag =? "")%string
                && ends_with ".pdf" (lower (anchor_href link_tag))); [ | exact H0 ].
      destruct (same_site netloc base_url (urljoin page_url (anchor_href link_tag)));
        [ now apply set_add_nodup | exact H0 ].
    + intros u. rewrite Hin. clear Hin Hnd IH.
      assert (Hstep :
                In u (if negb (anchor_href link_tag =? "")%string
                         && ends_with ".pdf" (lower (anchor_href link_tag))
                      then
                        if same_site netloc base_url
                                     (urljoin page_url (anchor_href link_tag))
                        then set_add string_dec (urljoin page_url (anchor_href link_tag))
                                     found0
                        else found0
                      else found0)
                <-> In u found0
                    \/ (u = urljoin page_url (anchor_href link_tag)
                        /\ ends_with ".pdf" (lower (anchor_href link_tag)) = true
                        /\ same_site netloc base_url u = true)).
      { destruct (String.eqb_spec (anchor_href link_tag) "") as [Hempty | Hfull];
          cbn [negb andb].
        - rewrite Hempty. cbn [lower]. split; [ now left | ].
          intros [Hu | (_ & Hpdf & _)]; [ exact Hu | discriminate Hpdf ].
        - destruct (ends_with ".pdf" (lower (anchor_href link_tag))) eqn:Hpdf.
          + destruct (same_site netloc base_url (urljoin page_url (anchor_href link_tag)))
              eqn:Hsite.
            * rewrite set_add_iff. split.
              -- intros [-> | Hu]; [ right; auto | now left ].
              -- intros [Hu | (-> & _)]; [ now right | now left ].
            * split; [ now left | ].
              intros [Hu | (-> & _ & Hs)]; [ exact Hu | congruence ].
          + split; [ now left | ].
            intros [Hu | (_ & Hp & _)]; [ exact Hu | discriminate Hp ]. }
      rewrite Hstep. split.
      * intros [[Hu | Hadd] | (l & Hl & Hrest)].
        -- now left.
        -- right. exists link_tag. split; [ now left | exact Hadd ].
        -- right. exists l. split; [ now right | exact Hrest ].
      * intros [Hu | (l & [<- | Hl] & Hrest)].
        -- left. now left.
        -- left. now right.
        -- right. exists l. split; assumption.
Qed.

(** X22.  On a page of ASCII anchors, with ASCII addresses and target
    years of letters and digits: what [extract_report_urls_from_page]
    returns, each URL once: without a page, nothing.  Otherwise the
    absolute URLs of the anchors that are not skipped, that stay on the
    site or name a filing site, and that the decision keeps.  Only when
    there is none of these and the address of the page holds one of the
    five listing terms, it returns instead the links of the site whose
    href ends in [.pdf]. *)
Theorem extracted_urls_come_from_the_page :
  forall (urljoin : string -> string -> string) (netloc : string -> string)
         soup page_url base_url years found,
    is_ascii page_url = true -> ascii_urljoin urljoin ->
    (forall anchors, soup = Some anchors -> ascii_page anchors = true) ->
    plain_years years = true ->
    extract_report_urls_from_page urljoin netloc soup page_url base_url years = ret found ->
    let kept := fun u =>
      exists anchors link_tag,
        soup = Some anchors /\ In link_tag anchors
        /\ u = urljoin page_url (anchor_href link_tag)
        /\ skipped_href (anchor_href link_tag) = false
        /\ (same_site netloc base_url u = true
            \/ existsb (fun kw => contains kw (lower u)) filing_sites = true)
        /\ is_candidate (lower (anchor_text link_tag)) (lower (anchor_href link_tag)) years
           = ret true in
    let pdf_of_site := fun u =>
      exists anchors link_tag,
        soup = Some anchors /\ In link_tag anchors
        /\ u = urljoin page_url (anchor_href link_tag)
        /\ ends_with ".pdf" (lower (anchor_href link_tag)) = true
        /\ same_site netloc base_url u = true in
    NoDup found
    /\ (soup = None -> found = [])
    /\ ((exists u, kept u) -> forall u, In u found <-> kept u)
    /\ (~ (exists u, kept u) ->
        if existsb (fun term => contains term (lower page_url)) listing_terms
        then forall u, In u found <-> pdf_of_site u
        else found = []).
Proof.
  intros urljoin netloc soup page_url base_url years found _ _ _ _. cbv zeta.
  unfold extract_report_urls_from_page.
  generalize (existsb (fun term => contains term (lower page_url)) listing_terms).
  intros listing. destruct soup as [anchors | ].
  - destruct (report_links urljoin netloc page_url base_url years anchors (empty_set string))
      as [e | found_urls] eqn:Hlinks; cbn [bind ret]; [ discriminate | ].
    apply report_links_spec in Hlinks. destruct Hlinks as [Hnd Hin].
    specialize (Hnd (NoDup_nil _)).
    assert (Hkept : forall u,
              In u found_urls <->
              exists anchors' link_tag,
                Some anchors = Some anchors' /\ In link_tag anchors'
                /\ u = urljoin page_url (anchor_href link_tag)
                /\ skipped_href (anchor_href link_tag) = false
                /\ (same_site netloc base_url u = true
                    \/ existsb (fun kw => contains kw (lower u)) filing_sites = true)
                /\ is_candidate (lower (anchor_text link_tag))
                                (lower (anchor_href link_tag)) years = ret true).
    { intros u. rewrite Hin. split.
      - intros [[] | (l & Hl & Hu)]. apply report_link_Some in Hu.
        destruct Hu as (Hu & Hskip & Hsite & Hcand). exists anchors, l.
        repeat split; auto.
      - intros (anchors' & l & [= <-] & Hl & Hu & Hskip & Hsite & Hcand).
        right. exists l. split; [ exact Hl | ].
        unfold report_link. rewrite Hskip, <- Hu, Hcand.
        destruct Hsite as [-> | ->]; cbn [negb andb bind ret];
          rewrite ?andb_false_r; reflexivity. }
    destruct (fallback_links_spec urljoin netloc page_url base_url anchors (empty_set string))
      as [Hfnd Hfin].
    fold (fallback_links urljoin netloc page_url base_url anchors) in Hfnd, Hfin.
    intros [= <-]. split; [ | split; [ discriminate | split ] ].
    + destruct found_urls; [ | exact Hnd ].
      destruct listing; [ apply Hfnd; constructor | constructor ].
    + intros (u0 & Hu0). apply Hkept in Hu0.
      destruct found_urls as [ | x rest ]; [ destruct Hu0 | ]. exact Hkept.
    + intros Hnone.
      destruct found_urls as [ | x rest ].
      * destruct listing; [ | reflexivity ].
        intros u. rewrite Hfin. split.
        -- intros [[] | (l & Hl & Hrest)]. exists anchors, l. tauto.
        -- intros (anchors' & l & [= <-] & Hl & Hrest). right. exists l. tauto.
      * exfalso. apply Hnone. exists x. apply Hkept. now left.
  - intros [= <-]. split; [ constructor | ]. split; [ reflexivity | ]. split.
    + intros (u0 & a & l & Ha & _). discriminate.
    + intros _. destruct listing; [ | reflexivity ].
      intros u. split; [ intros [] | ]. intros (a & l & Ha & _). discriminate.
Qed.

(** X22, witness: a page with one link to the report of 2023. *)
Lemma extracted_urls_come_from_the_page_witness :
  let urljoin := fun (_ href : string) => href in
  let netloc := fun _ : string => "a.example" in
  let soup := Some [mkAnchor "Annual Report 2023" "https://a.example/ar-2023.pdf"] in
  let page_url := "https://a.example/investors/" in
  let base_url := "https://a.example/" in
  let found := ["https://a.example/ar-2023.pdf"] in
  let kept := fun u =>
    exists anchors link_tag,
      soup = Some anchors /\ In link_tag anchors
      /\ u = urljoin page_url (anchor_href link_tag)
      /\ skipped_href (anchor_href link_tag) = false
      /\ (same_site netloc base_url u = true
          \/ existsb (fun kw => contains kw (lower u)) filing_sites = true)
      /\ is_candidate (lower (anchor_text link_tag)) (lower (anchor_href link_tag))
                      TARGET_YEARS
         = ret true in
  let pdf_of_site := fun u =>
    exists anchors link_tag,
      soup = Some anchors /\ In link_tag anchors
      /\ u = urljoin page_url (anchor_href link_tag)
      /\ ends_with ".pdf" (lower (anchor_href link_tag)) = true
      /\ same_site netloc base_url u = true in
  NoDup found
  /\ (soup = None -> found = [])
  /\ ((exists u, kept u) -> forall u, In u found <-> kept u)
  /\ (~ (exists u, kept u) ->
      if existsb (fun term => contains term (lower page_url)) listing_terms
      then forall u, In u found <-> pdf_of_site u
      else found = []).
Proof.
  cbv zeta.
  apply (extracted_urls_come_from_the_page
           (fun (_ href : string) => href) (fun _ : string => "a.example")
           (Some [mkAnchor "Annual Report 2023" "https://a.example/ar-2023.pdf"])
           "https://a.example/investors/" "https://a.example/" TARGET_YEARS
           ["https://a.example/ar-2023.pdf"]
           eq_refl (fun _ _ _ H => H)).
  - intros anchors [= <-]. reflexivity.
  - reflexivity.
  - vm_compute. reflexivity.
Defined.

(** *** The scrape of a website *)

Lemma extract_report_urls_NoDup (urljoin : string -> string -> string)
    (netloc : string -> string) soup page_url base_url years found :
  extract_report_urls_from_page urljoin netloc soup page_url base_url years = ret found ->
  NoDup found.
Proof.
  unfold extract_report_urls_from_page. destruct soup as [anchors | ].
  - destruct (report_links urljoin netloc page_url base_url years anchors (empty_set string))
      as [e | found_urls] eqn:Hlinks; cbn [bind ret]; [ discriminate | ].
    apply report_links_spec in Hlinks. destruct Hlinks as [Hnd _].
    specialize (Hnd (NoDup_nil _)).
    generalize (existsb (fun term => contains term (lower page_url)) listing_terms).
    intros listing [= <-]. destruct found_urls; [ | exact Hnd ].
    destruct listing; [ | constructor ].
    apply (fallback_links_spec urljoin netloc page_url base_url anchors (empty_set string)).
    constructor.
  - intros [= <-]. constructor.
Qed.

Lemma scan_pages_spec (urljoin : string -> string -> string) (netloc : string -> string)
    (get_page : nat -> string -> option (list Anchor)) base_url years :
  forall pages fetches all0 found,
    scan_pages urljoin netloc get_page base_url years pages fetches all0 = ret found ->
    (NoDup all0 -> NoDup found)
    /\ forall u, In u found <->
                 In u all0
                 \/ exists i page urls,
                      nth_error pages i = Some page
                      /\ extract_report_urls_from_page urljoin netloc
                           (get_page (fetches + i)%nat page) page base_url years = ret urls
                      /\ In u urls.
Proof.
  induction pages as [ | page pages IH ]; intros fetches all0 found H; cbn [scan_pages] in H.
  - injection H as <-. split; [ auto | ]. intros u. split; [ now left | ].
    intros [Hu | (i & p & urls & Hi & _)]; [ exact Hu | ].
    destruct i; discriminate Hi.
  - destruct (extract_report_urls_from_page urljoin netloc (get_page fetches page) page
                                            base_url years) as [e | urls] eqn:Hx;
      cbn [bind] in H; [ discriminate | ].
    apply IH in H. destruct H as [Hnd Hin]. split.
    + intros H0. apply Hnd. now apply add_all_NoDup.
    + intros u. rewrite Hin, add_all_In. split.
      * intros [[Hu | Hu] | (i & p & urls' & Hi & Hx' & Hu)].
        -- right. exists 0%nat, page, urls. rewrite Nat.add_0_r. auto.
        -- now left.
        -- right. exists (S i), p, urls'. rewrite Nat.add_succ_r. auto.
      * intros [Hu | (i & p & urls' & Hi & Hx' & Hu)]; [ left; now right | ].
        destruct i as [ | i ].
        -- cbn in Hi. injection Hi as <-. rewrite Nat.add_0_r, Hx in Hx'.
           injection Hx' as <-. left. now left.
        -- right. exists i, p, urls'. rewrite Nat.add_succ_r in Hx'. auto.
Qed.

Lemma pages_to_scan_bound (urljoin : string -> string -> string) (netloc : string -> string)
    (get_page : nat -> string -> option (list Anchor)) base_url homepage_soup :
  In base_url (fst (pages_to_scan urljoin netloc get_page base_url homepage_soup))
  /\ NoDup (fst (pages_to_scan urljoin netloc get_page base_url homepage_soup))
  /\ (List.length (fst (pages_to_scan urljoin netloc get_page base_url homepage_soup)) <= 3)%nat
  /\ (1 <= snd (pages_to_scan urljoin netloc get_page base_url homepage_soup) <= 2)%nat.
Proof.
  unfold pages_to_scan.
  set (ir := url_if_any (find_navigation_page_url urljoin netloc base_url homepage_soup
                                                  ir_keywords)).
  set (pages0 := set_add string_dec base_url (empty_set string)).
  set (pages1 := match ir with Some u => set_add string_dec u pages0 | None => pages0 end).
  assert (H0 : In base_url pages0 /\ NoDup pages0 /\ (List.length pages0 <= 1)%nat).
  { cbn. repeat split; auto. repeat constructor. intros []. }
  assert (Hadd : forall u (s : set string),
            (List.length (set_add string_dec u s) <= S (List.length s))%nat).
  { intros u s. induction s as [ | x s IHs ]; cbn; [ lia | ].
    destruct (string_dec u x); cbn; lia. }
  assert (H1 : In base_url pages1 /\ NoDup pages1 /\ (List.length pages1 <= 2)%nat).
  { destruct H0 as (Hin & Hnd & Hlen). subst pages1. destruct ir as [u | ].
    - split; [ apply set_add_iff; now right | ].
      split; [ now apply set_add_nodup | ].
      specialize (Hadd u pages0). lia.
    - repeat split; auto. }
  destruct H1 as (Hin & Hnd & Hlen).
  destruct (match ir with
            | Some u =>
                match get_page 1%nat u with
                | Some ir_page_soup => (ir_page_soup, u, 2%nat)
                | None => (homepage_soup, base_url, 2%nat)
                end
            | None => (homepage_soup, base_url, 1%nat)
            end) as [[soup_nav base_nav] fetches] eqn:Hnav.
  assert (Hf : (1 <= fetches <= 2)%nat).
  { destruct ir as [u | ]; [ destruct (get_page 1%nat u) | ];
      injection Hnav as _ _ <-; lia. }
  cbn [fst snd].
  destruct (url_if_any (find_navigation_page_url urljoin netloc base_nav soup_nav
                                                 reports_keywords)) as [u | ].
  - split; [ apply set_add_iff; now right | ].
    split; [ now apply set_add_nodup | ].
    specialize (Hadd u pages1). split; lia.
  - repeat split; auto; lia.
Qed.



(** *** The scrape stays on the site *)

Lemma extract_report_urls_site (urljoin : string -> string -> string)
    (netloc : string -> string) soup page_url base_url years found :
  extract_report_urls_from_page urljoin netloc soup page_url base_url years = ret found ->
  forall u, In u found ->
    same_site netloc base_url u = true
    \/ existsb (fun kw => contains kw (lower u)) filing_sites = true.
Proof.
  unfold extract_report_urls_from_page. destruct soup as [anchors | ].
  - destruct (report_links urljoin netloc page_url base_url years anchors (empty_set string))
      as [e | found_urls] eqn:Hlinks; cbn [bind ret]; [ discriminate | ].
    apply report_links_spec in Hlinks. destruct Hlinks as [_ Hin].
    generalize (existsb (fun term => contains term (lower page_url)) listing_terms).
    intros listing [= <-] u Hu.
    assert (Hmain : forall v, In v found_urls ->
              same_site netloc base_url v = true
              \/ existsb (fun kw => contains kw (lower v)) filing_sites = true).
    { intros v Hv. apply Hin in Hv. destruct Hv as [[] | (l & _ & Hl)].
      apply report_link_Some in Hl. tauto. }
    destruct found_urls as [ | x rest ]; [ | now apply Hmain ].
    destruct listing; [ | destruct Hu ].
    apply (fallback_links_spec urljoin netloc page_url base_url anchors (empty_set string))
      in Hu.
    destruct Hu as [[] | (l & _ & _ & _ & Hsite)]. now left.
  - intros [= <-] u [].
Qed.

(** X25.  For a company with an ASCII name, on ASCII pages and
    addresses and with target years of letters and digits: every URL that
    [scrape_company_website_for_report_urls] returns is the homepage, or
    has a host that ends with the host of the homepage without its
    [www.], or names a filing site ([sec.gov], [sedar.com], [filing],
    [document]) somewhere in its address. *)
Theorem scraped_urls_stay_on_site :
  forall (urljoin : string -> string -> string) (netloc : string -> string)
         (website_search : string -> search_reply)
         (get_page : nat -> string -> option (list Anchor))
         (pages_order : set string -> list string)
         (company_name : string) (target_years : list string) (found : set string),
    ascii_web urljoin netloc website_search get_page company_name ->
    plain_years target_years = true ->
    scrape_company_website_for_report_urls urljoin netloc website_search get_page
                                           pages_order company_name target_years
    = ret found ->
    forall u, In u found ->
      exists base_url,
        search_google_for_website netloc (website_search company_name) company_name
        = Some base_url
        /\ (u = base_url
            \/ same_site netloc base_url u = true
            \/ existsb (fun kw => contains kw (lower u)) filing_sites = true).
Proof.
  intros urljoin netloc website_search get_page pages_order company_name target_years found
         _ _.
  unfold scrape_company_website_for_report_urls, url_if_any.
  destruct (search_google_for_website netloc (website_search company_name) company_name)
    as [base_url | ]; [ | intros [= <-] u [] ].
  destruct (base_url =? "")%string; [ intros [= <-] u [] | ].
  destruct (get_page 0%nat base_url) as [homepage_soup | ].
  - destruct (pages_to_scan urljoin netloc get_page base_url homepage_soup)
      as [pages fetches].
    intros Hscan u Hu. exists base_url. split; [ reflexivity | ].
    apply scan_pages_spec in Hscan. destruct Hscan as [_ Hin].
    apply Hin in Hu. destruct Hu as [Hu | (i & page & urls & _ & Hx & Hu)].
    + cbn in Hu. destruct Hu as [<- | []]. now left.
    + right. eapply extract_report_urls_site; eauto.
  - intros [= <-] u [<- | []]. exists base_url. auto.
Qed.

(** X25, witness: a homepage with a link to a report on the site. *)
Lemma scraped_urls_stay_on_site_witness :
  let netloc := fun _ : string => "a.example" in
  let u := "https://a.example/ar-2023.pdf" in
  exists base_url,
    search_google_for_website netloc (SearchReturns [Some "https://a.example/"]) "Acme"
    = Some base_url
    /\ (u = base_url
        \/ same_site netloc base_url u = true
        \/ existsb (fun kw => contains kw (lower u)) filing_sites = true).
Proof.
  cbv zeta.
  apply (scraped_urls_stay_on_site
           (fun (_ href : string) => href) (fun _ : string => "a.example")
           (fun _ : string => SearchReturns [Some "https://a.example/"])
           (fun (_ : nat) (_ : string) =>
              Some [mkAnchor "Annual Report 2023" "https://a.example/ar-2023.pdf"])
           (fun pages : set string => pages) "Acme" TARGET_YEARS
           ["https://a.example/"; "https://a.example/ar-2023.pdf"]).
  - split; [ reflexivity | ]. split; [ reflexivity | ].
    split; [ exact (fun _ _ _ H => H) | ].
    split; [ exact (fun _ _ => eq_refl) | ].
    intros n url soup [= <-]. reflexivity.
  - reflexivity.
  - vm_compute. reflexivity.
  - right. now left.
Defined.
